(** * DolphinQt debugger: the logic of [MemoryWidget]

    A shallow embedding of the non-visual part of
    [Source/Core/DolphinQt/Debugger/MemoryWidget.cpp]:

    - [GetTargetAddress]: base address text plus signed offset text;
    - [ValidateAndPreviewInputValue] and [GetInputData]: the value codec;
    - [FindValue]: directional search through an address-space accessor.

    Machine integers are mathematical integers with the wrap-around written
    out.  A [QString] is its sequence of UTF-16 code units, a [QByteArray] its
    sequence of bytes.  The widgets the functions read and write are the
    fields of one record; fonts and palettes are not part of it. *)

From Stdlib Require Import ZArith List Bool Lia String Ascii.
Import ListNotations.
Local Open Scope Z_scope.

(** ** Fixed-width integers *)

Module Int.

Definition u8_max : Z := 255.
Definition u16_max : Z := 65535.
Definition u32_max : Z := 4294967295.
Definition s8_min : Z := -128.
Definition s8_max : Z := 127.
Definition s16_min : Z := -32768.
Definition s16_max : Z := 32767.
Definition s32_min : Z := -2147483648.
Definition s32_max : Z := 2147483647.

(** Conversion to an unsigned type of [bits] bits. *)
Definition wrap (bits : Z) (z : Z) : Z := z mod 2 ^ bits.

Definition to_u8 : Z -> Z := wrap 8.
Definition to_u16 : Z -> Z := wrap 16.
Definition to_u32 : Z -> Z := wrap 32.
Definition to_u64 : Z -> Z := wrap 64.

End Int.

(** ** The parts of Qt the widget calls

    Qt is a library, not part of this repository.  The functions below follow
    its documentation: [QString::toInt] and its siblings ignore leading and
    trailing whitespace, work in the C locale, take an optional sign, and for
    base 16 or base 0 an optional [0x] prefix; base 0 is the C convention
    ([0x] hexadecimal, a leading [0] octal, decimal otherwise).  They return
    the value and the [ok] flag, the value being 0 when [ok] is false. *)

Definition QChar := Z.
Definition QString := list QChar.
Definition QByteArray := list Z.

(** The code unit of an ASCII character, and the text of an ASCII literal. *)
Definition ch (a : ascii) : QChar := Z.of_N (N_of_ascii a).
Definition QStringLiteral (s : string) : QString := map ch (list_ascii_of_string s).

Module Qt.

Definition isEmpty {A : Type} (s : list A) : bool :=
  match s with [] => true | _ :: _ => false end.

(** [QChar::isSpace]. *)
Definition isSpace (c : QChar) : bool :=
  (c =? 32) || ((9 <=? c) && (c <=? 13)) || (c =? 133) || (c =? 160)
  || (c =? 5760) || ((8192 <=? c) && (c <=? 8202)) || (c =? 8232)
  || (c =? 8233) || (c =? 8239) || (c =? 8287) || (c =? 12288).

Fixpoint trim_left (s : QString) : QString :=
  match s with
  | c :: r => if isSpace c then trim_left r else s
  | [] => []
  end.

Definition trimmed (s : QString) : QString :=
  rev (trim_left (rev (trim_left s))).

(** The value of a digit in bases up to 36, either case. *)
Definition digit_value (c : QChar) : option Z :=
  if (48 <=? c) && (c <=? 57) then Some (c - 48)
  else if (97 <=? c) && (c <=? 122) then Some (c - 97 + 10)
  else if (65 <=? c) && (c <=? 90) then Some (c - 65 + 10)
  else None.

(** Every character must be a digit of the base.  The library accumulates
    in 64 bits and fails on overflow; here the value is exact and the
    caller's range check, which is narrower, rejects it. *)
Fixpoint digits_value (base acc : Z) (s : QString) : option Z :=
  match s with
  | [] => Some acc
  | c :: r =>
      match digit_value c with
      | Some d => if d <? base then digits_value base (acc * base + d) r else None
      | None => None
      end
  end.

(** The base prefix: [0x] or [0X] for base 16 and base 0, and for base 0 a
    leading [0] selects octal (the zero stays a digit). *)
Definition strip_prefix (base : Z) (s : QString) : Z * QString :=
  match s with
  | c0 :: x :: r =>
      if (c0 =? 48) && ((x =? 120) || (x =? 88)) && ((base =? 16) || (base =? 0))
      then (16, r)
      else if base =? 0 then (if c0 =? 48 then 8 else 10, s)
      else (base, s)
  | _ =>
      if base =? 0
      then (match s with c0 :: _ => if c0 =? 48 then 8 else 10 | [] => 10 end, s)
      else (base, s)
  end.

(** Prefix, then at least one digit. *)
Definition magnitude (base : Z) (s : QString) : option Z :=
  let '(b, ds) := strip_prefix base s in
  if isEmpty ds then None else digits_value b 0 ds.

(** Signed conversion: optional [+] or [-]. *)
Definition strtoll (s : QString) (base : Z) : option Z :=
  match trimmed s with
  | c :: r =>
      if c =? 45 then option_map Z.opp (magnitude base r)
      else if c =? 43 then magnitude base r
      else magnitude base (c :: r)
  | [] => None
  end.

(** Unsigned conversion: a minus sign is rejected. *)
Definition strtoull (s : QString) (base : Z) : option Z :=
  match trimmed s with
  | c :: r =>
      if c =? 45 then None
      else if c =? 43 then magnitude base r
      else magnitude base (c :: r)
  | [] => None
  end.

(** The range check of the target type. *)
Definition checked (lo hi : Z) (r : option Z) : Z * bool :=
  match r with
  | Some v => if (lo <=? v) && (v <=? hi) then (v, true) else (0, false)
  | None => (0, false)
  end.

Definition toInt (s : QString) (base : Z) : Z * bool :=
  checked Int.s32_min Int.s32_max (strtoll s base).
Definition toUInt (s : QString) (base : Z) : Z * bool :=
  checked 0 Int.u32_max (strtoull s base).
Definition toShort (s : QString) (base : Z) : Z * bool :=
  checked Int.s16_min Int.s16_max (strtoll s base).
Definition toUShort (s : QString) (base : Z) : Z * bool :=
  checked 0 Int.u16_max (strtoull s base).

(** *** Text encodings *)

(** [QString::toLatin1]: a code unit above 0xFF becomes a question mark. *)
Definition toLatin1 (s : QString) : QByteArray :=
  map (fun c => if c <=? 255 then c else 63) s.

Definition fromLatin1 (b : QByteArray) : QString := b.

Definition isHighSurrogate (c : QChar) : bool := (55296 <=? c) && (c <=? 56319).
Definition isLowSurrogate (c : QChar) : bool := (56320 <=? c) && (c <=? 57343).

Definition utf8_2 (c : Z) : QByteArray :=
  [192 + c / 64; 128 + c mod 64].
Definition utf8_3 (c : Z) : QByteArray :=
  [224 + c / 4096; 128 + (c / 64) mod 64; 128 + c mod 64].
Definition utf8_4 (c : Z) : QByteArray :=
  [240 + c / 262144; 128 + (c / 4096) mod 64; 128 + (c / 64) mod 64; 128 + c mod 64].

(** [QString::toUtf8]: one to three bytes for a code unit of the basic
    plane, four for a surrogate pair, a question mark for a surrogate
    without its partner. *)
Fixpoint toUtf8 (s : QString) : QByteArray :=
  match s with
  | [] => []
  | c :: r =>
      if c <? 128 then c :: toUtf8 r
      else if c <? 2048 then utf8_2 c ++ toUtf8 r
      else if isHighSurrogate c then
        match r with
        | d :: r' =>
            if isLowSurrogate d
            then utf8_4 (65536 + (c - 55296) * 1024 + (d - 56320)) ++ toUtf8 r'
            else 63 :: toUtf8 r
        | [] => [63]
        end
      else if isLowSurrogate c then 63 :: toUtf8 r
      else utf8_3 c ++ toUtf8 r
  end.

(** *** Hexadecimal text of a byte array *)

Definition hex_lower (d : Z) : QChar := if d <? 10 then 48 + d else 97 + (d - 10).
Definition hex_upper (d : Z) : QChar := if d <? 10 then 48 + d else 65 + (d - 10).

(** [QByteArray::toHex]: two lowercase digits per byte. *)
Definition toHex (b : QByteArray) : QByteArray :=
  flat_map (fun x => [hex_lower (x / 16); hex_lower (x mod 16)]) b.

(** The value of a hexadecimal digit, [None] for any other character. *)
Definition nibble (c : Z) : option Z :=
  if (48 <=? c) && (c <=? 57) then Some (c - 48)
  else if (97 <=? c) && (c <=? 102) then Some (c - 97 + 10)
  else if (65 <=? c) && (c <=? 70) then Some (c - 65 + 10)
  else None.

Fixpoint nibbles (s : QByteArray) : list Z :=
  match s with
  | [] => []
  | c :: r => match nibble c with Some d => d :: nibbles r | None => nibbles r end
  end.

(** Digits taken from the end, low digit first; a digit left over at the
    front is a byte of its own. *)
Fixpoint pair_up (ds : list Z) : QByteArray :=
  match ds with
  | lo :: hi :: r => (hi * 16 + lo) :: pair_up r
  | [lo] => [lo]
  | [] => []
  end.

(** [QByteArray::fromHex]: characters that are not hexadecimal digits are
    skipped, and the digits are paired from the end of the input. *)
Definition fromHex (s : QByteArray) : QByteArray :=
  rev (pair_up (rev (nibbles s))).

(** *** Editing a string *)

(** [QString::remove(QChar)]. *)
Definition remove (c : QChar) (s : QString) : QString :=
  filter (fun x => negb (x =? c)) s.

Definition truncate (n : Z) (s : QString) : QString := firstn (Z.to_nat n) s.

Definition append (s t : QString) : QString := s ++ t.

(** [QString::insert(position, QChar)], for a position inside the string
    (the widget never inserts beyond the end). *)
Definition insert (pos : Z) (c : QChar) (s : QString) : QString :=
  firstn (Z.to_nat pos) s ++ c :: skipn (Z.to_nat pos) s.

Definition length (s : QString) : Z := Z.of_nat (List.length s).

(** *** Numbers as text *)

(** The hexadecimal digits of a value of at most 64 bits, most significant
    first, at least one digit. *)
Fixpoint hex_digits (fuel : nat) (v : Z) (acc : list Z) : list Z :=
  match fuel with
  | O => acc
  | S f =>
      let acc' := v mod 16 :: acc in
      if v / 16 =? 0 then acc' else hex_digits f (v / 16) acc'
  end.

Definition to_hex_digits (v : Z) : list Z := hex_digits 16 v [].

Definition pad_left (width : nat) (fill : QChar) (s : QString) : QString :=
  repeat fill (width - List.length s) ++ s.

(** [QStringLiteral("%1").arg(value, fieldWidth, 16, fillChar)] for an
    unsigned value: lowercase digits, padded on the left. *)
Definition arg_hex (value : Z) (fieldWidth : nat) (fillChar : QChar) : QString :=
  pad_left fieldWidth fillChar (map hex_lower (to_hex_digits value)).

(** [tr] leaves the source text as it is. *)
Definition tr (s : string) : QString := QStringLiteral s.

End Qt.

(** ** The formatting library

    [fmt::format("{:0wX}", v)] and [fmt::sprintf("%0wX", v)] print an unsigned
    value in uppercase hexadecimal, zero-padded to [w] digits.  The [hh] and
    [h] length modifiers convert the argument to [unsigned char] and
    [unsigned short] first, and [%X] reads an [int] as [unsigned]. *)

Module Fmt.

Definition format_0X (width : nat) (v : Z) : QString :=
  Qt.pad_left width 48 (map Qt.hex_upper (Qt.to_hex_digits v)).

Definition sprintf_02hhX (value : Z) : QString := format_0X 2 (Int.to_u8 value).
Definition sprintf_04hX (value : Z) : QString := format_0X 4 (Int.to_u16 value).
Definition sprintf_08X (value : Z) : QString := format_0X 8 (Int.to_u32 value).

End Fmt.

(** ** Collaborators outside the widget *)

(** Floating-point parsing is Qt's and the bit pattern is [Common::BitCast]'s;
    neither is interpreted here.  The widget only passes the text in and
    prints the bits out. *)
Class FloatingPoint := {
  float : Type;
  double : Type;
  toFloat : QString -> float * bool;
  toDouble : QString -> double * bool;
  BitCast_u32 : float -> Z;
  BitCast_u64 : double -> Z
}.

(** [AddressSpace::Accessors]: the search primitive of the address space
    that is currently selected.  Its result is a [u32] when present. *)
Class Accessors := {
  Search : Z -> QByteArray -> Z -> bool -> option Z
}.

(** ** The widget *)

Inductive InputID : Set :=
| S8 | S16 | S32 | U8 | U16 | U32 | HEXSTR | FLOAT | DOUBLE | ASCII.

Definition InputID_eqb (a b : InputID) : bool :=
  match a, b with
  | S8, S8 | S16, S16 | S32, S32 | U8, U8 | U16, U16 | U32, U32
  | HEXSTR, HEXSTR | FLOAT, FLOAT | DOUBLE, DOUBLE | ASCII, ASCII => true
  | _, _ => false
  end.

Record TargetAddress := {
  address : Z;
  is_good_address : bool;
  is_good_offset : bool
}.

(** One call of [Accessors::Search]: start, pattern, length, direction. *)
Definition SearchCall : Type := Z * QByteArray * Z * bool.

(** The widgets the four functions touch.  [search_calls] records the calls
    made on the accessor, latest first. *)
Record MemoryWidget := {
  m_search_address : QString;
  m_search_offset : QString;
  m_data_edit : QString;
  m_base_check_isChecked : bool;
  m_base_check_isEnabled : bool;
  m_input_combo : InputID;
  m_data_preview : QString;
  m_result_label : QString;
  m_memory_view_address : Z;
  search_calls : list SearchCall
}.

Definition set_search_address (t : QString) (w : MemoryWidget) : MemoryWidget :=
  {| m_search_address := t; m_search_offset := m_search_offset w;
     m_data_edit := m_data_edit w;
     m_base_check_isChecked := m_base_check_isChecked w;
     m_base_check_isEnabled := m_base_check_isEnabled w;
     m_input_combo := m_input_combo w; m_data_preview := m_data_preview w;
     m_result_label := m_result_label w;
     m_memory_view_address := m_memory_view_address w;
     search_calls := search_calls w |}.

Definition set_search_offset (t : QString) (w : MemoryWidget) : MemoryWidget :=
  {| m_search_address := m_search_address w; m_search_offset := t;
     m_data_edit := m_data_edit w;
     m_base_check_isChecked := m_base_check_isChecked w;
     m_base_check_isEnabled := m_base_check_isEnabled w;
     m_input_combo := m_input_combo w; m_data_preview := m_data_preview w;
     m_result_label := m_result_label w;
     m_memory_view_address := m_memory_view_address w;
     search_calls := search_calls w |}.

Definition set_base_check_enabled (b : bool) (w : MemoryWidget) : MemoryWidget :=
  {| m_search_address := m_search_address w; m_search_offset := m_search_offset w;
     m_data_edit := m_data_edit w;
     m_base_check_isChecked := m_base_check_isChecked w;
     m_base_check_isEnabled := b;
     m_input_combo := m_input_combo w; m_data_preview := m_data_preview w;
     m_result_label := m_result_label w;
     m_memory_view_address := m_memory_view_address w;
     search_calls := search_calls w |}.

Definition set_data_preview (t : QString) (w : MemoryWidget) : MemoryWidget :=
  {| m_search_address := m_search_address w; m_search_offset := m_search_offset w;
     m_data_edit := m_data_edit w;
     m_base_check_isChecked := m_base_check_isChecked w;
     m_base_check_isEnabled := m_base_check_isEnabled w;
     m_input_combo := m_input_combo w; m_data_preview := t;
     m_result_label := m_result_label w;
     m_memory_view_address := m_memory_view_address w;
     search_calls := search_calls w |}.

Definition set_result_label (t : QString) (w : MemoryWidget) : MemoryWidget :=
  {| m_search_address := m_search_address w; m_search_offset := m_search_offset w;
     m_data_edit := m_data_edit w;
     m_base_check_isChecked := m_base_check_isChecked w;
     m_base_check_isEnabled := m_base_check_isEnabled w;
     m_input_combo := m_input_combo w; m_data_preview := m_data_preview w;
     m_result_label := t;
     m_memory_view_address := m_memory_view_address w;
     search_calls := search_calls w |}.

Definition memory_view_SetAddress (a : Z) (w : MemoryWidget) : MemoryWidget :=
  {| m_search_address := m_search_address w; m_search_offset := m_search_offset w;
     m_data_edit := m_data_edit w;
     m_base_check_isChecked := m_base_check_isChecked w;
     m_base_check_isEnabled := m_base_check_isEnabled w;
     m_input_combo := m_input_combo w; m_data_preview := m_data_preview w;
     m_result_label := m_result_label w;
     m_memory_view_address := a;
     search_calls := search_calls w |}.

Definition record_search (c : SearchCall) (w : MemoryWidget) : MemoryWidget :=
  {| m_search_address := m_search_address w; m_search_offset := m_search_offset w;
     m_data_edit := m_data_edit w;
     m_base_check_isChecked := m_base_check_isChecked w;
     m_base_check_isEnabled := m_base_check_isEnabled w;
     m_input_combo := m_input_combo w; m_data_preview := m_data_preview w;
     m_result_label := m_result_label w;
     m_memory_view_address := m_memory_view_address w;
     search_calls := c :: search_calls w |}.

(** *** [MemoryWidget::GetTargetAddress] *)

Definition GetTargetAddress (w : MemoryWidget) : TargetAddress :=
  let '(addr, good_address) := Qt.toUInt (m_search_address w) 16 in
  let good_address := good_address || Qt.isEmpty (m_search_address w) in
  let '(offset, good_offset) := Qt.toInt (m_search_offset w) 16 in
  let neg_offset :=
    if negb (offset =? Int.s32_min)
    then Int.to_u32 (- offset)
    else Int.to_u32 (Int.to_u32 Int.s32_max + 1) in
  let good_offset := good_offset || Qt.isEmpty (m_search_offset w) in
  let good_offset := good_offset && ((0 <=? offset) || (neg_offset <=? addr)) in
  let good_offset :=
    good_offset
    && ((offset <=? 0) || (addr <=? Int.to_u32 (Int.u32_max - Int.to_u32 offset))) in
  if negb good_address || negb good_offset
  then {| address := 0; is_good_address := good_address; is_good_offset := good_offset |}
  else if offset <? 0
  then {| address := Int.to_u32 (addr - neg_offset);
          is_good_address := good_address; is_good_offset := good_offset |}
  else {| address := Int.to_u32 (addr + Int.to_u32 offset);
          is_good_address := good_address; is_good_offset := good_offset |}.

(** *** [MemoryWidget::ValidateAndPreviewInputValue] *)

Definition is_integer_input (combo_id : InputID) : bool :=
  InputID_eqb combo_id U32 || InputID_eqb combo_id S32
  || InputID_eqb combo_id U16 || InputID_eqb combo_id S16
  || InputID_eqb combo_id U8 || InputID_eqb combo_id S8.

Definition is_hex_digit (c : QChar) : bool :=
  ((48 <=? c) && (c <=? 57)) || ((65 <=? c) && (c <=? 70)) || ((97 <=? c) && (c <=? 102)).

(** The regular expression [^([0-9A-F]{2})*$], case-insensitive: pairs of
    hexadecimal digits up to the end of the text, where the end is also
    found in front of one final line feed. *)
Fixpoint is_hex_match (s : QString) : bool :=
  match s with
  | [] => true
  | a :: r =>
      match r with
      | [] => a =? 10
      | b :: r' => is_hex_digit a && is_hex_digit b && is_hex_match r'
      end
  end.

(** What each integer case prints from the value it parsed. *)
Definition hex_of_value (combo_id : InputID) (value : Z) : QString :=
  match combo_id with
  | S8 => Fmt.sprintf_02hhX value
  | S16 => Fmt.sprintf_04hX value
  | S32 => Fmt.sprintf_08X value
  | U8 => Fmt.format_0X 2 value
  | U16 => Fmt.format_0X 4 value
  | U32 => Fmt.format_0X 8 value
  | _ => []
  end.

(** The radix the function computes once it has enabled or disabled the
    check box. *)
Definition radix_for (w : MemoryWidget) : Z :=
  if m_base_check_isChecked w && is_integer_input (m_input_combo w) then 16 else 0.

(** The widget as the function leaves it when nothing is previewed. *)
Definition cleared (w : MemoryWidget) : MemoryWidget :=
  set_base_check_enabled (is_integer_input (m_input_combo w)) (set_data_preview [] w).

Section Validate.

Context {FP : FloatingPoint}.

(** The [switch (combo_id)]: the values of [good] and [hex_string] it
    leaves. *)
Definition switch_combo_id (combo_id : InputID) (radix : Z) (input_text : QString)
  : bool * QString :=
  match combo_id with
  | ASCII =>
      let bytes := Qt.toLatin1 input_text in
      (true, Qt.fromLatin1 (Qt.toHex bytes))
  | FLOAT =>
      let '(value_float, good) := toFloat input_text in
      if good
      then (good, Fmt.format_0X 8 (Int.to_u32 (BitCast_u32 value_float)))
      else (good, [])
  | DOUBLE =>
      let '(value_double, good) := toDouble input_text in
      if good
      then (good, Fmt.format_0X 16 (Int.to_u64 (BitCast_u64 value_double)))
      else (good, [])
  | S8 =>
      let '(value, good) := Qt.toShort input_text radix in
      let good := good && ((Int.s8_min <=? value) && (value <=? Int.s8_max)) in
      if good then (good, hex_of_value S8 value) else (good, [])
  | S16 =>
      let '(value, good) := Qt.toShort input_text radix in
      if good then (good, hex_of_value S16 value) else (good, [])
  | S32 =>
      let '(value_int, good) := Qt.toInt input_text radix in
      if good then (good, hex_of_value S32 value_int) else (good, [])
  | U8 =>
      let '(value, good) := Qt.toUShort input_text radix in
      let good := good && (Z.land value 65280 =? 0) in
      if good then (good, hex_of_value U8 value) else (good, [])
  | U16 =>
      let '(value, good) := Qt.toUShort input_text radix in
      if good then (good, hex_of_value U16 value) else (good, [])
  | U32 =>
      let '(value, good) := Qt.toUInt input_text radix in
      if good then (good, hex_of_value U32 value) else (good, [])
  | HEXSTR =>
      let good := is_hex_match input_text in
      if good
      then
        let hbytes := Qt.fromHex (Qt.toUtf8 input_text) in
        (good, Qt.fromLatin1 (Qt.toHex hbytes))
      else (good, [])
  end.

(** The loop [for (int i = 2; i < output_length; i += 2)] that inserts a
    space in front of every byte but the first, from the right. *)
Fixpoint insert_spaces (fuel : nat) (i output_length : Z) (hex_string : QString)
  : QString :=
  match fuel with
  | O => hex_string
  | S fuel' =>
      if i <? output_length
      then insert_spaces fuel' (i + 2) output_length
             (Qt.insert (output_length - i) 32 hex_string)
      else hex_string
  end.

(** The [if (good)] branch: truncation to 16 digits with the ellipsis, then
    the spaces. *)
Definition preview_text (hex_string : QString) : QString :=
  let output_length := Qt.length hex_string in
  let '(hex_string, output_length) :=
    if 16 <? output_length
    then
      let truncated := Qt.truncate 16 hex_string in
      (Qt.append truncated (QStringLiteral "..."), Qt.length truncated)
    else (hex_string, output_length) in
  insert_spaces (Z.to_nat output_length) 2 output_length hex_string.

(** The text the switch works on: spaces removed unless the input is
    ASCII. *)
Definition stripped_input (w : MemoryWidget) : QString :=
  if negb (InputID_eqb (m_input_combo w) ASCII)
  then Qt.remove 32 (m_data_edit w)
  else m_data_edit w.

(** The function on the widget record.  Its last two statements set the
    font and the palette of the edit box, for which the record has no
    field; [ValidateAndPreviewInputValue_with_style] below carries them. *)
Definition ValidateAndPreviewInputValue (w : MemoryWidget) : MemoryWidget :=
  let w := set_data_preview [] w in
  let input_text := m_data_edit w in
  let combo_id := m_input_combo w in
  let w := set_base_check_enabled (is_integer_input combo_id) w in
  if Qt.isEmpty input_text then w
  else
    let input_text := stripped_input w in
    let radix :=
      if m_base_check_isChecked w && m_base_check_isEnabled w then 16 else 0 in
    let '(good, hex_string) := switch_combo_id combo_id radix input_text in
    if good then set_data_preview (preview_text hex_string) w else w.

(** The outcome of the switch for the widget's current input. *)
Definition validation (w : MemoryWidget) : bool * QString :=
  switch_combo_id (m_input_combo w) (radix_for w) (stripped_input w).

End Validate.

(** *** [MemoryWidget::GetInputData] *)

Definition GetInputData (w : MemoryWidget) : QByteArray :=
  if Qt.isEmpty (m_data_preview w) then []
  else
    match m_input_combo w with
    | ASCII => Qt.toUtf8 (m_data_edit w)
    | HEXSTR => Qt.fromHex (Qt.toUtf8 (m_data_edit w))
    | _ => Qt.fromHex (Qt.toUtf8 (m_data_preview w))
    end.

(** *** [MemoryWidget::FindValue] *)

Section Find.

Context {accessors : Accessors}.

Definition FindValue (next : bool) (w : MemoryWidget) : MemoryWidget :=
  let target_addr := GetTargetAddress w in
  if negb (is_good_address target_addr)
  then set_result_label (Qt.tr "Bad address provided.") w
  else if negb (is_good_offset target_addr)
  then set_result_label (Qt.tr "Bad offset provided.") w
  else
    let search_for := GetInputData w in
    if Qt.isEmpty search_for
    then set_result_label (Qt.tr "Bad Value Given") w
    else
      let start :=
        if negb (Qt.isEmpty (m_search_address w))
        then Int.to_u32 (address target_addr + (if next then 1 else -1))
        else address target_addr in
      let size := Int.to_u32 (Qt.length search_for) in
      let found_addr := Search start search_for size next in
      let w := record_search (start, search_for, size, next) w in
      match found_addr with
      | Some found =>
          let w := set_result_label (Qt.tr "Match Found") w in
          let offset := Int.to_u32 found in
          let w := set_search_address (Qt.arg_hex offset 8 48) w in
          let w := set_search_offset [] w in
          memory_view_SetAddress offset w
      | None => set_result_label (Qt.tr "No Match") w
      end.

(** What the accessor promises about direction: a forward search returns
    no address below its start, a backward search none above it. *)
Definition directional : Prop :=
  forall start pattern size forward found,
    Search start pattern size forward = Some found ->
    if forward then start <= found else found <= start.

End Find.

(** ** The memory region behind the accessor *)

(** Modelled from the spec: the memory region of an address space is not
    among the sources.  It is an addressable byte range that begins at
    [region_begin]. *)
Record MemoryRegion := {
  region_begin : Z;
  region_bytes : list Z
}.

Fixpoint bytes_eqb (a b : list Z) : bool :=
  match a, b with
  | [], [] => true
  | x :: a', y :: b' => (x =? y) && bytes_eqb a' b'
  | _, _ => false
  end.

Definition matches_at (r : MemoryRegion) (pattern : QByteArray) (off : nat) : bool :=
  bytes_eqb (firstn (List.length pattern) (skipn off (region_bytes r))) pattern.

(** Offsets [off], [off + 1], ... for [count] candidates. *)
Fixpoint scan_forward (r : MemoryRegion) (pattern : QByteArray) (off count : nat)
  : option Z :=
  match count with
  | O => None
  | S count' =>
      if matches_at r pattern off
      then Some (region_begin r + Z.of_nat off)
      else scan_forward r pattern (S off) count'
  end.

(** Offsets [off], [off - 1], ... down to 0. *)
Fixpoint scan_backward (r : MemoryRegion) (pattern : QByteArray) (off : nat)
  : option Z :=
  if matches_at r pattern off
  then Some (region_begin r + Z.of_nat off)
  else match off with
       | O => None
       | S off' => scan_backward r pattern off'
       end.

(** Modelled from the spec: [AddressSpace::Accessors::Search] is not among
    the sources.  A search scans the region in the given direction from the
    start position, compares the pattern at each candidate position, does
    not wrap, stays inside the region's extent, and returns the absolute
    address of the first match, or nothing when the region is exhausted.
    The spec does not say what a start outside the extent does; here only
    the candidates inside the extent on the asked side of the start are
    compared, and no theorem below depends on that case. *)
Definition region_Search (r : MemoryRegion) (start : Z) (pattern : QByteArray)
  (size : Z) (forward : bool) : option Z :=
  let len := List.length (region_bytes r) in
  let n := List.length pattern in
  if (len <? n)%nat then None
  else
    let last := (len - n)%nat in
    let rel := start - region_begin r in
    if forward
    then
      let first := Z.to_nat (Z.max 0 rel) in
      scan_forward r pattern first (S last - first)
    else
      if rel <? 0 then None
      else scan_backward r pattern (Z.to_nat (Z.min rel (Z.of_nat last))).

Definition region_accessors (r : MemoryRegion) : Accessors :=
  {| Search := region_Search r |}.

(** The start position handed to the accessor. *)
Definition search_start (next : bool) (w : MemoryWidget) : Z :=
  if negb (Qt.isEmpty (m_search_address w))
  then Int.to_u32 (address (GetTargetAddress w) + (if next then 1 else -1))
  else address (GetTargetAddress w).

Definition search_call (next : bool) (w : MemoryWidget) : SearchCall :=
  (search_start next w, GetInputData w, Int.to_u32 (Qt.length (GetInputData w)), next).

(** ** Concrete widgets and digits, for stating and evaluating the properties *)

(** A widget in its initial state but for the texts, the check box and the
    selected input type. *)
Definition widget_with (addr offset edit : string) (checked : bool) (combo_id : InputID)
  : MemoryWidget :=
  {| m_search_address := QStringLiteral addr;
     m_search_offset := QStringLiteral offset;
     m_data_edit := QStringLiteral edit;
     m_base_check_isChecked := checked;
     m_base_check_isEnabled := true;
     m_input_combo := combo_id;
     m_data_preview := [];
     m_result_label := [];
     m_memory_view_address := 0;
     search_calls := [] |}.

(** An instance for evaluating the integer, text and byte-string encodings
    on concrete input: those cases never consult the floating-point
    collaborator, and this one accepts no text. *)
Definition integers_only : FloatingPoint :=
  {| float := unit; double := unit;
     toFloat := fun _ => (tt, false);
     toDouble := fun _ => (tt, false);
     BitCast_u32 := fun _ => 0;
     BitCast_u64 := fun _ => 0 |}.

(** A region of four bytes at address 0 whose only [AA] is its first byte. *)
Definition region_at_zero : MemoryRegion :=
  {| region_begin := 0; region_bytes := [170; 0; 0; 0] |}.

Definition digit16 (d : Z) : Prop := 0 <= d < 16.

(** The number a digit sequence denotes, most significant digit first. *)
Definition digits_to_Z (acc : Z) (ds : list Z) : Z :=
  fold_left (fun a d => a * 16 + d) ds acc.

(** [c] spells the digit [d], in either case. *)
Definition spells (c : QChar) (d : Z) : Prop :=
  digit16 d /\ (c = Qt.hex_lower d \/ c = Qt.hex_upper d).

(** Everything the parsers and [fromHex] ask of a character that spells a
    digit. *)
Record hex_char (c : QChar) (d : Z) : Prop := {
  hc_space : Qt.isSpace c = false;
  hc_digit : Qt.digit_value c = Some d;
  hc_nibble : Qt.nibble c = Some d;
  hc_below : (d <? 16) = true;
  hc_minus : (c =? 45) = false;
  hc_plus : (c =? 43) = false;
  hc_x : (c =? 120) || (c =? 88) = false;
  hc_ascii : (c <? 128) = true;
  hc_latin : (c <=? 255) = true;
  hc_blank : negb (c =? 32) = true;
  hc_hex : is_hex_digit c = true
}.

(** The text [cs] spells the digit sequence [ds]. *)
Definition hex_text (cs : QString) (ds : list Z) : Prop := Forall2 spells cs ds.

(** The two hexadecimal digits of each byte, as numbers. *)
Definition byte_digits (b : QByteArray) : list Z :=
  flat_map (fun x => [x / 16; x mod 16]) b.

Definition is_byte (x : Z) : Prop := 0 <= x <= 255.

(** Hexadecimal text grouped by byte: a space between consecutive pairs. *)
Fixpoint space_grouped (s : QString) : QString :=
  match s with
  | a :: r =>
      match r with
      | b :: r' =>
          match r' with
          | [] => s
          | _ :: _ => a :: b :: 32 :: space_grouped r'
          end
      | [] => s
      end
  | [] => []
  end.

(** What [GetInputData] decodes from the preview of [hex_string]. *)
Definition bytes_of_preview (hex_string : QString) : QByteArray :=
  Qt.fromHex (Qt.toUtf8 (preview_text hex_string)).

(** The bytes of a value of an integer input type: the digits its case of
    the switch prints, previewed and decoded. *)
Definition encode (combo_id : InputID) (value : Z) : QByteArray :=
  bytes_of_preview (hex_of_value combo_id value).

(** The user toggles the check box. *)
Definition set_base_check_checked (b : bool) (w : MemoryWidget) : MemoryWidget :=
  {| m_search_address := m_search_address w; m_search_offset := m_search_offset w;
     m_data_edit := m_data_edit w;
     m_base_check_isChecked := b;
     m_base_check_isEnabled := m_base_check_isEnabled w;
     m_input_combo := m_input_combo w; m_data_preview := m_data_preview w;
     m_result_label := m_result_label w;
     m_memory_view_address := m_memory_view_address w;
     search_calls := search_calls w |}.

(** The user types into the value box. *)
Definition set_data_edit (t : QString) (w : MemoryWidget) : MemoryWidget :=
  {| m_search_address := m_search_address w; m_search_offset := m_search_offset w;
     m_data_edit := t;
     m_base_check_isChecked := m_base_check_isChecked w;
     m_base_check_isEnabled := m_base_check_isEnabled w;
     m_input_combo := m_input_combo w; m_data_preview := m_data_preview w;
     m_result_label := m_result_label w;
     m_memory_view_address := m_memory_view_address w;
     search_calls := search_calls w |}.

(** Seven-bit text. *)
Definition is_ascii (s : QString) : Prop := Forall (fun c => (c <? 128) = true) s.

(** The largest value of an integer input type (no value for the others). *)
Definition input_max (combo_id : InputID) : Z :=
  match combo_id with
  | S8 => Int.s8_max
  | S16 => Int.s16_max
  | S32 => Int.s32_max
  | U8 => Int.u8_max
  | U16 => Int.u16_max
  | U32 => Int.u32_max
  | _ => -1
  end.

(** The number of hexadecimal digits an integer input type prints. *)
Definition input_digits (combo_id : InputID) : nat :=
  match combo_id with
  | S8 | U8 => 2
  | S16 | U16 => 4
  | S32 | U32 => 8
  | _ => 0
  end.

(** Well-formed UTF-16: code units in range, every high surrogate followed
    by a low one, no low surrogate on its own. *)
Fixpoint well_formed (s : QString) : bool :=
  match s with
  | [] => true
  | c :: r =>
      if Qt.isHighSurrogate c
      then
        match r with
        | d :: r' => Qt.isLowSurrogate d && well_formed r'
        | [] => false
        end
      else negb (Qt.isLowSurrogate c) && (0 <=? c) && (c <=? 65535) && well_formed r
  end.

(** The ASCII input type with the two-character text [h], [e-acute] in the
    edit box. *)
Definition accented_input : MemoryWidget :=
  set_data_edit [104; 233] (widget_with "" "" "" false ASCII).

(** The byte-string input type with twelve bytes typed with spaces. *)
Definition long_hex_input : MemoryWidget :=
  widget_with "" "" "00 11 22 33 44 55 66 77 88 99 aA bB" false HEXSTR.

(** ** Tactics *)

(** The limits of the integer types and the conversions between them, as
    numbers. *)
Ltac unfold_int :=
  unfold Int.to_u32, Int.to_u16, Int.to_u8, Int.to_u64, Int.wrap,
    Int.u32_max, Int.s32_min, Int.s32_max, Int.u16_max, Int.s16_min,
    Int.s16_max, Int.u8_max, Int.s8_min, Int.s8_max in *.

(** Case analysis on every comparison in sight. *)
Ltac compare_all :=
  repeat match goal with
         | |- context [?a <? ?b] => destruct (Z.ltb_spec a b)
         | |- context [?a <=? ?b] => destruct (Z.leb_spec a b)
         | H : context [?a <? ?b] |- _ => destruct (Z.ltb_spec a b)
         | H : context [?a <=? ?b] |- _ => destruct (Z.leb_spec a b)
         end;
  cbn [andb orb negb] in *.

(** ** The handlers around the four functions

    [OnSearchAddress], [OnSetValue], [OnSetValueFromFile] and the two find
    buttons.  They need more of the surroundings than the widget record
    holds: whether the emulated core runs, the style of the two search
    boxes, the bytes written through the accessor, the message boxes shown
    and the refreshes requested. *)

(** The font and palette [OnSearchAddress] gives a search box: a fresh
    [QFont] and [QPalette], made bold and red for a bad text. *)
Record LineEditStyle := {
  font_bold : bool;
  text_red : bool
}.

(** One [ModalMessageBox::critical]: title and text. *)
Definition MessageBox : Type := QString * QString.

(** [written] holds the calls of [Accessors::WriteU8] (address, byte) and
    [message_boxes] the boxes shown, latest first; [update_calls] counts the
    calls of [Update]. *)
Record Debugger := {
  widget : MemoryWidget;
  core_IsRunning : bool;
  search_address_style : LineEditStyle;
  search_offset_style : LineEditStyle;
  written : list (Z * Z);
  message_boxes : list MessageBox;
  update_calls : nat
}.

Definition with_widget (w : MemoryWidget) (d : Debugger) : Debugger :=
  {| widget := w; core_IsRunning := core_IsRunning d;
     search_address_style := search_address_style d;
     search_offset_style := search_offset_style d;
     written := written d; message_boxes := message_boxes d;
     update_calls := update_calls d |}.

Definition with_styles (a o : LineEditStyle) (d : Debugger) : Debugger :=
  {| widget := widget d; core_IsRunning := core_IsRunning d;
     search_address_style := a; search_offset_style := o;
     written := written d; message_boxes := message_boxes d;
     update_calls := update_calls d |}.

(** [accessors->WriteU8(address, value)]. *)
Definition WriteU8 (address value : Z) (d : Debugger) : Debugger :=
  {| widget := widget d; core_IsRunning := core_IsRunning d;
     search_address_style := search_address_style d;
     search_offset_style := search_offset_style d;
     written := (address, value) :: written d; message_boxes := message_boxes d;
     update_calls := update_calls d |}.

(** [ModalMessageBox::critical(this, title, text)]. *)
Definition critical (title text : QString) (d : Debugger) : Debugger :=
  {| widget := widget d; core_IsRunning := core_IsRunning d;
     search_address_style := search_address_style d;
     search_offset_style := search_offset_style d;
     written := written d; message_boxes := (title, text) :: message_boxes d;
     update_calls := update_calls d |}.

(** A call of [MemoryWidget::Update]. *)
Definition Update (d : Debugger) : Debugger :=
  {| widget := widget d; core_IsRunning := core_IsRunning d;
     search_address_style := search_address_style d;
     search_offset_style := search_offset_style d;
     written := written d; message_boxes := message_boxes d;
     update_calls := S (update_calls d) |}.

(** *** [MemoryWidget::OnSearchAddress] *)

Definition OnSearchAddress (d : Debugger) : Debugger :=
  let target_addr := GetTargetAddress (widget d) in
  let d :=
    if is_good_address target_addr && is_good_offset target_addr
    then with_widget (memory_view_SetAddress (address target_addr) (widget d)) d
    else d in
  let addr_style :=
    if negb (is_good_address target_addr)
    then {| font_bold := true; text_red := true |}
    else {| font_bold := false; text_red := false |} in
  let offset_style :=
    if negb (is_good_offset target_addr)
    then {| font_bold := true; text_red := true |}
    else {| font_bold := false; text_red := false |} in
  with_styles addr_style offset_style d.

(** *** [MemoryWidget::OnSetValue] *)

(** The loop [accessors->WriteU8(target_addr.address++, static_cast<u8>(c))]
    over the bytes: the address is a [u32] and wraps. *)
Fixpoint write_bytes (address : Z) (bytes : QByteArray) (d : Debugger) : Debugger :=
  match bytes with
  | [] => d
  | c :: rest =>
      write_bytes (Int.to_u32 (address + 1)) rest (WriteU8 address (Int.to_u8 c) d)
  end.

Definition OnSetValue (d : Debugger) : Debugger :=
  if negb (core_IsRunning d) then d
  else
    let target_addr := GetTargetAddress (widget d) in
    if negb (is_good_address target_addr)
    then critical (Qt.tr "Error") (Qt.tr "Bad address provided.") d
    else if negb (is_good_offset target_addr)
    then critical (Qt.tr "Error") (Qt.tr "Bad offset provided.") d
    else
      let bytes := GetInputData (widget d) in
      if Qt.isEmpty bytes
      then critical (Qt.tr "Error") (Qt.tr "Bad value provided.") d
      else Update (write_bytes (address target_addr) bytes d).

(** *** [MemoryWidget::OnSetValueFromFile] *)

(** The file dialog and [File::IOFile]: the dialog returns a path or, when
    it is cancelled, the null string; a file may fail to open, and an open
    file may fail to read; otherwise it gives its whole contents. *)
Inductive IOFile : Type :=
| NotOpen
| Unreadable
| Readable (contents : list Z).

Class Files := {
  getOpenFileName : option QString;
  IOFile_open : QString -> IOFile
}.

Section FromFile.

Context {files : Files}.

Definition OnSetValueFromFile (d : Debugger) : Debugger :=
  if negb (core_IsRunning d) then d
  else
    let target_addr := GetTargetAddress (widget d) in
    if negb (is_good_address target_addr)
    then critical (Qt.tr "Error") (Qt.tr "Bad address provided.") d
    else if negb (is_good_offset target_addr)
    then critical (Qt.tr "Error") (Qt.tr "Bad offset provided.") d
    else
      match getOpenFileName with
      | None => d
      | Some path =>
          match IOFile_open path with
          | NotOpen => critical (Qt.tr "Error") (Qt.tr "Unable to open file.") d
          | Unreadable => critical (Qt.tr "Error") (Qt.tr "Unable to read file.") d
          | Readable file_contents =>
              Update (write_bytes (address target_addr) file_contents d)
          end
      end.

End FromFile.

(** *** [MemoryWidget::OnFindNextValue] and [MemoryWidget::OnFindPreviousValue] *)

Section FindButtons.

Context {accessors : Accessors}.

Definition OnFindNextValue (w : MemoryWidget) : MemoryWidget := FindValue true w.
Definition OnFindPreviousValue (w : MemoryWidget) : MemoryWidget := FindValue false w.

End FindButtons.

(** ** Notions for stating the properties of the handlers *)

(** The number a byte sequence denotes, most significant byte first. *)
Definition bytes_to_Z (b : QByteArray) : Z :=
  fold_left (fun a x => a * 256 + x) b 0.

(** The smallest value of an integer input type. *)
Definition input_min (combo_id : InputID) : Z :=
  match combo_id with
  | S8 => Int.s8_min
  | S16 => Int.s16_min
  | S32 => Int.s32_min
  | _ => 0
  end.

(** The conversion each integer case of the switch calls. *)
Definition convert (combo_id : InputID) (text : QString) (radix : Z) : Z * bool :=
  match combo_id with
  | S8 | S16 => Qt.toShort text radix
  | S32 => Qt.toInt text radix
  | U8 | U16 => Qt.toUShort text radix
  | U32 => Qt.toUInt text radix
  | _ => (0, false)
  end.

(** The addresses and bytes [write_bytes] is to produce, first write
    first: byte [i] at [address + i], wrapped to 32 bits. *)
Fixpoint layout (address : Z) (bytes : QByteArray) : list (Z * Z) :=
  match bytes with
  | [] => []
  | c :: rest => (address, Int.to_u8 c) :: layout (Int.to_u32 (address + 1)) rest
  end.

(** A debugger around a widget: the core running, nothing written or shown
    yet. *)
Definition running (w : MemoryWidget) : Debugger :=
  {| widget := w; core_IsRunning := true;
     search_address_style := {| font_bold := false; text_red := false |};
     search_offset_style := {| font_bold := false; text_red := false |};
     written := []; message_boxes := []; update_calls := 0 |}.

(** The accessor returns addresses of 32 bits. *)
Definition returns_u32 {accessors : Accessors} : Prop :=
  forall start pattern size forward found,
    Search start pattern size forward = Some found -> 0 <= found <= Int.u32_max.

(** A floating-point collaborator that knows the two literals [1.5] (as a
    float) and [-2] (as a double) by their bit patterns, for evaluating the
    two floating-point cases on concrete input. *)
Definition two_literals : FloatingPoint :=
  {| float := Z; double := Z;
     toFloat := fun t => if bytes_eqb t (QStringLiteral "1.5")
                         then (1069547520, true) else (0, false);
     toDouble := fun t => if bytes_eqb t (QStringLiteral "-2")
                          then (13835058055282163712, true) else (0, false);
     BitCast_u32 := fun f => f;
     BitCast_u64 := fun f => f |}.

(** A region of four bytes at address 0 with [AA] at addresses 0 and 2. *)
Definition region_two_matches : MemoryRegion :=
  {| region_begin := 0; region_bytes := [170; 0; 170; 0] |}.

(** The addresses [address], [address + 1], ... of [n] consecutive bytes,
    each wrapped to 32 bits. *)
Definition consecutive (address : Z) (n : nat) : list Z :=
  map (fun i => Int.to_u32 (address + Z.of_nat i)) (seq 0 n).

(** A dialog that returns one path, and the file behind it. *)
Definition one_file (path : QString) (f : IOFile) : Files :=
  {| getOpenFileName := Some path; IOFile_open := fun _ => f |}.

(** A cancelled dialog. *)
Definition no_file : Files :=
  {| getOpenFileName := None; IOFile_open := fun _ => NotOpen |}.


(** The digits a conversion reads after white space and sign: what
    [Qt.strtoll] and [Qt.strtoull] hand to [Qt.magnitude]. *)
Definition unsigned_text (s : QString) : QString :=
  match Qt.trimmed s with
  | c :: r => if (c =? 45) || (c =? 43) then r else c :: r
  | [] => []
  end.

(** *** [MemoryWidget::ValidateAndPreviewInputValue], with the edit box's
    font and palette *)

Definition plain_style : LineEditStyle := {| font_bold := false; text_red := false |}.
Definition alert_style : LineEditStyle := {| font_bold := true; text_red := true |}.

Section ValidateStyle.

Context {FP : FloatingPoint}.

(** The whole function, with the two writes the widget record has no field
    for: [m_data_edit->setFont(font)] and [m_data_edit->setPalette(palette)]
    at its end.  [font] and [palette] start as a fresh [QFont] and [QPalette]
    and are made bold and red in the [else] of [if (good)]; the early return
    for an empty text comes before the two writes. *)
Definition ValidateAndPreviewInputValue_with_style
  (w : MemoryWidget) (data_edit_style : LineEditStyle) : MemoryWidget * LineEditStyle :=
  let w := set_data_preview [] w in
  let input_text := m_data_edit w in
  let combo_id := m_input_combo w in
  let w := set_base_check_enabled (is_integer_input combo_id) w in
  if Qt.isEmpty input_text then (w, data_edit_style)
  else
    let input_text := stripped_input w in
    let radix :=
      if m_base_check_isChecked w && m_base_check_isEnabled w then 16 else 0 in
    let '(good, hex_string) := switch_combo_id combo_id radix input_text in
    if good
    then (set_data_preview (preview_text hex_string) w, plain_style)
    else (w, alert_style).

End ValidateStyle.


(** The ASCII input type with a high surrogate without its partner
    (U+D800). *)
Definition lone_surrogate : MemoryWidget :=
  set_data_edit [55296] (widget_with "" "" "" false ASCII).
(** * Properties *)

(** ** Number parsing: what the [ok] flag guarantees *)

Lemma checked_ok (lo hi : Z) (r : option Z) (v : Z) :
  Qt.checked lo hi r = (v, true) -> r = Some v /\ lo <= v <= hi.
Proof.
  unfold Qt.checked. destruct r as [x|]; [|discriminate].
  destruct ((lo <=? x) && (x <=? hi)) eqn:E; [|discriminate].
  intros H. injection H as ->. apply andb_true_iff in E. split; [reflexivity|lia].
Qed.

Lemma checked_failed (lo hi : Z) (r : option Z) (v : Z) :
  Qt.checked lo hi r = (v, false) -> v = 0.
Proof.
  unfold Qt.checked. destruct r as [x|].
  - destruct ((lo <=? x) && (x <=? hi)); intros H; inversion H; reflexivity.
  - intros H; inversion H; reflexivity.
Qed.

Lemma toUInt_range (s : QString) (base v : Z) (ok : bool) :
  Qt.toUInt s base = (v, ok) -> 0 <= v <= Int.u32_max.
Proof.
  unfold Qt.toUInt. destruct ok; intros H.
  - apply checked_ok in H. tauto.
  - apply checked_failed in H. subst v. unfold Int.u32_max. lia.
Qed.

Lemma toInt_range (s : QString) (base v : Z) (ok : bool) :
  Qt.toInt s base = (v, ok) -> Int.s32_min <= v <= Int.s32_max.
Proof.
  unfold Qt.toInt. destruct ok; intros H.
  - apply checked_ok in H. tauto.
  - apply checked_failed in H. subst v. unfold Int.s32_min, Int.s32_max. lia.
Qed.

Lemma toInt_empty (base : Z) : Qt.toInt [] base = (0, false).
Proof. reflexivity. Qed.

Lemma toUInt_empty (base : Z) : Qt.toUInt [] base = (0, false).
Proof. reflexivity. Qed.

(** ** [GetTargetAddress] *)

(** The two flags, in terms of the parsed numbers: the offset is good when
    its text is good and the exact sum is a 32-bit address. *)
Lemma GetTargetAddress_flags (w : MemoryWidget) (a o : Z) (ok_a ok_o : bool) :
  Qt.toUInt (m_search_address w) 16 = (a, ok_a) ->
  Qt.toInt (m_search_offset w) 16 = (o, ok_o) ->
  is_good_address (GetTargetAddress w) = ok_a || Qt.isEmpty (m_search_address w)
  /\ is_good_offset (GetTargetAddress w)
     = (ok_o || Qt.isEmpty (m_search_offset w))
       && ((0 <=? a + o) && (a + o <=? Int.u32_max)).
Proof.
  intros Ha Ho.
  pose proof (toUInt_range _ _ _ _ Ha) as Ra.
  pose proof (toInt_range _ _ _ _ Ho) as Ro.
  unfold GetTargetAddress. rewrite Ha, Ho.
  set (ga := ok_a || Qt.isEmpty (m_search_address w)).
  set (go := ok_o || Qt.isEmpty (m_search_offset w)).
  assert (E : (0 <=? o) || ((if negb (o =? Int.s32_min)
                              then Int.to_u32 (- o)
                              else Int.to_u32 (Int.to_u32 Int.s32_max + 1)) <=? a)
              = (0 <=? a + o)).
  { unfold_int. destruct (o =? -2147483648) eqn:Em; cbn [negb].
    - apply Z.eqb_eq in Em. subst o.
      change ((2147483647 mod 2 ^ 32 + 1) mod 2 ^ 32) with 2147483648.
      destruct (0 <=? -2147483648) eqn:E0; [lia|]. cbn [orb].
      apply eq_true_iff_eq. rewrite !Z.leb_le. lia.
    - apply Z.eqb_neq in Em.
      destruct (0 <=? o) eqn:E0; cbn [orb].
      + symmetry. apply Z.leb_le. apply Z.leb_le in E0. lia.
      + apply Z.leb_gt in E0.
        rewrite (Z.mod_small (- o)) by lia.
        apply eq_true_iff_eq. rewrite !Z.leb_le. lia. }
  assert (F : (o <=? 0) || (a <=? Int.to_u32 (Int.u32_max - Int.to_u32 o))
              = (a + o <=? Int.u32_max)).
  { unfold_int. destruct (o <=? 0) eqn:E0; cbn [orb].
    - symmetry. apply Z.leb_le. apply Z.leb_le in E0. lia.
    - apply Z.leb_gt in E0.
      rewrite (Z.mod_small o) by lia.
      rewrite (Z.mod_small (4294967295 - o)) by lia.
      apply eq_true_iff_eq. rewrite !Z.leb_le. lia. }
  rewrite E, F.
  destruct ga, go, (0 <=? a + o), (a + o <=? Int.u32_max), (o <? 0);
    cbn; split; reflexivity.
Qed.

(** The address of a good target is the exact sum. *)
Lemma GetTargetAddress_address (w : MemoryWidget) (a o : Z) (ok_a ok_o : bool) :
  Qt.toUInt (m_search_address w) 16 = (a, ok_a) ->
  Qt.toInt (m_search_offset w) 16 = (o, ok_o) ->
  is_good_address (GetTargetAddress w) = true ->
  is_good_offset (GetTargetAddress w) = true ->
  address (GetTargetAddress w) = a + o.
Proof.
  intros Ha Ho Ga Go.
  destruct (GetTargetAddress_flags w a o ok_a ok_o Ha Ho) as [Fa Fo].
  rewrite Fa in Ga. rewrite Fo in Go.
  apply andb_true_iff in Go. destruct Go as [Go Gs].
  apply andb_true_iff in Gs. destruct Gs as [G0 G1].
  apply Z.leb_le in G0, G1.
  pose proof (toUInt_range _ _ _ _ Ha) as Ra.
  pose proof (toInt_range _ _ _ _ Ho) as Ro.
  unfold GetTargetAddress. rewrite Ha, Ho.
  rewrite Ga, Go. cbn [andb negb orb].
  assert (E0 : (0 <=? o) || ((if negb (o =? Int.s32_min)
                               then Int.to_u32 (- o)
                               else Int.to_u32 (Int.to_u32 Int.s32_max + 1)) <=? a)
               = true).
  { unfold_int. destruct (o =? -2147483648) eqn:Em; cbn [negb].
    - apply Z.eqb_eq in Em. subst o.
      change ((2147483647 mod 2 ^ 32 + 1) mod 2 ^ 32) with 2147483648.
      apply orb_true_iff. right. apply Z.leb_le. lia.
    - apply Z.eqb_neq in Em. apply orb_true_iff.
      destruct (Z_le_gt_dec 0 o); [left; apply Z.leb_le; lia|right].
      rewrite (Z.mod_small (- o)) by lia. apply Z.leb_le. lia. }
  assert (E1 : (o <=? 0) || (a <=? Int.to_u32 (Int.u32_max - Int.to_u32 o)) = true).
  { unfold_int. apply orb_true_iff.
    destruct (Z_le_gt_dec o 0); [left; apply Z.leb_le; lia|right].
    rewrite (Z.mod_small o) by lia.
    rewrite (Z.mod_small (4294967295 - o)) by lia. apply Z.leb_le. lia. }
  rewrite E0, E1. cbn [andb negb orb].
  destruct (o <? 0) eqn:En; cbn [address].
  - apply Z.ltb_lt in En. unfold_int.
    destruct (o =? -2147483648) eqn:Em; cbn [negb].
    + apply Z.eqb_eq in Em. subst o.
      change ((2147483647 mod 2 ^ 32 + 1) mod 2 ^ 32) with 2147483648.
      rewrite Z.mod_small by lia. lia.
    + apply Z.eqb_neq in Em.
      rewrite (Z.mod_small (- o)) by lia. rewrite Z.mod_small by lia. lia.
  - apply Z.ltb_ge in En. unfold_int.
    rewrite (Z.mod_small o) by lia. rewrite Z.mod_small by lia. lia.
Qed.

(** C1: when the address text parses as unsigned 32-bit hexadecimal to [a]
    and the offset text as signed 32-bit hexadecimal to [o], then
    [GetTargetAddress] returns the exact sum [a + o] with both flags true
    if the sum lies in [0, 2^32), and reports [is_good_offset] false if the
    sum is negative or above [2^32 - 1]. *)
Theorem GetTargetAddress_exact_sum (w : MemoryWidget) (a o : Z) :
  Qt.toUInt (m_search_address w) 16 = (a, true) ->
  Qt.toInt (m_search_offset w) 16 = (o, true) ->
  (0 <= a + o < 2 ^ 32 ->
   GetTargetAddress w
   = {| address := a + o; is_good_address := true; is_good_offset := true |})
  /\ (a + o < 0 \/ 2 ^ 32 - 1 < a + o ->
      is_good_offset (GetTargetAddress w) = false).
Proof.
  intros Ha Ho.
  destruct (GetTargetAddress_flags w a o true true Ha Ho) as [Fa Fo].
  cbn [orb andb] in Fa, Fo. split.
  - intros Hs.
    assert (Go : is_good_offset (GetTargetAddress w) = true).
    { rewrite Fo. apply andb_true_iff. unfold Int.u32_max.
      split; apply Z.leb_le; lia. }
    pose proof (GetTargetAddress_address w a o true true Ha Ho Fa Go) as Hadd.
    destruct (GetTargetAddress w) as [x ga go].
    cbn [address is_good_address is_good_offset] in *. congruence.
  - intros Hs. rewrite Fo. apply andb_false_iff. unfold Int.u32_max.
    destruct Hs; [left; apply Z.leb_gt|right; apply Z.leb_gt]; lia.
Qed.

Lemma GetTargetAddress_exact_sum_witness :
  GetTargetAddress (widget_with "80000010" "-20" "" false U8)
  = {| address := 2147483664 + -32; is_good_address := true; is_good_offset := true |}
  /\ is_good_offset (GetTargetAddress (widget_with "10" "-20" "" false U8)) = false
  /\ is_good_offset (GetTargetAddress (widget_with "FFFFFFFF" "1" "" false U8)) = false.
Proof.
  pose proof (GetTargetAddress_exact_sum
                (widget_with "80000010" "-20" "" false U8) 2147483664 (-32)
                eq_refl eq_refl) as [H1 _].
  pose proof (GetTargetAddress_exact_sum
                (widget_with "10" "-20" "" false U8) 16 (-32)
                eq_refl eq_refl) as [_ H2].
  pose proof (GetTargetAddress_exact_sum
                (widget_with "FFFFFFFF" "1" "" false U8) 4294967295 1
                eq_refl eq_refl) as [_ H3].
  split; [apply H1; lia|split; [apply H2; lia|apply H3; lia]].
Defined.

(** C2: when the offset text parses to the minimum signed 32-bit value, its
    magnitude counts as 2^31: [is_good_offset] is false exactly when the
    parsed base address is below 2^31, and when the base address is at
    least 2^31 both flags are true and the address is the base minus
    2^31. *)
Theorem GetTargetAddress_min_offset (w : MemoryWidget) (a : Z) (ok_a : bool) :
  Qt.toUInt (m_search_address w) 16 = (a, ok_a) ->
  Qt.toInt (m_search_offset w) 16 = (Int.s32_min, true) ->
  (is_good_offset (GetTargetAddress w) = false <-> a < 2 ^ 31)
  /\ (2 ^ 31 <= a ->
      GetTargetAddress w
      = {| address := a - 2 ^ 31; is_good_address := true; is_good_offset := true |}).
Proof.
  intros Ha Ho.
  pose proof (toUInt_range _ _ _ _ Ha) as Ra.
  destruct (GetTargetAddress_flags w a Int.s32_min ok_a true Ha Ho) as [Fa Fo].
  assert (Hmin : Int.s32_min = - 2 ^ 31) by reflexivity.
  assert (Hmax : Int.u32_max = 2 ^ 32 - 1) by reflexivity.
  assert (Hg : is_good_offset (GetTargetAddress w) = (2 ^ 31 <=? a)).
  { rewrite Fo. rewrite orb_true_l, andb_true_l.
    apply eq_true_iff_eq. rewrite andb_true_iff, !Z.leb_le. lia. }
  split.
  - rewrite Hg. rewrite Z.leb_gt. reflexivity.
  - intros Hge.
    assert (Hok : ok_a = true).
    { destruct ok_a; [reflexivity|]. unfold Qt.toUInt in Ha.
      apply checked_failed in Ha. lia. }
    subst ok_a. rewrite orb_true_l in Fa.
    assert (Go : is_good_offset (GetTargetAddress w) = true)
      by (rewrite Hg; apply Z.leb_le; lia).
    pose proof (GetTargetAddress_address w a Int.s32_min true true Ha Ho Fa Go) as Hadd.
    destruct (GetTargetAddress w) as [x ga go].
    cbn [address is_good_address is_good_offset] in Fa, Go, Hadd.
    rewrite Fa, Go, Hadd, Hmin. f_equal.
Qed.

Lemma GetTargetAddress_min_offset_witness :
  (is_good_offset (GetTargetAddress (widget_with "7FFFFFFF" "-80000000" "" false U8)) = false
   <-> 2147483647 < 2 ^ 31)
  /\ (2 ^ 31 <= 2147483649 ->
      GetTargetAddress (widget_with "80000001" "-80000000" "" false U8)
      = {| address := 2147483649 - 2 ^ 31;
           is_good_address := true; is_good_offset := true |}).
Proof.
  pose proof (GetTargetAddress_min_offset
                (widget_with "7FFFFFFF" "-80000000" "" false U8) 2147483647 true
                eq_refl eq_refl) as [H1 _].
  pose proof (GetTargetAddress_min_offset
                (widget_with "80000001" "-80000000" "" false U8) 2147483649 true
                eq_refl eq_refl) as [_ H2].
  split; [exact H1|exact H2].
Defined.

(** ** [ValidateAndPreviewInputValue] and [GetInputData]: failure *)

Section ValidateProperties.

Context {FP : FloatingPoint}.

Lemma ValidateAndPreviewInputValue_eq (w : MemoryWidget) :
  ValidateAndPreviewInputValue w
  = if Qt.isEmpty (m_data_edit w) then cleared w
    else if fst (validation w)
         then set_data_preview (preview_text (snd (validation w))) (cleared w)
         else cleared w.
Proof.
  unfold ValidateAndPreviewInputValue, validation, cleared, radix_for, stripped_input.
  cbn [m_data_edit m_input_combo m_base_check_isChecked m_base_check_isEnabled
       set_data_preview set_base_check_enabled].
  destruct (Qt.isEmpty (m_data_edit w)); [reflexivity|].
  destruct (switch_combo_id _ _ _) as [good hex_string].
  cbn [fst snd]. destruct good; reflexivity.
Qed.

Lemma GetInputData_no_preview (w : MemoryWidget) :
  m_data_preview w = [] -> GetInputData w = [].
Proof. intros H. unfold GetInputData. rewrite H. reflexivity. Qed.

(** C8: for every input text and every encoding, when the parse or the
    range check of the encoding fails ([good] is false after the switch),
    the preview is left empty and [GetInputData] returns the empty byte
    sequence. *)
Theorem failed_validation_is_absent (w : MemoryWidget) :
  fst (validation w) = false ->
  m_data_preview (ValidateAndPreviewInputValue w) = []
  /\ GetInputData (ValidateAndPreviewInputValue w) = [].
Proof.
  intros Hbad.
  assert (H : m_data_preview (ValidateAndPreviewInputValue w) = []).
  { rewrite ValidateAndPreviewInputValue_eq, Hbad.
    destruct (Qt.isEmpty (m_data_edit w)); reflexivity. }
  split; [exact H|apply GetInputData_no_preview, H].
Qed.

End ValidateProperties.

(** ** [FindValue]: the error outcomes *)

Section FindProperties.

Context {accessors : Accessors}.

(** C7: a bad address, a bad offset (or an overflow or underflow) and an
    empty value are each rejected without a call of the region search, with
    three different messages, none of them the message for no match; and
    the message for no match is shown only after the region search was
    called and found nothing. *)
Theorem FindValue_error_outcomes (next : bool) (w : MemoryWidget) :
  let target_addr := GetTargetAddress w in
  let w' := FindValue next w in
  (is_good_address target_addr = false ->
   m_result_label w' = Qt.tr "Bad address provided."
   /\ search_calls w' = search_calls w)
  /\ (is_good_address target_addr = true ->
      is_good_offset target_addr = false ->
      m_result_label w' = Qt.tr "Bad offset provided."
      /\ search_calls w' = search_calls w)
  /\ (is_good_address target_addr = true ->
      is_good_offset target_addr = true ->
      GetInputData w = [] ->
      m_result_label w' = Qt.tr "Bad Value Given"
      /\ search_calls w' = search_calls w)
  /\ (m_result_label w' = Qt.tr "No Match" ->
      is_good_address target_addr = true
      /\ is_good_offset target_addr = true
      /\ GetInputData w <> []
      /\ search_calls w' = search_call next w :: search_calls w
      /\ Search (search_start next w) (GetInputData w)
           (Int.to_u32 (Qt.length (GetInputData w))) next = None)
  /\ Qt.tr "Bad address provided." <> Qt.tr "Bad offset provided."
  /\ Qt.tr "Bad address provided." <> Qt.tr "Bad Value Given"
  /\ Qt.tr "Bad offset provided." <> Qt.tr "Bad Value Given"
  /\ Qt.tr "Bad address provided." <> Qt.tr "No Match"
  /\ Qt.tr "Bad offset provided." <> Qt.tr "No Match"
  /\ Qt.tr "Bad Value Given" <> Qt.tr "No Match".
Proof.
  cbv zeta. unfold FindValue, search_call, search_start.
  destruct (is_good_address (GetTargetAddress w)) eqn:Ga; cbn [negb].
  2: { repeat split; try discriminate; try reflexivity. }
  destruct (is_good_offset (GetTargetAddress w)) eqn:Go; cbn [negb].
  2: { repeat split; try discriminate; try reflexivity. }
  destruct (GetInputData w) as [|b bs] eqn:Gd; cbn [Qt.isEmpty].
  { repeat split; try discriminate; try reflexivity. }
  destruct (Search _ _ _ _) as [found|] eqn:Sr.
  - repeat split; try discriminate; try reflexivity.
    all: cbn; intros H; discriminate H.
  - repeat split; try discriminate; try reflexivity.
Qed.

End FindProperties.

Lemma FindValue_error_outcomes_witness :
  let acc := region_accessors region_at_zero in
  (m_result_label (@FindValue acc true (widget_with "xyz" "" "" false U8))
   = Qt.tr "Bad address provided."
   /\ search_calls (@FindValue acc true (widget_with "xyz" "" "" false U8)) = [])
  /\ (m_result_label (@FindValue acc true (widget_with "10" "-20" "" false U8))
      = Qt.tr "Bad offset provided."
      /\ search_calls (@FindValue acc true (widget_with "10" "-20" "" false U8)) = [])
  /\ (m_result_label (@FindValue acc true (widget_with "10" "" "" false U8))
      = Qt.tr "Bad Value Given"
      /\ search_calls (@FindValue acc true (widget_with "10" "" "" false U8)) = []).
Proof.
  pose proof (@FindValue_error_outcomes (region_accessors region_at_zero) true
                (widget_with "xyz" "" "" false U8)) as (H1 & _).
  pose proof (@FindValue_error_outcomes (region_accessors region_at_zero) true
                (widget_with "10" "-20" "" false U8)) as (_ & H2 & _).
  pose proof (@FindValue_error_outcomes (region_accessors region_at_zero) true
                (widget_with "10" "" "" false U8)) as (_ & _ & H3 & _).
  split; [exact (H1 eq_refl)|split; [exact (H2 eq_refl eq_refl)|]].
  exact (H3 eq_refl eq_refl eq_refl).
Defined.

Lemma failed_validation_is_absent_witness :
  fst (@validation integers_only (widget_with "" "" "999" false S8)) = false
  /\ m_data_preview
       (@ValidateAndPreviewInputValue integers_only (widget_with "" "" "999" false S8)) = []
  /\ GetInputData
       (@ValidateAndPreviewInputValue integers_only (widget_with "" "" "999" false S8)) = [].
Proof.
  split; [reflexivity|].
  exact (@failed_validation_is_absent integers_only
           (widget_with "" "" "999" false S8) eq_refl).
Defined.

(** ** [FindValue]: the start position *)

Lemma GetTargetAddress_address_range (w : MemoryWidget) :
  0 <= address (GetTargetAddress w) <= Int.u32_max.
Proof.
  unfold GetTargetAddress.
  destruct (Qt.toUInt _ _) as [addr ga]. destruct (Qt.toInt _ _) as [offset go].
  assert (R : forall z, 0 <= Int.to_u32 z <= Int.u32_max).
  { intros z. unfold Int.to_u32, Int.wrap, Int.u32_max.
    pose proof (Z.mod_pos_bound z (2 ^ 32)). lia. }
  repeat match goal with
         | |- context [if ?b then _ else _] => destruct b
         end; cbn [address]; try apply R; unfold Int.u32_max; lia.
Qed.

Section FindStart.

Context {accessors : Accessors}.

(** Away from the two ends of the 32-bit range the adjustment of the start
    keeps a directional search off the quoted address. *)
Lemma search_skips_quoted_address (next : bool) (w : MemoryWidget) (found : Z) :
  directional ->
  Qt.isEmpty (m_search_address w) = false ->
  (if next then address (GetTargetAddress w) < Int.u32_max
   else 0 < address (GetTargetAddress w)) ->
  Search (search_start next w) (GetInputData w)
    (Int.to_u32 (Qt.length (GetInputData w))) next = Some found ->
  found <> address (GetTargetAddress w).
Proof.
  intros Hdir Hne Hedge Hs.
  pose proof (GetTargetAddress_address_range w) as R.
  apply Hdir in Hs. unfold search_start in Hs. rewrite Hne in Hs.
  cbn [negb] in Hs. unfold Int.to_u32, Int.wrap, Int.u32_max in *.
  destruct next.
  - rewrite Z.mod_small in Hs by lia. lia.
  - rewrite Z.mod_small in Hs by lia. lia.
Qed.

Lemma search_start_fresh (next : bool) (w : MemoryWidget) :
  Qt.isEmpty (m_search_address w) = true ->
  search_start next w = address (GetTargetAddress w).
Proof. intros H. unfold search_start. rewrite H. reflexivity. Qed.

End FindStart.

(** The region search keeps the promise about direction. *)
Lemma scan_forward_from (r : MemoryRegion) (pattern : QByteArray) (count : nat) :
  forall off found,
    scan_forward r pattern off count = Some found ->
    region_begin r + Z.of_nat off <= found.
Proof.
  induction count as [|count IH]; intros off found H; [discriminate H|].
  cbn [scan_forward] in H. destruct (matches_at r pattern off).
  - injection H as <-. lia.
  - apply IH in H. lia.
Qed.

Lemma scan_backward_from (r : MemoryRegion) (pattern : QByteArray) (off : nat) :
  forall found,
    scan_backward r pattern off = Some found ->
    found <= region_begin r + Z.of_nat off.
Proof.
  induction off as [|off IH]; intros found H; cbn [scan_backward] in H.
  - destruct (matches_at r pattern 0); [injection H as <-; lia|discriminate H].
  - destruct (matches_at r pattern (S off)); [injection H as <-; lia|].
    apply IH in H. lia.
Qed.

Lemma region_Search_directional (r : MemoryRegion) :
  @directional (region_accessors r).
Proof.
  unfold directional. cbn [Search region_accessors]. unfold region_Search.
  intros start pattern size forward found.
  destruct (_ <? _)%nat; [intros H; discriminate H|].
  destruct forward.
  - intros H. apply scan_forward_from in H. lia.
  - destruct (Z.ltb_spec (start - region_begin r) 0) as [Hneg|Hpos];
      [intros H; discriminate H|].
    intros H. apply scan_backward_from in H. lia.
Qed.

(** ** Hexadecimal digits: printing and reading back *)

Lemma digit16_cases (d : Z) :
  digit16 d ->
  In d [0; 1; 2; 3; 4; 5; 6; 7; 8; 9; 10; 11; 12; 13; 14; 15].
Proof.
  unfold digit16. intros H. cbn [In].
  assert (d = 0 \/ d = 1 \/ d = 2 \/ d = 3 \/ d = 4 \/ d = 5 \/ d = 6 \/ d = 7
          \/ d = 8 \/ d = 9 \/ d = 10 \/ d = 11 \/ d = 12 \/ d = 13 \/ d = 14
          \/ d = 15) by lia.
  intuition.
Qed.

Lemma spells_hex_char (c : QChar) (d : Z) : spells c d -> hex_char c d.
Proof.
  intros [Hd Hc]. apply digit16_cases in Hd. cbn [In] in Hd.
  repeat (destruct Hd as [<-|Hd]; [destruct Hc as [->| ->]; split; reflexivity|]).
  contradiction.
Qed.

Lemma hex_digits_spec (fuel : nat) :
  forall v acc,
    0 <= v < 16 ^ Z.of_nat fuel ->
    exists ds,
      Qt.hex_digits fuel v acc = ds ++ acc
      /\ Forall digit16 ds
      /\ digits_to_Z 0 ds = v
      /\ (forall k, (1 <= k)%nat -> v < 16 ^ Z.of_nat k -> (List.length ds <= k)%nat).
Proof.
  induction fuel as [|fuel IH]; intros v acc Hv.
  - exists []. cbn in *. repeat split; try constructor; intros; lia.
  - cbn [Qt.hex_digits].
    assert (Hd : digit16 (v mod 16))
      by (unfold digit16; pose proof (Z.mod_pos_bound v 16); lia).
    destruct (v / 16 =? 0) eqn:E.
    + apply Z.eqb_eq in E. exists [v mod 16].
      assert (v mod 16 = v) by (pose proof (Z.div_mod v 16); lia).
      repeat split; try (constructor; [assumption|constructor]).
      * cbn. lia.
      * intros k Hk _. cbn. lia.
    + apply Z.eqb_neq in E.
      assert (Hq : 0 <= v / 16 < 16 ^ Z.of_nat fuel).
      { rewrite Nat2Z.inj_succ, Z.pow_succ_r in Hv by lia.
        split; [apply Z.div_pos; lia|apply Z.div_lt_upper_bound; lia]. }
      destruct (IH (v / 16) (v mod 16 :: acc) Hq) as (ds & E1 & F & V & L).
      exists (ds ++ [v mod 16]). repeat split.
      * rewrite E1, <- app_assoc. reflexivity.
      * apply Forall_app. split; [assumption|constructor; [assumption|constructor]].
      * unfold digits_to_Z in *. rewrite fold_left_app. cbn. rewrite V.
        pose proof (Z.div_mod v 16). lia.
      * intros k Hk Hlt. rewrite length_app. cbn.
        destruct k as [|[|k]]; [lia| |].
        -- exfalso. change (16 ^ Z.of_nat 1) with 16 in Hlt.
           apply E. apply Z.div_small. lia.
        -- assert (List.length ds <= S k)%nat; [|lia].
           apply L; [lia|].
           rewrite (Nat2Z.inj_succ (S k)), Z.pow_succ_r in Hlt by lia.
           apply Z.div_lt_upper_bound; lia.
Qed.

Lemma digits_to_Z_zeros (n : nat) (ds : list Z) :
  digits_to_Z 0 (repeat 0 n ++ ds) = digits_to_Z 0 ds.
Proof.
  unfold digits_to_Z. rewrite fold_left_app. f_equal.
  induction n as [|n IH]; [reflexivity|exact IH].
Qed.

(** A value below [16 ^ width] prints as exactly [width] digits that denote
    it, whichever case the digits are spelled in. *)
Lemma padded_digits (width : nat) (v : Z) (hex : Z -> QChar) :
  hex 0 = 48 ->
  (1 <= width <= 16)%nat ->
  0 <= v < 16 ^ Z.of_nat width ->
  exists ds,
    Qt.pad_left width 48 (map hex (Qt.to_hex_digits v)) = map hex ds
    /\ List.length ds = width
    /\ Forall digit16 ds
    /\ digits_to_Z 0 ds = v.
Proof.
  intros H0 Hw Hv. unfold Qt.to_hex_digits.
  assert (Hfuel : 0 <= v < 16 ^ Z.of_nat 16).
  { split; [lia|]. apply Z.lt_le_trans with (16 ^ Z.of_nat width); [lia|].
    apply Z.pow_le_mono_r; lia. }
  destruct (hex_digits_spec 16 v [] Hfuel) as (ds & E & F & V & L).
  rewrite app_nil_r in E. rewrite E.
  assert (Hl : (List.length ds <= width)%nat) by (apply L; lia).
  exists (repeat 0 (width - List.length ds) ++ ds). repeat split.
  - unfold Qt.pad_left. rewrite length_map, map_app, map_repeat, H0. reflexivity.
  - rewrite length_app, repeat_length. lia.
  - apply Forall_app. split; [|assumption].
    apply Forall_forall. intros x Hx. apply repeat_spec in Hx. subst x.
    unfold digit16. lia.
  - rewrite digits_to_Z_zeros. exact V.
Qed.

(** ** Reading hexadecimal text back *)

Lemma hex_text_lower (ds : list Z) :
  Forall digit16 ds -> hex_text (map Qt.hex_lower ds) ds.
Proof.
  induction 1 as [|d ds Hd _ IH]; constructor; [|exact IH].
  split; [exact Hd|left; reflexivity].
Qed.

Lemma hex_text_upper (ds : list Z) :
  Forall digit16 ds -> hex_text (map Qt.hex_upper ds) ds.
Proof.
  induction 1 as [|d ds Hd _ IH]; constructor; [|exact IH].
  split; [exact Hd|right; reflexivity].
Qed.

Lemma hex_text_no_space (cs : QString) (ds : list Z) :
  hex_text cs ds -> Forall (fun c => Qt.isSpace c = false) cs.
Proof.
  induction 1 as [|c d cs ds H _ IH]; constructor; [|exact IH].
  apply (hc_space c d), spells_hex_char, H.
Qed.

Lemma trim_left_no_space (s : QString) :
  Forall (fun c => Qt.isSpace c = false) s -> Qt.trim_left s = s.
Proof.
  intros H. destruct H as [|c s Hc _]; [reflexivity|].
  cbn [Qt.trim_left]. rewrite Hc. reflexivity.
Qed.

Lemma trimmed_no_space (s : QString) :
  Forall (fun c => Qt.isSpace c = false) s -> Qt.trimmed s = s.
Proof.
  intros H. unfold Qt.trimmed. rewrite (trim_left_no_space s H).
  rewrite trim_left_no_space by (apply Forall_rev, H).
  apply rev_involutive.
Qed.

Lemma digits_value_hex (cs : QString) (ds : list Z) :
  hex_text cs ds ->
  forall acc, Qt.digits_value 16 acc cs = Some (digits_to_Z acc ds).
Proof.
  induction 1 as [|c d cs ds H _ IH]; intros acc; [reflexivity|].
  apply spells_hex_char in H. cbn [Qt.digits_value].
  rewrite (hc_digit c d H), (hc_below c d H). apply IH.
Qed.

Lemma strip_prefix_hex (cs : QString) (ds : list Z) :
  hex_text cs ds -> Qt.strip_prefix 16 cs = (16, cs).
Proof.
  intros H. destruct H as [|c d cs ds _ H]; [reflexivity|].
  destruct H as [|x e cs ds Hx _]; [reflexivity|].
  apply spells_hex_char in Hx. unfold Qt.strip_prefix.
  rewrite (hc_x x e Hx), andb_false_r. reflexivity.
Qed.

Lemma magnitude_hex (cs : QString) (ds : list Z) :
  hex_text cs ds -> cs <> [] -> Qt.magnitude 16 cs = Some (digits_to_Z 0 ds).
Proof.
  intros H Hne. unfold Qt.magnitude. rewrite (strip_prefix_hex cs ds H).
  destruct cs as [|c cs]; [contradiction|]. cbn [Qt.isEmpty].
  apply digits_value_hex, H.
Qed.

Lemma strtoull_hex (cs : QString) (ds : list Z) :
  hex_text cs ds -> cs <> [] -> Qt.strtoull cs 16 = Some (digits_to_Z 0 ds).
Proof.
  intros H Hne. unfold Qt.strtoull.
  rewrite (trimmed_no_space cs (hex_text_no_space cs ds H)).
  pose proof (magnitude_hex cs ds H Hne) as M.
  destruct H as [|c d cs ds Hc H]; [contradiction|].
  apply spells_hex_char in Hc.
  rewrite (hc_minus c d Hc), (hc_plus c d Hc). exact M.
Qed.

Lemma strtoll_hex (cs : QString) (ds : list Z) :
  hex_text cs ds -> cs <> [] -> Qt.strtoll cs 16 = Some (digits_to_Z 0 ds).
Proof.
  intros H Hne. unfold Qt.strtoll.
  rewrite (trimmed_no_space cs (hex_text_no_space cs ds H)).
  pose proof (magnitude_hex cs ds H Hne) as M.
  destruct H as [|c d cs ds Hc H]; [contradiction|].
  apply spells_hex_char in Hc.
  rewrite (hc_minus c d Hc), (hc_plus c d Hc). exact M.
Qed.

Lemma checked_in_range (lo hi v : Z) :
  lo <= v <= hi -> Qt.checked lo hi (Some v) = (v, true).
Proof.
  intros H. unfold Qt.checked.
  replace ((lo <=? v) && (v <=? hi)) with true; [reflexivity|].
  symmetry. apply andb_true_iff. split; apply Z.leb_le; lia.
Qed.

(** Hexadecimal text of at least one digit, read in base 16 by each of the
    four conversions: the value it denotes when the target type holds it,
    a failure otherwise. *)
Lemma toUInt_hex (cs : QString) (ds : list Z) :
  hex_text cs ds -> cs <> [] ->
  Qt.toUInt cs 16 = Qt.checked 0 Int.u32_max (Some (digits_to_Z 0 ds)).
Proof. intros H N. unfold Qt.toUInt. rewrite (strtoull_hex cs ds H N). reflexivity. Qed.

Lemma toUShort_hex (cs : QString) (ds : list Z) :
  hex_text cs ds -> cs <> [] ->
  Qt.toUShort cs 16 = Qt.checked 0 Int.u16_max (Some (digits_to_Z 0 ds)).
Proof. intros H N. unfold Qt.toUShort. rewrite (strtoull_hex cs ds H N). reflexivity. Qed.

Lemma toInt_hex (cs : QString) (ds : list Z) :
  hex_text cs ds -> cs <> [] ->
  Qt.toInt cs 16 = Qt.checked Int.s32_min Int.s32_max (Some (digits_to_Z 0 ds)).
Proof. intros H N. unfold Qt.toInt. rewrite (strtoll_hex cs ds H N). reflexivity. Qed.

Lemma toShort_hex (cs : QString) (ds : list Z) :
  hex_text cs ds -> cs <> [] ->
  Qt.toShort cs 16 = Qt.checked Int.s16_min Int.s16_max (Some (digits_to_Z 0 ds)).
Proof. intros H N. unfold Qt.toShort. rewrite (strtoll_hex cs ds H N). reflexivity. Qed.

(** The address text [FindValue] writes reads back as the address. *)
Lemma arg_hex_reads_back (v : Z) :
  0 <= v <= Int.u32_max ->
  exists ds,
    Qt.arg_hex v 8 48 = map Qt.hex_lower ds
    /\ List.length ds = 8%nat
    /\ Forall digit16 ds
    /\ digits_to_Z 0 ds = v
    /\ Qt.toUInt (Qt.arg_hex v 8 48) 16 = (v, true).
Proof.
  intros Hv. unfold Qt.arg_hex.
  destruct (padded_digits 8 v Qt.hex_lower eq_refl) as (ds & E & L & F & V).
  { lia. }
  { unfold Int.u32_max in Hv. change (16 ^ Z.of_nat 8) with 4294967296. lia. }
  exists ds. repeat split; try assumption.
  rewrite E. rewrite (toUInt_hex _ ds (hex_text_lower ds F)).
  - rewrite V. apply checked_in_range. exact Hv.
  - destruct ds; [discriminate L|discriminate].
Qed.

(** ** [FindValue]: after a match *)

Lemma to_u32_range (z : Z) : 0 <= Int.to_u32 z <= Int.u32_max.
Proof.
  unfold Int.to_u32, Int.wrap, Int.u32_max.
  pose proof (Z.mod_pos_bound z (2 ^ 32)). lia.
Qed.

(** A target depends on the two search boxes only. *)
Lemma GetTargetAddress_of_texts (w : MemoryWidget) (v : Z) :
  0 <= v <= Int.u32_max ->
  Qt.toUInt (m_search_address w) 16 = (v, true) ->
  m_search_offset w = [] ->
  GetTargetAddress w
  = {| address := v; is_good_address := true; is_good_offset := true |}.
Proof.
  intros Hv Ha Ho.
  assert (Hoff : Qt.toInt (m_search_offset w) 16 = (0, false))
    by (rewrite Ho; reflexivity).
  destruct (GetTargetAddress_flags w v 0 true false Ha Hoff) as [Fa Fo].
  rewrite orb_true_l in Fa.
  assert (Go : is_good_offset (GetTargetAddress w) = true).
  { rewrite Fo, Ho. cbn [Qt.isEmpty orb andb].
    apply andb_true_iff. split; apply Z.leb_le; lia. }
  pose proof (GetTargetAddress_address w v 0 true false Ha Hoff Fa Go) as Hadd.
  destruct (GetTargetAddress w) as [x ga go].
  cbn [address is_good_address is_good_offset] in Fa, Go, Hadd.
  rewrite Fa, Go, Hadd, Z.add_0_r. reflexivity.
Qed.

Section FoundAddress.

Context {accessors : Accessors}.

(** The message for a match is shown on one path only. *)
Lemma FindValue_match_found (next : bool) (w : MemoryWidget) :
  m_result_label (FindValue next w) = Qt.tr "Match Found" ->
  exists r,
    Search (search_start next w) (GetInputData w)
      (Int.to_u32 (Qt.length (GetInputData w))) next = Some r
    /\ FindValue next w
       = memory_view_SetAddress (Int.to_u32 r)
           (set_search_offset []
              (set_search_address (Qt.arg_hex (Int.to_u32 r) 8 48)
                 (set_result_label (Qt.tr "Match Found")
                    (record_search (search_call next w) w)))).
Proof.
  unfold FindValue, search_call, search_start.
  destruct (is_good_address (GetTargetAddress w)); cbn [negb];
    [|intros H; discriminate H].
  destruct (is_good_offset (GetTargetAddress w)); cbn [negb];
    [|intros H; discriminate H].
  destruct (Qt.isEmpty (GetInputData w)); [intros H; discriminate H|].
  destruct (Search _ _ _ _) as [r|]; [|intros H; discriminate H].
  intros _. exists r. split; reflexivity.
Qed.

(** C9: after every successful find the address box holds the found
    address as exactly eight zero-padded lowercase hexadecimal digits and
    the offset box is empty, so that [GetTargetAddress] on the new state
    returns exactly the found address with both flags true. *)
Theorem FindValue_found_address_resolves (next : bool) (w : MemoryWidget) :
  m_result_label (FindValue next w) = Qt.tr "Match Found" ->
  exists r ds,
    Search (search_start next w) (GetInputData w)
      (Int.to_u32 (Qt.length (GetInputData w))) next = Some r
    /\ m_search_address (FindValue next w) = map Qt.hex_lower ds
    /\ List.length ds = 8%nat
    /\ Forall digit16 ds
    /\ digits_to_Z 0 ds = Int.to_u32 r
    /\ m_search_offset (FindValue next w) = []
    /\ m_memory_view_address (FindValue next w) = Int.to_u32 r
    /\ GetTargetAddress (FindValue next w)
       = {| address := Int.to_u32 r;
            is_good_address := true; is_good_offset := true |}.
Proof.
  intros Hm. destruct (FindValue_match_found next w Hm) as (r & Hs & E).
  destruct (arg_hex_reads_back (Int.to_u32 r) (to_u32_range r))
    as (ds & Ed & L & F & V & P).
  exists r, ds. rewrite E.
  cbn [m_search_address m_search_offset m_memory_view_address
       memory_view_SetAddress set_search_offset set_search_address].
  repeat split; try assumption.
  apply GetTargetAddress_of_texts; [apply to_u32_range|exact P|reflexivity].
Qed.

End FoundAddress.

Lemma FindValue_found_address_resolves_witness :
  let acc := region_accessors region_at_zero in
  let w := @ValidateAndPreviewInputValue integers_only
             (widget_with "" "" "AA" false HEXSTR) in
  exists r ds,
    @Search acc (search_start true w) (GetInputData w)
      (Int.to_u32 (Qt.length (GetInputData w))) true = Some r
    /\ m_search_address (@FindValue acc true w) = map Qt.hex_lower ds
    /\ List.length ds = 8%nat
    /\ Forall digit16 ds
    /\ digits_to_Z 0 ds = Int.to_u32 r
    /\ m_search_offset (@FindValue acc true w) = []
    /\ m_memory_view_address (@FindValue acc true w) = Int.to_u32 r
    /\ GetTargetAddress (@FindValue acc true w)
       = {| address := Int.to_u32 r;
            is_good_address := true; is_good_offset := true |}.
Proof.
  exact (@FindValue_found_address_resolves (region_accessors region_at_zero) true
           (@ValidateAndPreviewInputValue integers_only
              (widget_with "" "" "AA" false HEXSTR))
           eq_refl).
Defined.

(** ** The preview text *)

Lemma nibbles_app (a b : QByteArray) :
  Qt.nibbles (a ++ b) = Qt.nibbles a ++ Qt.nibbles b.
Proof.
  induction a as [|c a IH]; [reflexivity|].
  cbn [app Qt.nibbles]. destruct (Qt.nibble c); rewrite IH; reflexivity.
Qed.

Lemma nibbles_insert_space (pos : Z) (s : QString) :
  Qt.nibbles (Qt.insert pos 32 s) = Qt.nibbles s.
Proof.
  unfold Qt.insert. rewrite nibbles_app.
  change (Qt.nibbles (32 :: skipn (Z.to_nat pos) s))
    with (Qt.nibbles (skipn (Z.to_nat pos) s)).
  rewrite <- nibbles_app, firstn_skipn. reflexivity.
Qed.

Lemma nibbles_insert_spaces (fuel : nat) :
  forall i n s, Qt.nibbles (insert_spaces fuel i n s) = Qt.nibbles s.
Proof.
  induction fuel as [|fuel IH]; intros i n s; [reflexivity|].
  cbn [insert_spaces]. destruct (i <? n); [|reflexivity].
  rewrite IH. apply nibbles_insert_space.
Qed.

Lemma is_ascii_insert_space (pos : Z) (s : QString) :
  is_ascii s -> is_ascii (Qt.insert pos 32 s).
Proof.
  unfold is_ascii, Qt.insert. intros H.
  rewrite <- (firstn_skipn (Z.to_nat pos) s) in H. apply Forall_app in H.
  apply Forall_app. split; [tauto|]. constructor; [reflexivity|tauto].
Qed.

Lemma is_ascii_insert_spaces (fuel : nat) :
  forall i n s, is_ascii s -> is_ascii (insert_spaces fuel i n s).
Proof.
  induction fuel as [|fuel IH]; intros i n s H; [exact H|].
  cbn [insert_spaces]. destruct (i <? n); [|exact H].
  apply IH, is_ascii_insert_space, H.
Qed.

Lemma length_insert_spaces (fuel : nat) :
  forall i n s, (List.length s <= List.length (insert_spaces fuel i n s))%nat.
Proof.
  induction fuel as [|fuel IH]; intros i n s; [cbn; lia|].
  cbn [insert_spaces]. destruct (i <? n); [|lia].
  eapply Nat.le_trans; [|apply IH].
  unfold Qt.insert. rewrite length_app. cbn [List.length].
  rewrite <- (firstn_skipn (Z.to_nat (n - i)) s) at 1. rewrite length_app. lia.
Qed.

(** The loop has finished when the fuel runs out: more fuel changes
    nothing. *)
Lemma insert_spaces_enough_fuel (fuel : nat) :
  forall extra i n s,
    n - i <= 2 * Z.of_nat fuel ->
    insert_spaces (fuel + extra) i n s = insert_spaces fuel i n s.
Proof.
  induction fuel as [|fuel IH]; intros extra i n s H.
  - cbn [Nat.add insert_spaces]. destruct extra; [reflexivity|].
    cbn [insert_spaces]. destruct (Z.ltb_spec i n); [lia|reflexivity].
  - cbn [Nat.add insert_spaces]. destruct (i <? n); [|reflexivity].
    apply IH. lia.
Qed.

(** The text that receives the spaces: the digits, or their first sixteen
    and the ellipsis. *)
Lemma preview_text_eq (hs : QString) :
  preview_text hs
  = if 16 <? Qt.length hs
    then insert_spaces 16 2 16 (firstn 16 hs ++ QStringLiteral "...")
    else insert_spaces (List.length hs) 2 (Qt.length hs) hs.
Proof.
  unfold preview_text. destruct (16 <? Qt.length hs) eqn:E.
  - apply Z.ltb_lt in E. unfold Qt.length in E.
    assert (L : List.length (Qt.truncate 16 hs) = 16%nat).
    { unfold Qt.truncate. rewrite length_firstn. lia. }
    unfold Qt.length. rewrite L. reflexivity.
  - unfold Qt.length. rewrite Nat2Z.id. reflexivity.
Qed.

Lemma preview_text_nonempty (hs : QString) : hs <> [] -> preview_text hs <> [].
Proof.
  intros Hne. rewrite preview_text_eq. destruct (16 <? Qt.length hs) eqn:E.
  - intros H.
    pose proof (length_insert_spaces 16 2 16 (firstn 16 hs ++ QStringLiteral "...")) as L.
    rewrite H, length_app in L. cbn in L. lia.
  - intros H.
    pose proof (length_insert_spaces (List.length hs) 2 (Qt.length hs) hs) as L.
    rewrite H in L. destruct hs; [contradiction|]. cbn in L. lia.
Qed.

Lemma preview_text_is_ascii (hs : QString) : is_ascii hs -> is_ascii (preview_text hs).
Proof.
  intros H. rewrite preview_text_eq. destruct (16 <? Qt.length hs).
  - apply is_ascii_insert_spaces. apply Forall_app. split.
    + rewrite <- (firstn_skipn 16 hs) in H. apply Forall_app in H. tauto.
    + repeat constructor.
  - apply is_ascii_insert_spaces, H.
Qed.

Lemma nibbles_preview_text (hs : QString) :
  Qt.nibbles (preview_text hs) = Qt.nibbles (firstn 16 hs).
Proof.
  rewrite preview_text_eq. destruct (16 <? Qt.length hs) eqn:E.
  - rewrite nibbles_insert_spaces, nibbles_app. cbn. apply app_nil_r.
  - rewrite nibbles_insert_spaces. apply Z.ltb_ge in E. unfold Qt.length in E.
    rewrite firstn_all2 by lia. reflexivity.
Qed.

Lemma toUtf8_ascii (s : QString) : is_ascii s -> Qt.toUtf8 s = s.
Proof.
  induction 1 as [|c s Hc _ IH]; [reflexivity|].
  cbn [Qt.toUtf8]. rewrite Hc, IH. reflexivity.
Qed.

(** Up to sixteen digits, an even number of them: the loop groups them by
    byte. *)
Lemma preview_text_grouped (hs : QString) :
  (List.length hs <= 16)%nat -> Nat.even (List.length hs) = true ->
  preview_text hs = space_grouped hs.
Proof.
  intros L Ev.
  do 17 (destruct hs as [|? hs]; [try reflexivity; discriminate Ev|]).
  cbn in L. lia.
Qed.

(** More than sixteen digits: the first sixteen, grouped, and the
    ellipsis. *)
Lemma preview_text_truncated (hs : QString) :
  16 < Qt.length hs ->
  preview_text hs = space_grouped (firstn 16 hs) ++ QStringLiteral "...".
Proof.
  intros L. rewrite preview_text_eq.
  replace (16 <? Qt.length hs) with true by (symmetry; apply Z.ltb_lt, L).
  unfold Qt.length in L.
  do 16 (destruct hs as [|? hs]; [cbn in L; lia|]).
  reflexivity.
Qed.

(** ** Bytes and their digits *)

Lemma nibbles_hex_text (cs : QString) (ds : list Z) :
  hex_text cs ds -> Qt.nibbles cs = ds.
Proof.
  induction 1 as [|c d cs ds H _ IH]; [reflexivity|].
  apply spells_hex_char in H. cbn [Qt.nibbles].
  rewrite (hc_nibble c d H), IH. reflexivity.
Qed.

Lemma hex_text_is_ascii (cs : QString) (ds : list Z) :
  hex_text cs ds -> is_ascii cs.
Proof.
  induction 1 as [|c d cs ds H _ IH]; constructor; [|exact IH].
  apply (hc_ascii c d), spells_hex_char, H.
Qed.

Lemma hex_text_no_blank (cs : QString) (ds : list Z) :
  hex_text cs ds -> Qt.remove 32 cs = cs.
Proof.
  induction 1 as [|c d cs ds H _ IH]; [reflexivity|].
  apply spells_hex_char in H. unfold Qt.remove in *. cbn [filter].
  rewrite (hc_blank c d H), IH. reflexivity.
Qed.

Lemma toHex_byte_digits (b : QByteArray) :
  Qt.toHex b = map Qt.hex_lower (byte_digits b).
Proof.
  induction b as [|x b IH]; [reflexivity|].
  unfold Qt.toHex, byte_digits in *. cbn [flat_map app map]. rewrite IH. reflexivity.
Qed.

Lemma byte_digits_digit16 (b : QByteArray) :
  Forall is_byte b -> Forall digit16 (byte_digits b).
Proof.
  induction 1 as [|x b Hx _ IH]; [constructor|].
  unfold is_byte in Hx. unfold byte_digits. cbn [flat_map app].
  constructor; [|constructor; [|exact IH]]; unfold digit16.
  - split; [apply Z.div_pos; lia|apply Z.div_lt_upper_bound; lia].
  - pose proof (Z.mod_pos_bound x 16). lia.
Qed.

Lemma pair_up_byte_digits (b : QByteArray) :
  rev (Qt.pair_up (rev (byte_digits b))) = b.
Proof.
  induction b as [|x b IH] using rev_ind; [reflexivity|].
  unfold byte_digits in *. rewrite flat_map_app, rev_app_distr.
  cbn [flat_map app rev Qt.pair_up]. rewrite IH.
  f_equal. f_equal. pose proof (Z.div_mod x 16). lia.
Qed.

Lemma even_digits_bytes (n : nat) :
  forall ds,
    List.length ds = (2 * n)%nat -> Forall digit16 ds ->
    exists b, ds = byte_digits b /\ Forall is_byte b /\ List.length b = n.
Proof.
  induction n as [|n IH]; intros ds L F.
  - destruct ds; [|discriminate L]. exists []. repeat split. constructor.
  - destruct ds as [|h [|l ds]]; try (cbn in L; lia).
    inversion F as [|? ? Hh F1]; subst. inversion F1 as [|? ? Hl F2]; subst.
    destruct (IH ds) as (b & E & Fb & Lb); [cbn in L; lia|exact F2|].
    unfold digit16 in Hh, Hl.
    exists ((h * 16 + l) :: b). repeat split.
    + unfold byte_digits in *. cbn [flat_map app]. rewrite <- E.
      rewrite Z.div_add_l, Z.div_small, Z.add_0_r by lia.
      rewrite Z.add_comm, Z.mod_add, Z.mod_small by lia. reflexivity.
    + constructor; [unfold is_byte; lia|exact Fb].
    + cbn. lia.
Qed.

(** Decoding the preview of at most sixteen digits pairs them up. *)
Lemma bytes_of_preview_hex (hs : QString) (ds : list Z) :
  hex_text hs ds -> (List.length hs <= 16)%nat ->
  bytes_of_preview hs = rev (Qt.pair_up (rev ds)).
Proof.
  intros H L. unfold bytes_of_preview, Qt.fromHex.
  rewrite toUtf8_ascii by (apply preview_text_is_ascii, (hex_text_is_ascii hs ds H)).
  rewrite nibbles_preview_text, firstn_all2 by lia.
  rewrite (nibbles_hex_text hs ds H). reflexivity.
Qed.

(** The digits an integer input type prints for a value it can hold and
    that is not negative. *)
Lemma hex_of_value_digits (combo_id : InputID) (v : Z) :
  is_integer_input combo_id = true ->
  0 <= v <= input_max combo_id ->
  exists ds,
    hex_of_value combo_id v = map Qt.hex_upper ds
    /\ List.length ds = input_digits combo_id
    /\ Forall digit16 ds
    /\ digits_to_Z 0 ds = v.
Proof.
  intros Hi Hv.
  assert (P : forall width bits,
             (1 <= width <= 16)%nat -> 16 ^ Z.of_nat width = 2 ^ bits ->
             0 <= v < 2 ^ bits ->
             exists ds,
               Fmt.format_0X width (Int.wrap bits v) = map Qt.hex_upper ds
               /\ List.length ds = width /\ Forall digit16 ds /\ digits_to_Z 0 ds = v).
  { intros width bits Hw He Hb. unfold Int.wrap. rewrite Z.mod_small by exact Hb.
    apply (padded_digits width v Qt.hex_upper eq_refl Hw). rewrite He. exact Hb. }
  assert (Q : forall width,
             (1 <= width <= 16)%nat -> 0 <= v < 16 ^ Z.of_nat width ->
             exists ds,
               Fmt.format_0X width v = map Qt.hex_upper ds
               /\ List.length ds = width /\ Forall digit16 ds /\ digits_to_Z 0 ds = v).
  { intros width Hw Hb. apply (padded_digits width v Qt.hex_upper eq_refl Hw Hb). }
  destruct combo_id; try discriminate Hi; cbn [hex_of_value input_digits input_max] in *.
  - apply (P 2%nat 8); [lia|reflexivity|unfold Int.s8_max in Hv; lia].
  - apply (P 4%nat 16); [lia|reflexivity|unfold Int.s16_max in Hv; lia].
  - apply (P 8%nat 32); [lia|reflexivity|unfold Int.s32_max in Hv; lia].
  - apply Q; [lia|unfold Int.u8_max in Hv; change (16 ^ Z.of_nat 2) with 256; lia].
  - apply Q; [lia|unfold Int.u16_max in Hv; change (16 ^ Z.of_nat 4) with 65536; lia].
  - apply Q; [lia|unfold Int.u32_max in Hv; change (16 ^ Z.of_nat 8) with 4294967296; lia].
Qed.

Lemma land_high_byte (v : Z) : 0 <= v <= 255 -> Z.land v 65280 = 0.
Proof.
  intros Hv. apply Z.bits_inj'. intros n Hn.
  rewrite Z.land_spec, Z.bits_0.
  destruct (Z.lt_ge_cases n 8) as [Hlt|Hge].
  - change 65280 with (Z.shiftl 255 8).
    rewrite Z.shiftl_spec_low by exact Hlt. apply andb_false_r.
  - destruct (Z.eq_dec v 0) as [->|Hnz]; [rewrite Z.bits_0; reflexivity|].
    rewrite Z.bits_above_log2; [reflexivity|lia|].
    apply Z.lt_le_trans with 8; [|exact Hge].
    apply Z.log2_lt_pow2; [lia|]. change (2 ^ 8) with 256. lia.
Qed.

(** ** Integer input: hexadecimal text in, bytes out *)

Section IntegerInput.

Context {FP : FloatingPoint}.

Lemma validated_preview (w : MemoryWidget) (hs : QString) :
  m_data_edit w <> [] ->
  validation w = (true, hs) ->
  ValidateAndPreviewInputValue w = set_data_preview (preview_text hs) (cleared w).
Proof.
  intros Hne Hv. rewrite ValidateAndPreviewInputValue_eq, Hv.
  destruct (m_data_edit w); [contradiction|reflexivity].
Qed.

(** For every input type but ASCII and the byte string, the bytes are read
    from the preview. *)
Lemma GetInputData_from_preview (w : MemoryWidget) (hs : QString) :
  m_input_combo w <> ASCII -> m_input_combo w <> HEXSTR ->
  m_data_edit w <> [] -> hs <> [] ->
  validation w = (true, hs) ->
  GetInputData (ValidateAndPreviewInputValue w) = bytes_of_preview hs.
Proof.
  intros Ha Hh Hne Hs Hv. rewrite (validated_preview w hs Hne Hv).
  unfold GetInputData.
  cbn [m_data_preview m_input_combo m_data_edit set_data_preview cleared
       set_base_check_enabled].
  pose proof (preview_text_nonempty hs Hs) as Hp.
  destruct (preview_text hs) eqn:E; [contradiction|]. cbn [Qt.isEmpty].
  unfold bytes_of_preview. rewrite E.
  destruct (m_input_combo w); try reflexivity; contradiction.
Qed.

(** Hexadecimal text for a value that is not negative and fits the input
    type validates, with the check box ticked, to the digits of that
    value. *)
Lemma validation_hex_text (w : MemoryWidget) (ds : list Z) (v : Z) :
  is_integer_input (m_input_combo w) = true ->
  m_base_check_isChecked w = true ->
  hex_text (m_data_edit w) ds ->
  m_data_edit w <> [] ->
  digits_to_Z 0 ds = v ->
  0 <= v <= input_max (m_input_combo w) ->
  validation w = (true, hex_of_value (m_input_combo w) v).
Proof.
  intros Hi Hc Ht Hne Hd Hv.
  unfold validation, radix_for, stripped_input. rewrite Hc, Hi. cbn [andb].
  assert (Hs : (if negb (InputID_eqb (m_input_combo w) ASCII)
                then Qt.remove 32 (m_data_edit w) else m_data_edit w)
               = m_data_edit w).
  { destruct (negb _); [apply (hex_text_no_blank _ ds Ht)|reflexivity]. }
  rewrite Hs. clear Hs.
  destruct (m_input_combo w); try discriminate Hi;
    cbn [switch_combo_id input_max] in *.
  - rewrite (toShort_hex _ ds Ht Hne), Hd.
    rewrite checked_in_range by (unfold Int.s16_min, Int.s16_max, Int.s8_max in *; lia).
    replace ((Int.s8_min <=? v) && (v <=? Int.s8_max)) with true; [reflexivity|].
    symmetry. apply andb_true_iff. unfold Int.s8_min, Int.s8_max in *.
    split; apply Z.leb_le; lia.
  - rewrite (toShort_hex _ ds Ht Hne), Hd.
    rewrite checked_in_range by (unfold Int.s16_min, Int.s16_max in *; lia).
    reflexivity.
  - rewrite (toInt_hex _ ds Ht Hne), Hd.
    rewrite checked_in_range by (unfold Int.s32_min, Int.s32_max in *; lia).
    reflexivity.
  - rewrite (toUShort_hex _ ds Ht Hne), Hd.
    rewrite checked_in_range by (unfold Int.u16_max, Int.u8_max in *; lia).
    rewrite land_high_byte by (unfold Int.u8_max in *; lia). reflexivity.
  - rewrite (toUShort_hex _ ds Ht Hne), Hd.
    rewrite checked_in_range by (unfold Int.u16_max in *; lia). reflexivity.
  - rewrite (toUInt_hex _ ds Ht Hne), Hd.
    rewrite checked_in_range by (unfold Int.u32_max in *; lia). reflexivity.
Qed.

Lemma integer_input_not_text (combo_id : InputID) :
  is_integer_input combo_id = true -> combo_id <> ASCII /\ combo_id <> HEXSTR.
Proof. destruct combo_id; intros H; try discriminate H; split; discriminate. Qed.

(** The bytes of a parsed value: whatever text produced it. *)
Lemma GetInputData_of_value (w : MemoryWidget) (v : Z) :
  is_integer_input (m_input_combo w) = true ->
  m_data_edit w <> [] ->
  hex_of_value (m_input_combo w) v <> [] ->
  validation w = (true, hex_of_value (m_input_combo w) v) ->
  GetInputData (ValidateAndPreviewInputValue w) = encode (m_input_combo w) v.
Proof.
  intros Hi Hne Hh Hv. destruct (integer_input_not_text _ Hi) as [Ha Hx].
  apply (GetInputData_from_preview w _ Ha Hx Hne Hh Hv).
Qed.

(** The hexadecimal digits of the bytes of a value, in lowercase as
    [toHex] gives them and in uppercase as the preview shows them, spell
    the digits the switch printed. *)
Lemma encode_digits (combo_id : InputID) (v : Z) :
  is_integer_input combo_id = true ->
  0 <= v <= input_max combo_id ->
  exists ds,
    hex_of_value combo_id v = map Qt.hex_upper ds
    /\ Qt.toHex (encode combo_id v) = map Qt.hex_lower ds
    /\ ds <> []
    /\ Forall digit16 ds
    /\ digits_to_Z 0 ds = v.
Proof.
  intros Hi Hv.
  destruct (hex_of_value_digits combo_id v Hi Hv) as (ds & E & L & F & V).
  exists ds. split; [exact E|].
  assert (L16 : (List.length ds <= 16)%nat)
    by (rewrite L; destruct combo_id; cbn; lia).
  assert (Hn : ds <> []).
  { intros ->. destruct combo_id; try discriminate Hi; discriminate L. }
  repeat split; try assumption.
  unfold encode. rewrite E.
  rewrite (bytes_of_preview_hex _ ds (hex_text_upper ds F))
    by (rewrite length_map; exact L16).
  destruct (even_digits_bytes (input_digits combo_id / 2) ds) as (b & Eb & Fb & _).
  { rewrite L. destruct combo_id; try discriminate Hi; reflexivity. }
  { exact F. }
  rewrite Eb, pair_up_byte_digits. apply toHex_byte_digits.
Qed.

End IntegerInput.

Section RoundTrip.

Context {FP : FloatingPoint}.

(** C4, as the code has it: for the six integer input types with the Hex
    box ticked, and every value of the type that is not negative, the
    hexadecimal digits of the encoded bytes of the value (in lowercase as
    [toHex] gives them, or in uppercase as the preview shows them) validate
    under the same type, and [GetInputData] then returns the same bytes as
    the value encodes to. *)
Theorem hex_digits_round_trip (w : MemoryWidget) (v : Z) :
  is_integer_input (m_input_combo w) = true ->
  m_base_check_isChecked w = true ->
  0 <= v <= input_max (m_input_combo w) ->
  m_data_edit w = Qt.fromLatin1 (Qt.toHex (encode (m_input_combo w) v))
  \/ m_data_edit w = hex_of_value (m_input_combo w) v ->
  fst (validation w) = true
  /\ GetInputData (ValidateAndPreviewInputValue w) = encode (m_input_combo w) v.
Proof.
  intros Hi Hc Hv Ht.
  destruct (encode_digits (m_input_combo w) v Hi Hv) as (ds & Eu & El & Hn & F & V).
  assert (Htext : hex_text (m_data_edit w) ds).
  { destruct Ht as [-> | ->].
    - unfold Qt.fromLatin1. rewrite El. apply hex_text_lower, F.
    - rewrite Eu. apply hex_text_upper, F. }
  assert (Hne : m_data_edit w <> []).
  { intros E. rewrite E in Htext. inversion Htext. subst. contradiction. }
  pose proof (validation_hex_text w ds v Hi Hc Htext Hne V Hv) as Hval.
  split; [rewrite Hval; reflexivity|].
  apply GetInputData_of_value; try assumption.
  rewrite Eu. destruct ds; [contradiction|discriminate].
Qed.

(** The conversions in base 0 follow the C convention: [0x] or [0X] reads
    the rest in base 16, another leading [0] reads the text in base 8, and
    anything else is read in base 10. *)
Lemma base_zero_convention :
  (forall c r, c <> 48 -> Qt.magnitude 0 (c :: r) = Qt.magnitude 10 (c :: r))
  /\ (forall x r, x = 120 \/ x = 88 ->
        Qt.magnitude 0 (48 :: x :: r) = Qt.magnitude 16 (48 :: x :: r))
  /\ (forall x r, x <> 120 -> x <> 88 ->
        Qt.magnitude 0 (48 :: x :: r) = Qt.magnitude 8 (48 :: x :: r))
  /\ Qt.magnitude 0 [48] = Qt.magnitude 8 [48].
Proof.
  repeat split.
  - intros c r Hc. unfold Qt.magnitude, Qt.strip_prefix.
    apply Z.eqb_neq in Hc. rewrite Hc. destruct r; reflexivity.
  - intros x r Hx. unfold Qt.magnitude, Qt.strip_prefix.
    destruct Hx as [-> | ->]; reflexivity.
  - intros x r H1 H2. unfold Qt.magnitude, Qt.strip_prefix.
    apply Z.eqb_neq in H1, H2. rewrite H1, H2. reflexivity.
Qed.

Lemma ValidateAndPreviewInputValue_enabled (w : MemoryWidget) :
  m_base_check_isEnabled (ValidateAndPreviewInputValue w)
  = is_integer_input (m_input_combo w).
Proof.
  rewrite ValidateAndPreviewInputValue_eq.
  destruct (Qt.isEmpty (m_data_edit w)); [reflexivity|].
  destruct (fst (validation w)); reflexivity.
Qed.

(** The check box is not read for the other input types. *)
Lemma unchecked_irrelevant (b : bool) (w : MemoryWidget) :
  is_integer_input (m_input_combo w) = false ->
  ValidateAndPreviewInputValue (set_base_check_checked b w)
  = set_base_check_checked b (ValidateAndPreviewInputValue w).
Proof.
  intros Hi. rewrite !ValidateAndPreviewInputValue_eq.
  unfold validation, radix_for, stripped_input.
  cbn [m_data_edit m_input_combo m_base_check_isChecked set_base_check_checked].
  rewrite Hi, !andb_false_r.
  destruct (Qt.isEmpty (m_data_edit w)); [reflexivity|].
  destruct (switch_combo_id _ _ _) as [good hs]. cbn [fst snd].
  destruct good; reflexivity.
Qed.

End RoundTrip.

Lemma hex_digits_round_trip_witness :
  fst (@validation integers_only (widget_with "" "" "7f" true S8)) = true
  /\ GetInputData
       (@ValidateAndPreviewInputValue integers_only (widget_with "" "" "7f" true S8))
     = encode S8 127.
Proof.
  apply (@hex_digits_round_trip integers_only (widget_with "" "" "7f" true S8) 127).
  - reflexivity.
  - reflexivity.
  - unfold input_max, Int.s8_max. cbn. lia.
  - left. vm_compute. reflexivity.
Defined.

(** C4 as stated fails for a negative value: [-1] is a signed 8-bit value
    and encodes to the byte [FF], but the digits [ff] (or [FF]) are rejected
    under the same input type, with the Hex box ticked (255 is out of
    range) and without it (not a number in base 0).  Without the Hex box the
    digits [10] of the unsigned byte sixteen validate, but to the byte
    ten. *)
Lemma hex_digits_round_trip_fails_negative :
  GetInputData
    (@ValidateAndPreviewInputValue integers_only (widget_with "" "" "-1" false S8))
  = [255]
  /\ encode S8 (-1) = [255]
  /\ Qt.toHex [255] = QStringLiteral "ff"
  /\ GetInputData
       (@ValidateAndPreviewInputValue integers_only (widget_with "" "" "ff" true S8))
     = []
  /\ GetInputData
       (@ValidateAndPreviewInputValue integers_only (widget_with "" "" "ff" false S8))
     = []
  /\ GetInputData
       (@ValidateAndPreviewInputValue integers_only (widget_with "" "" "FF" true S8))
     = []
  /\ GetInputData
       (@ValidateAndPreviewInputValue integers_only (widget_with "" "" "FF" false S8))
     = []
  /\ encode U8 16 = [16]
  /\ Qt.toHex [16] = QStringLiteral "10"
  /\ GetInputData
       (@ValidateAndPreviewInputValue integers_only (widget_with "" "" "10" false U8))
     = [10].
Proof. vm_compute. repeat split. Qed.

(** C3 as stated fails with the box not ticked: the text [0x1F] is accepted
    as an unsigned 8-bit value and previewed as [1F], although it is not a
    number in base 10; and [010] is previewed as [08], not as the [0A] of
    decimal ten. *)
Lemma unticked_base_is_not_decimal :
  @validation integers_only (widget_with "" "" "0x1F" false U8)
  <> @switch_combo_id integers_only U8 10 (QStringLiteral "0x1F")
  /\ m_data_preview
       (@ValidateAndPreviewInputValue integers_only (widget_with "" "" "0x1F" false U8))
     = QStringLiteral "1F"
  /\ Qt.toUShort (QStringLiteral "0x1F") 10 = (0, false)
  /\ m_data_preview
       (@ValidateAndPreviewInputValue integers_only (widget_with "" "" "010" false U8))
     = QStringLiteral "08"
  /\ @switch_combo_id integers_only U8 10 (QStringLiteral "010")
     = (true, QStringLiteral "0A").
Proof. vm_compute. repeat split. intros H. discriminate H. Qed.

(** ** Latin-1 and UTF-8 *)

Lemma length_toLatin1 (s : QString) : List.length (Qt.toLatin1 s) = List.length s.
Proof. apply length_map. Qed.

Lemma length_toUtf8_bound (n : nat) :
  forall s, (List.length s <= n)%nat ->
            (List.length s <= List.length (Qt.toUtf8 s))%nat.
Proof.
  induction n as [|n IH]; intros s L.
  - destruct s; [cbn; lia|cbn in L; lia].
  - destruct s as [|c r]; [cbn; lia|]. cbn [List.length] in L.
    assert (Hr : (List.length r <= List.length (Qt.toUtf8 r))%nat) by (apply IH; lia).
    cbn [Qt.toUtf8].
    destruct (c <? 128); [cbn [List.length]; lia|].
    destruct (c <? 2048); [rewrite length_app; cbn [List.length Qt.utf8_2]; lia|].
    destruct (Qt.isHighSurrogate c).
    + destruct r as [|d r']; [cbn; lia|].
      destruct (Qt.isLowSurrogate d).
      * assert (List.length r' <= List.length (Qt.toUtf8 r'))%nat
          by (apply IH; cbn [List.length] in L; lia).
        rewrite length_app. cbn [List.length Qt.utf8_4]. lia.
      * cbn [List.length] in *. lia.
    + destruct (Qt.isLowSurrogate c); [cbn [List.length]; lia|].
      rewrite length_app. cbn [List.length Qt.utf8_3]. lia.
Qed.

Lemma length_toUtf8 (s : QString) :
  (List.length s <= List.length (Qt.toUtf8 s))%nat.
Proof. apply (length_toUtf8_bound (List.length s)). lia. Qed.

Lemma toLatin1_ascii (s : QString) : is_ascii s -> Qt.toLatin1 s = s.
Proof.
  induction 1 as [|c s Hc _ IH]; [reflexivity|].
  unfold Qt.toLatin1 in *. cbn [map]. rewrite IH.
  apply Z.ltb_lt in Hc. replace (c <=? 255) with true; [reflexivity|].
  symmetry. apply Z.leb_le. lia.
Qed.

(** Well-formed text is seven-bit, or its UTF-8 form is longer than its
    number of code units. *)
Lemma utf8_ascii_or_longer (n : nat) :
  forall s, (List.length s <= n)%nat -> well_formed s = true ->
            is_ascii s \/ (List.length s < List.length (Qt.toUtf8 s))%nat.
Proof.
  induction n as [|n IH]; intros s L W.
  - destruct s; [left; constructor|cbn in L; lia].
  - destruct s as [|c r]; [left; constructor|]. cbn [List.length] in L.
    pose proof (length_toUtf8 r) as Gr.
    cbn [well_formed] in W. cbn [Qt.toUtf8].
    destruct (c <? 128) eqn:E1.
    + assert (Hh : Qt.isHighSurrogate c = false).
      { apply Z.ltb_lt in E1. unfold Qt.isHighSurrogate. compare_all; lia. }
      rewrite Hh in W. apply andb_true_iff in W. destruct W as [_ W].
      destruct (IH r) as [A|Lr]; [lia|exact W| |].
      * left. constructor; assumption.
      * right. cbn [List.length]. lia.
    + right. destruct (c <? 2048).
      { rewrite length_app. cbn [List.length Qt.utf8_2]. lia. }
      destruct (Qt.isHighSurrogate c).
      * destruct r as [|d r']; [discriminate W|].
        apply andb_true_iff in W. destruct W as [Wd _]. rewrite Wd.
        pose proof (length_toUtf8 r').
        rewrite length_app. cbn [List.length Qt.utf8_4]. lia.
      * destruct (Qt.isLowSurrogate c); [discriminate W|].
        rewrite length_app. cbn [List.length Qt.utf8_3]. lia.
Qed.

Lemma well_formed_latin1_bytes (n : nat) :
  forall s, (List.length s <= n)%nat -> well_formed s = true ->
            Forall is_byte (Qt.toLatin1 s).
Proof.
  induction n as [|n IH]; intros s L W.
  - destruct s; [constructor|cbn in L; lia].
  - destruct s as [|c r]; [constructor|]. cbn [List.length] in L.
    cbn [well_formed] in W. unfold Qt.toLatin1. cbn [map].
    destruct (Qt.isHighSurrogate c) eqn:Hh.
    + destruct r as [|d r']; [discriminate W|].
      apply andb_true_iff in W. destruct W as [Wd W].
      unfold Qt.isHighSurrogate in Hh. unfold Qt.isLowSurrogate in Wd.
      cbn [map]. constructor; [|constructor].
      * unfold is_byte. compare_all; try discriminate; lia.
      * unfold is_byte. compare_all; try discriminate; lia.
      * apply IH; [cbn [List.length] in L; lia|exact W].
    + apply andb_true_iff in W. destruct W as [W Wr].
      apply andb_true_iff in W. destruct W as [W Hhi].
      apply andb_true_iff in W. destruct W as [_ Hlo].
      constructor; [|apply IH; [lia|exact Wr]].
      unfold is_byte. compare_all; try discriminate; lia.
Qed.

Lemma fromHex_toHex (b : QByteArray) :
  Forall is_byte b -> Qt.fromHex (Qt.toHex b) = b.
Proof.
  intros F. unfold Qt.fromHex. rewrite toHex_byte_digits.
  rewrite (nibbles_hex_text _ (byte_digits b)).
  - apply pair_up_byte_digits.
  - apply hex_text_lower, byte_digits_digit16, F.
Qed.

Lemma length_toHex (b : QByteArray) :
  List.length (Qt.toHex b) = (2 * List.length b)%nat.
Proof.
  induction b as [|x b IH]; [reflexivity|].
  unfold Qt.toHex in *. cbn [flat_map app List.length]. rewrite IH. lia.
Qed.

Lemma toHex_is_ascii (b : QByteArray) : Forall is_byte b -> is_ascii (Qt.toHex b).
Proof.
  intros F. rewrite toHex_byte_digits.
  apply (hex_text_is_ascii _ (byte_digits b)).
  apply hex_text_lower, byte_digits_digit16, F.
Qed.

(** The preview of at most eight bytes decodes to the bytes. *)
Lemma byte_preview_decodes (b : QByteArray) :
  Forall is_byte b -> (List.length b <= 8)%nat ->
  bytes_of_preview (Qt.toHex b) = b.
Proof.
  intros F L.
  rewrite (bytes_of_preview_hex _ (byte_digits b)).
  - apply pair_up_byte_digits.
  - rewrite toHex_byte_digits. apply hex_text_lower, byte_digits_digit16, F.
  - rewrite length_toHex. lia.
Qed.

(** ** ASCII input *)

Section AsciiInput.

Context {FP : FloatingPoint}.

Lemma validation_ascii (w : MemoryWidget) :
  m_input_combo w = ASCII ->
  validation w = (true, Qt.fromLatin1 (Qt.toHex (Qt.toLatin1 (m_data_edit w)))).
Proof.
  intros Hc. unfold validation, stripped_input. rewrite Hc. reflexivity.
Qed.

Lemma toHex_nonempty (b : QByteArray) : b <> [] -> Qt.toHex b <> [].
Proof. destruct b; [contradiction|discriminate]. Qed.

Lemma GetInputData_ascii (w : MemoryWidget) :
  m_input_combo w = ASCII ->
  m_data_edit w <> [] ->
  GetInputData (ValidateAndPreviewInputValue w) = Qt.toUtf8 (m_data_edit w).
Proof.
  intros Hc Hne.
  rewrite (validated_preview w _ Hne (validation_ascii w Hc)).
  unfold GetInputData.
  cbn [m_data_preview m_input_combo m_data_edit set_data_preview cleared
       set_base_check_enabled].
  rewrite Hc.
  assert (Hp : preview_text (Qt.fromLatin1 (Qt.toHex (Qt.toLatin1 (m_data_edit w)))) <> []).
  { apply preview_text_nonempty, toHex_nonempty.
    destruct (m_data_edit w); [contradiction|discriminate]. }
  destruct (preview_text _); [contradiction|reflexivity].
Qed.

(** C10, as the code has it: under the ASCII input type every non-empty
    text validates; the preview is made from the hexadecimal digits of the
    Latin-1 bytes of the text, while [GetInputData] returns the UTF-8 bytes
    of the text in the edit box.  For well-formed text the two byte sequences are equal
    exactly when every character is a seven-bit one, and otherwise the
    UTF-8 sequence is the longer one.  (A preview of at most eight bytes is
    not truncated and decodes to the Latin-1 bytes themselves.) *)
Theorem ascii_input_bytes (w : MemoryWidget) :
  m_input_combo w = ASCII ->
  m_data_edit w <> [] ->
  fst (validation w) = true
  /\ m_data_preview (ValidateAndPreviewInputValue w)
     = preview_text (Qt.fromLatin1 (Qt.toHex (Qt.toLatin1 (m_data_edit w))))
  /\ GetInputData (ValidateAndPreviewInputValue w) = Qt.toUtf8 (m_data_edit w)
  /\ List.length (Qt.toLatin1 (m_data_edit w)) = List.length (m_data_edit w)
  /\ (well_formed (m_data_edit w) = true ->
      (GetInputData (ValidateAndPreviewInputValue w) = Qt.toLatin1 (m_data_edit w)
       <-> is_ascii (m_data_edit w))
      /\ (~ is_ascii (m_data_edit w) ->
          (List.length (Qt.toLatin1 (m_data_edit w))
           < List.length (GetInputData (ValidateAndPreviewInputValue w)))%nat)
      /\ ((List.length (m_data_edit w) <= 8)%nat ->
          Qt.fromHex (Qt.toUtf8 (m_data_preview (ValidateAndPreviewInputValue w)))
          = Qt.toLatin1 (m_data_edit w))).
Proof.
  intros Hc Hne.
  pose proof (validation_ascii w Hc) as Hv.
  pose proof (GetInputData_ascii w Hc Hne) as Hg.
  assert (Hp : m_data_preview (ValidateAndPreviewInputValue w)
               = preview_text (Qt.fromLatin1 (Qt.toHex (Qt.toLatin1 (m_data_edit w)))))
    by (rewrite (validated_preview w _ Hne Hv); reflexivity).
  split; [rewrite Hv; reflexivity|].
  split; [exact Hp|]. split; [exact Hg|]. split; [apply length_toLatin1|].
  intros W. rewrite Hg, Hp.
  destruct (utf8_ascii_or_longer _ (m_data_edit w) (Nat.le_refl _) W) as [A|L].
  - split; [|split].
    + split; [intros _; exact A|intros _].
      rewrite (toUtf8_ascii _ A), (toLatin1_ascii _ A). reflexivity.
    + intros N. contradiction.
    + intros L8. apply byte_preview_decodes.
      * apply (well_formed_latin1_bytes _ _ (Nat.le_refl _) W).
      * rewrite length_toLatin1. exact L8.
  - split; [|split].
    + split.
      * intros E. apply (f_equal (@List.length Z)) in E.
        rewrite length_toLatin1 in E. unfold QByteArray, QString, QChar in *. lia.
      * intros A. exfalso. rewrite (toUtf8_ascii _ A) in L.
        unfold QByteArray, QString, QChar in *. lia.
    + intros _. rewrite length_toLatin1. exact L.
    + intros L8. apply byte_preview_decodes.
      * apply (well_formed_latin1_bytes _ _ (Nat.le_refl _) W).
      * rewrite length_toLatin1. exact L8.
Qed.

End AsciiInput.

Lemma ascii_input_bytes_witness :
  GetInputData (@ValidateAndPreviewInputValue integers_only accented_input)
  = Qt.toUtf8 [104; 233]
  /\ (List.length (Qt.toLatin1 (m_data_edit accented_input))
      < List.length
          (GetInputData (@ValidateAndPreviewInputValue integers_only accented_input)))%nat.
Proof.
  assert (Hne : m_data_edit accented_input <> []) by discriminate.
  pose proof (@ascii_input_bytes integers_only accented_input eq_refl Hne)
    as (_ & _ & Hg & _ & Hw).
  split; [exact Hg|].
  destruct (Hw eq_refl) as (_ & Hl & _). apply Hl.
  intros A. inversion A as [|? ? _ A1]. inversion A1 as [|? ? Hc _]. discriminate Hc.
Defined.

(** C10 as stated fails for text that is not well formed: a high surrogate
    without its partner (U+D800) is no seven-bit character, yet both
    conversions give the one byte of a question mark for it, so the bytes
    returned equal the previewed bytes and are not longer. *)
Lemma lone_surrogate_bytes_equal_the_previewed :
  ~ is_ascii (m_data_edit lone_surrogate)
  /\ well_formed (m_data_edit lone_surrogate) = false
  /\ Qt.toLatin1 (m_data_edit lone_surrogate) = [63]
  /\ m_data_preview (@ValidateAndPreviewInputValue integers_only lone_surrogate)
     = QStringLiteral "3f"
  /\ GetInputData (@ValidateAndPreviewInputValue integers_only lone_surrogate)
     = Qt.toLatin1 (m_data_edit lone_surrogate)
  /\ ~ (List.length (Qt.toLatin1 (m_data_edit lone_surrogate))
        < List.length
            (GetInputData (@ValidateAndPreviewInputValue integers_only lone_surrogate)))%nat.
Proof.
  split.
  - intros A. inversion A as [|? ? Hc _]. discriminate Hc.
  - split; [reflexivity|]. split; [reflexivity|]. split; [reflexivity|].
    split; [reflexivity|]. vm_compute. intros H. inversion H as [|? H'].
    inversion H'.
Qed.

(** ** Values longer than the preview *)



Section LongValues.

Context {FP : FloatingPoint}.


Lemma is_hex_digit_ascii (c : QChar) : is_hex_digit c = true -> (c <? 128) = true.
Proof.
  unfold is_hex_digit. intros H. apply Z.ltb_lt.
  compare_all; try discriminate H; lia.
Qed.

Lemma is_hex_match_ascii (n : nat) :
  forall t, (List.length t <= n)%nat -> is_hex_match t = true -> is_ascii t.
Proof.
  induction n as [|n IH]; intros t L M.
  - destruct t; [constructor|cbn in L; lia].
  - destruct t as [|a [|b t]]; [constructor| |].
    + cbn in M. apply Z.eqb_eq in M. subst a. repeat constructor.
    + cbn [is_hex_match] in M.
      apply andb_true_iff in M. destruct M as [M Mt].
      apply andb_true_iff in M. destruct M as [Ma Mb].
      constructor; [apply is_hex_digit_ascii, Ma|].
      constructor; [apply is_hex_digit_ascii, Mb|].
      apply IH; [cbn [List.length] in L; lia|exact Mt].
Qed.

Lemma is_ascii_remove_blank (s : QString) : is_ascii (Qt.remove 32 s) -> is_ascii s.
Proof.
  unfold is_ascii, Qt.remove. induction s as [|c s IH]; intros H; [constructor|].
  cbn [filter] in H. destruct (c =? 32) eqn:E; cbn [negb] in H.
  - apply Z.eqb_eq in E. subst c. constructor; [reflexivity|apply IH, H].
  - inversion H; subst. constructor; [assumption|apply IH; assumption].
Qed.

Lemma nibbles_remove_blank (s : QString) :
  Qt.nibbles (Qt.remove 32 s) = Qt.nibbles s.
Proof.
  unfold Qt.remove. induction s as [|c s IH]; [reflexivity|].
  cbn [filter]. destruct (c =? 32) eqn:E; cbn [negb].
  - apply Z.eqb_eq in E. subst c. exact IH.
  - cbn [Qt.nibbles]. rewrite IH. reflexivity.
Qed.


Lemma GetInputData_hexstr (w : MemoryWidget) (hs : QString) :
  m_input_combo w = HEXSTR ->
  m_data_edit w <> [] -> hs <> [] ->
  validation w = (true, hs) ->
  GetInputData (ValidateAndPreviewInputValue w)
  = Qt.fromHex (Qt.toUtf8 (m_data_edit w)).
Proof.
  intros Hc Hne Hs Hv. rewrite (validated_preview w hs Hne Hv).
  unfold GetInputData.
  cbn [m_data_preview m_input_combo m_data_edit set_data_preview cleared
       set_base_check_enabled].
  rewrite Hc. pose proof (preview_text_nonempty hs Hs) as Hp.
  destruct (preview_text hs); [contradiction|reflexivity].
Qed.


End LongValues.



(** ** The examples of the specification *)

Example resolve_empty_texts :
  GetTargetAddress (widget_with "" "" "" false U8)
  = {| address := 0; is_good_address := true; is_good_offset := true |}.
Proof. reflexivity. Qed.

Example validate_1F_as_U8_in_hex :
  GetInputData (@ValidateAndPreviewInputValue integers_only (widget_with "" "" "1F" true U8))
  = [31].
Proof. reflexivity. Qed.

Example validate_999_as_S8_fails :
  fst (@validation integers_only (widget_with "" "" "999" false S8)) = false.
Proof. reflexivity. Qed.

Example validate_ZZ_as_byte_string_fails :
  fst (@validation integers_only (widget_with "" "" "ZZ" false HEXSTR)) = false.
Proof. reflexivity. Qed.

Example find_with_no_value_is_a_bad_value :
  m_result_label
    (@FindValue (region_accessors region_at_zero) true (widget_with "" "" "" false U8))
  = Qt.tr "Bad Value Given".
Proof. reflexivity. Qed.

Example find_next_skips_the_match :
  m_search_address
    (@FindValue (region_accessors {| region_begin := 0; region_bytes := [170; 0; 170; 0] |})
       true
       (@FindValue (region_accessors {| region_begin := 0; region_bytes := [170; 0; 170; 0] |})
          true
          (@ValidateAndPreviewInputValue integers_only
             (widget_with "" "" "AA" false HEXSTR))))
  = QStringLiteral "00000002".
Proof. reflexivity. Qed.

(** * Further properties *)

(** ** [GetTargetAddress]: every pair of texts *)

(** X1: the address of a target is always a [u32], and it is 0 whenever one
    of the two flags is false. *)
Theorem GetTargetAddress_bad_target_is_zero (w : MemoryWidget) :
  0 <= address (GetTargetAddress w) <= Int.u32_max
  /\ (is_good_address (GetTargetAddress w) && is_good_offset (GetTargetAddress w) = false ->
      address (GetTargetAddress w) = 0).
Proof.
  split; [apply GetTargetAddress_address_range|].
  unfold GetTargetAddress.
  destruct (Qt.toUInt _ _) as [addr ga]. destruct (Qt.toInt _ _) as [offset go].
  match goal with
  | |- context [if negb ?a || negb ?b then _ else _] =>
      destruct a, b; cbn [negb orb andb address is_good_address is_good_offset];
      try reflexivity
  end.
  destruct (offset <? 0); cbn [is_good_address is_good_offset andb];
    intros H; discriminate H.
Qed.

Lemma GetTargetAddress_bad_target_is_zero_witness :
  address (GetTargetAddress (widget_with "10" "-20" "" false U8)) = 0.
Proof.
  exact (proj2 (GetTargetAddress_bad_target_is_zero
                  (widget_with "10" "-20" "" false U8)) eq_refl).
Defined.

(** X2: for any two texts, with [a] and [o] the numbers the conversions
    return (0 where they fail): an empty box counts as good, the offset is
    good exactly when its text is and the exact sum [a + o] is a 32-bit
    address, and a target with both flags good carries that sum. *)
Theorem GetTargetAddress_characterised (w : MemoryWidget) (a o : Z) (ok_a ok_o : bool) :
  Qt.toUInt (m_search_address w) 16 = (a, ok_a) ->
  Qt.toInt (m_search_offset w) 16 = (o, ok_o) ->
  is_good_address (GetTargetAddress w) = ok_a || Qt.isEmpty (m_search_address w)
  /\ is_good_offset (GetTargetAddress w)
     = (ok_o || Qt.isEmpty (m_search_offset w))
       && ((0 <=? a + o) && (a + o <=? Int.u32_max))
  /\ (is_good_address (GetTargetAddress w) = true ->
      is_good_offset (GetTargetAddress w) = true ->
      address (GetTargetAddress w) = a + o).
Proof.
  intros Ha Ho.
  destruct (GetTargetAddress_flags w a o ok_a ok_o Ha Ho) as [Fa Fo].
  split; [exact Fa|split; [exact Fo|]].
  apply (GetTargetAddress_address w a o ok_a ok_o Ha Ho).
Qed.

Lemma GetTargetAddress_characterised_witness :
  is_good_address (GetTargetAddress (widget_with "" "1f" "" false U8)) = true
  /\ is_good_offset (GetTargetAddress (widget_with "" "1f" "" false U8)) = true
  /\ address (GetTargetAddress (widget_with "" "1f" "" false U8)) = 0 + 31.
Proof.
  pose proof (GetTargetAddress_characterised (widget_with "" "1f" "" false U8)
                0 31 false true eq_refl eq_refl) as (H1 & H2 & H3).
  split; [exact H1|split; [exact H2|exact (H3 eq_refl eq_refl)]].
Defined.

(** ** [ValidateAndPreviewInputValue]: what it touches *)

Section ValidateFrame.

Context {FP : FloatingPoint}.

Lemma ValidateAndPreviewInputValue_shape (w : MemoryWidget) :
  exists preview,
    ValidateAndPreviewInputValue w = set_data_preview preview (cleared w).
Proof.
  rewrite ValidateAndPreviewInputValue_eq.
  destruct (Qt.isEmpty (m_data_edit w)); [exists []; reflexivity|].
  destruct (fst (validation w)); [eexists; reflexivity|exists []; reflexivity].
Qed.

Lemma ValidateAndPreviewInputValue_ignores_preview (w : MemoryWidget) (p : QString) :
  ValidateAndPreviewInputValue (set_data_preview p (cleared w))
  = ValidateAndPreviewInputValue w.
Proof.
  rewrite !ValidateAndPreviewInputValue_eq. reflexivity.
Qed.

(** X3: validating again changes nothing: the function is idempotent. *)
Theorem ValidateAndPreviewInputValue_idempotent (w : MemoryWidget) :
  ValidateAndPreviewInputValue (ValidateAndPreviewInputValue w)
  = ValidateAndPreviewInputValue w.
Proof.
  destruct (ValidateAndPreviewInputValue_shape w) as [p E].
  transitivity (ValidateAndPreviewInputValue (set_data_preview p (cleared w))).
  - f_equal. exact E.
  - apply ValidateAndPreviewInputValue_ignores_preview.
Qed.

Lemma ValidateAndPreviewInputValue_with_style_eq (w : MemoryWidget) (style : LineEditStyle) :
  ValidateAndPreviewInputValue_with_style w style
  = (ValidateAndPreviewInputValue w,
     if Qt.isEmpty (m_data_edit w) then style
     else if fst (validation w) then plain_style else alert_style).
Proof.
  unfold ValidateAndPreviewInputValue_with_style, ValidateAndPreviewInputValue,
    validation, radix_for.
  cbn [m_data_edit m_input_combo m_base_check_isChecked m_base_check_isEnabled
       set_data_preview set_base_check_enabled].
  destruct (Qt.isEmpty (m_data_edit w)); [reflexivity|].
  unfold stripped_input.
  cbn [m_data_edit m_input_combo set_data_preview set_base_check_enabled].
  destruct (switch_combo_id _ _ _) as [good hs]. cbn [fst].
  destruct good; reflexivity.
Qed.

(** X4: what [ValidateAndPreviewInputValue] writes is the preview, the
    enabled state of the Hex box and the font and palette of the edit box.
    The search boxes, the text of the edit box, the state of the Hex box,
    the input type, the result label, the view and the record of searches
    stay as they were; the Hex box is enabled exactly for the integer input
    types; the edit box is made bold and red when a non-empty text fails
    validation and plain when it validates, and it keeps the style it had
    when the text is empty (the early return), so the red of a rejected
    text stays when the text is cleared. *)
Theorem ValidateAndPreviewInputValue_frame (w : MemoryWidget) (style : LineEditStyle) :
  fst (ValidateAndPreviewInputValue_with_style w style) = ValidateAndPreviewInputValue w
  /\ snd (ValidateAndPreviewInputValue_with_style w style)
     = (if Qt.isEmpty (m_data_edit w) then style
        else if fst (validation w) then plain_style else alert_style)
  /\ m_search_address (ValidateAndPreviewInputValue w) = m_search_address w
  /\ m_search_offset (ValidateAndPreviewInputValue w) = m_search_offset w
  /\ m_data_edit (ValidateAndPreviewInputValue w) = m_data_edit w
  /\ m_base_check_isChecked (ValidateAndPreviewInputValue w) = m_base_check_isChecked w
  /\ m_input_combo (ValidateAndPreviewInputValue w) = m_input_combo w
  /\ m_result_label (ValidateAndPreviewInputValue w) = m_result_label w
  /\ m_memory_view_address (ValidateAndPreviewInputValue w) = m_memory_view_address w
  /\ search_calls (ValidateAndPreviewInputValue w) = search_calls w
  /\ GetTargetAddress (ValidateAndPreviewInputValue w) = GetTargetAddress w
  /\ m_base_check_isEnabled (ValidateAndPreviewInputValue w)
     = is_integer_input (m_input_combo w).
Proof.
  rewrite ValidateAndPreviewInputValue_with_style_eq. cbn [fst snd].
  split; [reflexivity|]. split; [reflexivity|].
  destruct (ValidateAndPreviewInputValue_shape w) as [p E]. rewrite E.
  repeat split.
Qed.

End ValidateFrame.

(** A rejected value turns the edit box red; clearing the text afterwards
    leaves it red. *)
Example rejected_text_stays_red_when_cleared :
  let rejected :=
    @ValidateAndPreviewInputValue_with_style integers_only
      (widget_with "" "" "999" false S8) plain_style in
  snd rejected = alert_style
  /\ snd (@ValidateAndPreviewInputValue_with_style integers_only
            (set_data_edit [] (fst rejected)) (snd rejected)) = alert_style.
Proof. split; reflexivity. Qed.

(** ** The preview: its length *)

Lemma length_preview_text_short (hs : QString) :
  (List.length hs <= 16)%nat -> (List.length (preview_text hs) <= 23)%nat.
Proof.
  intros L.
  do 17 (destruct hs as [|? hs]; [vm_compute; lia|]).
  cbn in L. lia.
Qed.

Lemma length_preview_text (hs : QString) :
  (List.length (preview_text hs) <= 26)%nat.
Proof.
  destruct (Z.ltb_spec 16 (Qt.length hs)) as [Hl|Hs].
  - rewrite (preview_text_truncated hs Hl). unfold Qt.length in Hl.
    do 16 (destruct hs as [|? hs]; [cbn in Hl; lia|]).
    vm_compute. lia.
  - unfold Qt.length in Hs.
    pose proof (length_preview_text_short hs). lia.
Qed.

Section PreviewLength.

Context {FP : FloatingPoint}.

(** X5: whatever is typed, under every input type, the preview never holds
    more than 26 characters (sixteen digits, seven spaces and the
    ellipsis). *)
Theorem preview_at_most_26_characters (w : MemoryWidget) :
  (List.length (m_data_preview (ValidateAndPreviewInputValue w)) <= 26)%nat.
Proof.
  rewrite ValidateAndPreviewInputValue_eq.
  destruct (Qt.isEmpty (m_data_edit w)); [cbn; lia|].
  destruct (fst (validation w)); [|cbn; lia].
  cbn [m_data_preview set_data_preview]. apply length_preview_text.
Qed.

End PreviewLength.

(** ** Integer input: the bytes of any value *)

Lemma land_high_byte_set (v : Z) : 256 <= v <= 65535 -> Z.land v 65280 <> 0.
Proof.
  intros Hv E.
  assert (Hlo : 8 <= Z.log2 v).
  { change 8 with (Z.log2 256). apply Z.log2_le_mono. lia. }
  assert (Hhi : Z.log2 v < 16).
  { apply Z.log2_lt_pow2; [lia|]. change (2 ^ 16) with 65536. lia. }
  assert (B : Z.testbit (Z.land v 65280) (Z.log2 v) = true).
  { rewrite Z.land_spec, Z.bit_log2 by lia. cbn [andb].
    assert (C : Z.log2 v = 8 \/ Z.log2 v = 9 \/ Z.log2 v = 10 \/ Z.log2 v = 11
                \/ Z.log2 v = 12 \/ Z.log2 v = 13 \/ Z.log2 v = 14 \/ Z.log2 v = 15)
      by lia.
    destruct C as [C|[C|[C|[C|[C|[C|[C|C]]]]]]]; rewrite C; reflexivity. }
  rewrite E, Z.bits_0 in B. discriminate B.
Qed.

Lemma bytes_to_Z_digits (b : QByteArray) :
  bytes_to_Z b = digits_to_Z 0 (byte_digits b).
Proof.
  unfold bytes_to_Z, digits_to_Z, byte_digits. generalize 0 as acc.
  induction b as [|x b IH]; intros acc; [reflexivity|].
  cbn [fold_left flat_map app]. rewrite IH. f_equal.
  pose proof (Z.div_mod x 16). lia.
Qed.

(** The digits printed for a value of the type, negative ones included:
    they denote the value modulo two to the width. *)
Lemma hex_of_value_wrapped (combo_id : InputID) (v : Z) :
  is_integer_input combo_id = true ->
  input_min combo_id <= v <= input_max combo_id ->
  exists ds,
    hex_of_value combo_id v = map Qt.hex_upper ds
    /\ List.length ds = input_digits combo_id
    /\ Forall digit16 ds
    /\ digits_to_Z 0 ds = v mod 2 ^ (4 * Z.of_nat (input_digits combo_id)).
Proof.
  intros Hi Hv.
  assert (P : forall width bits,
             (1 <= width <= 16)%nat -> 16 ^ Z.of_nat width = 2 ^ bits ->
             exists ds,
               Fmt.format_0X width (Int.wrap bits v) = map Qt.hex_upper ds
               /\ List.length ds = width /\ Forall digit16 ds
               /\ digits_to_Z 0 ds = v mod 2 ^ bits).
  { intros width bits Hw He. unfold Int.wrap.
    apply (padded_digits width (v mod 2 ^ bits) Qt.hex_upper eq_refl Hw).
    rewrite He. apply Z.mod_pos_bound. rewrite <- He. apply Z.pow_pos_nonneg; lia. }
  assert (Q : forall width,
             (1 <= width <= 16)%nat -> 0 <= v < 16 ^ Z.of_nat width ->
             exists ds,
               Fmt.format_0X width v = map Qt.hex_upper ds
               /\ List.length ds = width /\ Forall digit16 ds
               /\ digits_to_Z 0 ds = v mod 16 ^ Z.of_nat width).
  { intros width Hw Hb. rewrite (Z.mod_small v) by exact Hb.
    apply (padded_digits width v Qt.hex_upper eq_refl Hw Hb). }
  destruct combo_id; try discriminate Hi;
    cbn [hex_of_value input_digits input_max input_min] in *.
  - apply (P 2%nat 8); [lia|reflexivity].
  - apply (P 4%nat 16); [lia|reflexivity].
  - apply (P 8%nat 32); [lia|reflexivity].
  - apply (Q 2%nat); [lia|unfold Int.u8_max in Hv; change (16 ^ Z.of_nat 2) with 256; lia].
  - apply (Q 4%nat); [lia|unfold Int.u16_max in Hv; change (16 ^ Z.of_nat 4) with 65536; lia].
  - apply (Q 8%nat); [lia|unfold Int.u32_max in Hv;
                      change (16 ^ Z.of_nat 8) with 4294967296; lia].
Qed.

Section IntegerBytes.

Context {FP : FloatingPoint}.

Lemma failed_validation_reads_empty (w : MemoryWidget) :
  fst (validation w) = false ->
  GetInputData (ValidateAndPreviewInputValue w) = [].
Proof.
  intros Hbad. apply GetInputData_no_preview.
  rewrite ValidateAndPreviewInputValue_eq, Hbad.
  destruct (Qt.isEmpty (m_data_edit w)); reflexivity.
Qed.

(** The switch accepts a converted value exactly when it is a value of the
    type. *)
Lemma validation_of_converted (w : MemoryWidget) (v : Z) :
  is_integer_input (m_input_combo w) = true ->
  convert (m_input_combo w) (stripped_input w) (radix_for w) = (v, true) ->
  (input_min (m_input_combo w) <= v <= input_max (m_input_combo w) ->
   validation w = (true, hex_of_value (m_input_combo w) v))
  /\ (~ input_min (m_input_combo w) <= v <= input_max (m_input_combo w) ->
      fst (validation w) = false
      /\ (m_input_combo w = S8 \/ m_input_combo w = U8)).
Proof.
  intros Hi Hc. unfold validation.
  destruct (m_input_combo w); try discriminate Hi;
    cbn [convert switch_combo_id input_min input_max] in *; rewrite Hc.
  - (* S8 *)
    split; intros Hr.
    + replace ((Int.s8_min <=? v) && (v <=? Int.s8_max)) with true; [reflexivity|].
      symmetry. apply andb_true_iff. split; apply Z.leb_le; lia.
    + replace ((Int.s8_min <=? v) && (v <=? Int.s8_max)) with false;
        [split; [reflexivity|left; reflexivity]|].
      symmetry. apply andb_false_iff.
      destruct (Z_le_gt_dec Int.s8_min v); [right|left]; apply Z.leb_gt; lia.
  - split; intros Hr; [reflexivity|].
    apply checked_ok in Hc. tauto.
  - split; intros Hr; [reflexivity|].
    apply checked_ok in Hc. tauto.
  - (* U8 *)
    pose proof Hc as Hc'. apply checked_ok in Hc'. destruct Hc' as [_ R].
    unfold Int.u16_max, Int.u8_max in *.
    split; intros Hr.
    + rewrite land_high_byte by lia. reflexivity.
    + replace (Z.land v 65280 =? 0) with false;
        [split; [reflexivity|right; reflexivity]|].
      symmetry. apply Z.eqb_neq. apply land_high_byte_set. lia.
  - split; intros Hr; [reflexivity|].
    apply checked_ok in Hc. unfold Int.u16_max in *. tauto.
  - split; intros Hr; [reflexivity|].
    apply checked_ok in Hc. tauto.
Qed.

(** X6: when the conversion of an integer input type succeeds with a value
    of the type, negative values included, [GetInputData] returns as many
    bytes as the type is wide, most significant first, denoting the value
    modulo two to the width (two's complement); a converted value outside
    the type, which only the two 8-bit types can see, gives no bytes. *)
Theorem integer_bytes_big_endian (w : MemoryWidget) (v : Z) :
  is_integer_input (m_input_combo w) = true ->
  m_data_edit w <> [] ->
  convert (m_input_combo w) (stripped_input w) (radix_for w) = (v, true) ->
  (input_min (m_input_combo w) <= v <= input_max (m_input_combo w) ->
   (2 * List.length (GetInputData (ValidateAndPreviewInputValue w))
    = input_digits (m_input_combo w))%nat
   /\ Forall is_byte (GetInputData (ValidateAndPreviewInputValue w))
   /\ bytes_to_Z (GetInputData (ValidateAndPreviewInputValue w))
      = v mod 2 ^ (4 * Z.of_nat (input_digits (m_input_combo w))))
  /\ (~ input_min (m_input_combo w) <= v <= input_max (m_input_combo w) ->
      GetInputData (ValidateAndPreviewInputValue w) = []
      /\ (m_input_combo w = S8 \/ m_input_combo w = U8)).
Proof.
  intros Hi Hne Hc.
  destruct (validation_of_converted w v Hi Hc) as [Hin Hout]. split.
  - intros Hr. specialize (Hin Hr).
    destruct (hex_of_value_wrapped _ v Hi Hr) as (ds & E & L & F & V).
    assert (Hn : hex_of_value (m_input_combo w) v <> []).
    { rewrite E. destruct ds; [|discriminate].
      destruct (m_input_combo w); try discriminate Hi; discriminate L. }
    rewrite (GetInputData_of_value w v Hi Hne Hn Hin).
    unfold encode. rewrite E.
    rewrite (bytes_of_preview_hex _ ds (hex_text_upper ds F))
      by (rewrite length_map, L; destruct (m_input_combo w); cbn; lia).
    destruct (even_digits_bytes (input_digits (m_input_combo w) / 2) ds)
      as (b & Eb & Fb & Lb).
    { rewrite L. destruct (m_input_combo w); try discriminate Hi; reflexivity. }
    { exact F. }
    rewrite Eb, pair_up_byte_digits. rewrite bytes_to_Z_digits, <- Eb, V.
    repeat split; try assumption.
    rewrite Lb. destruct (m_input_combo w); try discriminate Hi; reflexivity.
  - intros Hr. destruct (Hout Hr) as [Hbad Hid]. split; [|exact Hid].
    apply failed_validation_reads_empty, Hbad.
Qed.

End IntegerBytes.

Lemma integer_bytes_big_endian_witness :
  GetInputData (@ValidateAndPreviewInputValue integers_only (widget_with "" "" "-2" false S16))
  = [255; 254]
  /\ bytes_to_Z
       (GetInputData
          (@ValidateAndPreviewInputValue integers_only (widget_with "" "" "-2" false S16)))
     = -2 mod 2 ^ (4 * Z.of_nat (input_digits S16)).
Proof.
  assert (Hne : m_data_edit (widget_with "" "" "-2" false S16) <> []) by discriminate.
  assert (Hr : input_min S16 <= -2 <= input_max S16)
    by (unfold input_min, input_max, Int.s16_min, Int.s16_max; lia).
  pose proof (@integer_bytes_big_endian integers_only
                (widget_with "" "" "-2" false S16) (-2) eq_refl Hne eq_refl)
    as [H _].
  destruct (H Hr) as (_ & _ & Hv).
  split; [reflexivity|exact Hv].
Defined.

(** ** The Hex box and the radix of the conversion *)

(** A conversion depends on the radix only through the value of the digits
    after white space and sign. *)
Lemma convert_by_magnitude (combo_id : InputID) (s : QString) (b1 b2 : Z) :
  Qt.magnitude b1 (unsigned_text s) = Qt.magnitude b2 (unsigned_text s) ->
  convert combo_id s b1 = convert combo_id s b2.
Proof.
  intros H.
  assert (Hs : Qt.strtoll s b1 = Qt.strtoll s b2).
  { unfold Qt.strtoll. unfold unsigned_text in H.
    destruct (Qt.trimmed s) as [|c r]; [reflexivity|].
    destruct (c =? 45); cbn [orb] in H; [rewrite H; reflexivity|].
    destruct (c =? 43); cbn [orb] in H; exact H. }
  assert (Hu : Qt.strtoull s b1 = Qt.strtoull s b2).
  { unfold Qt.strtoull. unfold unsigned_text in H.
    destruct (Qt.trimmed s) as [|c r]; [reflexivity|].
    destruct (c =? 45); cbn [orb] in H; [reflexivity|].
    destruct (c =? 43); cbn [orb] in H; exact H. }
  destruct combo_id; cbn [convert];
    unfold Qt.toShort, Qt.toUShort, Qt.toInt, Qt.toUInt; rewrite ?Hs, ?Hu; reflexivity.
Qed.

Section RadixSelection.

Context {FP : FloatingPoint}.

(** For an integer input type the switch works on the text without its
    spaces, in the radix the Hex box selects. *)
Lemma integer_text_and_radix (w : MemoryWidget) :
  is_integer_input (m_input_combo w) = true ->
  stripped_input w = Qt.remove 32 (m_data_edit w)
  /\ radix_for w = if m_base_check_isChecked w then 16 else 0.
Proof.
  intros Hi. unfold stripped_input, radix_for. rewrite Hi, andb_true_r.
  destruct (m_input_combo w); try discriminate Hi; split; reflexivity.
Qed.

Lemma validation_of_unconverted (w : MemoryWidget) (v : Z) :
  is_integer_input (m_input_combo w) = true ->
  convert (m_input_combo w) (stripped_input w) (radix_for w) = (v, false) ->
  fst (validation w) = false.
Proof.
  intros Hi Hc. unfold validation.
  destruct (m_input_combo w); try discriminate Hi;
    cbn [convert switch_combo_id] in *; rewrite Hc; reflexivity.
Qed.

Lemma failed_validation_no_preview (w : MemoryWidget) :
  fst (validation w) = false ->
  m_data_preview (ValidateAndPreviewInputValue w) = [].
Proof.
  intros Hbad. rewrite ValidateAndPreviewInputValue_eq, Hbad.
  destruct (Qt.isEmpty (m_data_edit w)); reflexivity.
Qed.

(** C3, as the code has it: for the six integer input types the Hex box is
    enabled and the text, without its spaces, goes through the conversion
    of the type in base 16 when the box is ticked and in base 0 when it is
    not; a converted value of the type is previewed and returned as its
    bytes, a failed conversion or a value outside the type gives nothing.
    For FLOAT, DOUBLE, ASCII and HEXSTR the box is disabled and its state
    changes neither the preview nor the bytes.  Base 0 is the C convention:
    after white space and sign, digits that do not begin with [0] are read
    in base 10, digits after [0x] or [0X] in base 16, other digits after a
    leading [0] in base 8. *)
Theorem base_check_selects_radix (w : MemoryWidget) :
  (is_integer_input (m_input_combo w) = true ->
   m_base_check_isEnabled (ValidateAndPreviewInputValue w) = true
   /\ (m_data_edit w <> [] ->
       forall (v : Z) (ok : bool),
         convert (m_input_combo w) (Qt.remove 32 (m_data_edit w))
           (if m_base_check_isChecked w then 16 else 0) = (v, ok) ->
         (ok = true ->
          input_min (m_input_combo w) <= v <= input_max (m_input_combo w) ->
          m_data_preview (ValidateAndPreviewInputValue w)
          = preview_text (hex_of_value (m_input_combo w) v)
          /\ GetInputData (ValidateAndPreviewInputValue w)
             = encode (m_input_combo w) v)
         /\ (ok = false
             \/ ~ input_min (m_input_combo w) <= v <= input_max (m_input_combo w) ->
             m_data_preview (ValidateAndPreviewInputValue w) = []
             /\ GetInputData (ValidateAndPreviewInputValue w) = [])))
  /\ (is_integer_input (m_input_combo w) = false ->
      m_base_check_isEnabled (ValidateAndPreviewInputValue w) = false
      /\ forall b,
          m_data_preview (ValidateAndPreviewInputValue (set_base_check_checked b w))
          = m_data_preview (ValidateAndPreviewInputValue w)
          /\ GetInputData (ValidateAndPreviewInputValue (set_base_check_checked b w))
             = GetInputData (ValidateAndPreviewInputValue w))
  /\ (forall combo_id s c r,
        unsigned_text s = c :: r -> c <> 48 ->
        convert combo_id s 0 = convert combo_id s 10)
  /\ (forall combo_id s x r,
        unsigned_text s = 48 :: x :: r -> x = 120 \/ x = 88 ->
        convert combo_id s 0 = convert combo_id s 16)
  /\ (forall combo_id s r,
        unsigned_text s = 48 :: r ->
        (forall x r', r = x :: r' -> x <> 120 /\ x <> 88) ->
        convert combo_id s 0 = convert combo_id s 8).
Proof.
  pose proof base_zero_convention as (B10 & B16 & B8 & B0).
  split; [|split; [|split; [|split]]].
  - intros Hi. split; [rewrite ValidateAndPreviewInputValue_enabled; exact Hi|].
    intros Hne v ok Hc.
    destruct (integer_text_and_radix w Hi) as [Et Er]. rewrite <- Et, <- Er in Hc.
    split.
    + intros -> Hr.
      destruct (validation_of_converted w v Hi Hc) as [Hin _]. specialize (Hin Hr).
      split; [rewrite (validated_preview w _ Hne Hin); reflexivity|].
      apply GetInputData_of_value; try assumption.
      destruct (hex_of_value_wrapped _ v Hi Hr) as (ds & E & L & _).
      rewrite E. destruct ds; [|discriminate].
      destruct (m_input_combo w); try discriminate Hi; discriminate L.
    + intros Hbad.
      assert (Hv : fst (validation w) = false).
      { destruct ok.
        - destruct Hbad as [Hf|Hr]; [discriminate Hf|].
          destruct (validation_of_converted w v Hi Hc) as [_ Hout].
          exact (proj1 (Hout Hr)).
        - apply (validation_of_unconverted w v Hi Hc). }
      split; [apply failed_validation_no_preview, Hv
             |apply failed_validation_reads_empty, Hv].
  - intros Hi. split; [rewrite ValidateAndPreviewInputValue_enabled; exact Hi|].
    intros b. rewrite (unchecked_irrelevant b w Hi). split; reflexivity.
  - intros combo_id s c r E Hc. apply convert_by_magnitude. rewrite E. apply B10, Hc.
  - intros combo_id s x r E Hx. apply convert_by_magnitude. rewrite E. apply B16, Hx.
  - intros combo_id s r E Hx. apply convert_by_magnitude. rewrite E.
    destruct r as [|x r']; [exact B0|].
    destruct (Hx x r' eq_refl) as [H1 H2]. apply B8; assumption.
Qed.

End RadixSelection.

Lemma base_check_selects_radix_witness :
  (m_base_check_isEnabled
     (@ValidateAndPreviewInputValue integers_only (widget_with "" "" "0 31" false U8)) = true
   /\ m_data_preview
        (@ValidateAndPreviewInputValue integers_only (widget_with "" "" "0 31" false U8))
      = QStringLiteral "19"
   /\ GetInputData
        (@ValidateAndPreviewInputValue integers_only (widget_with "" "" "0 31" false U8))
      = [25])
  /\ m_data_preview
       (@ValidateAndPreviewInputValue integers_only (widget_with "" "" "100" true U8))
     = []
  /\ m_base_check_isEnabled
       (@ValidateAndPreviewInputValue integers_only long_hex_input) = false
  /\ convert S16 (QStringLiteral " -0x1f") 0 = convert S16 (QStringLiteral " -0x1f") 16.
Proof.
  pose proof (@base_check_selects_radix integers_only (widget_with "" "" "0 31" false U8))
    as (H1 & _).
  destruct (H1 eq_refl) as [He Hv].
  assert (Hne : m_data_edit (widget_with "" "" "0 31" false U8) <> []) by discriminate.
  destruct (Hv Hne 25 true eq_refl) as [Hin _].
  assert (Hr : input_min U8 <= 25 <= input_max U8)
    by (unfold input_min, input_max, Int.u8_max; lia).
  destruct (Hin eq_refl Hr) as [Hp Hg].
  pose proof (@base_check_selects_radix integers_only (widget_with "" "" "100" true U8))
    as (H2 & _).
  assert (Hne2 : m_data_edit (widget_with "" "" "100" true U8) <> []) by discriminate.
  destruct (proj2 (H2 eq_refl) Hne2 256 true eq_refl) as [_ Hout].
  assert (Hr2 : ~ input_min U8 <= 256 <= input_max U8)
    by (unfold input_min, input_max, Int.u8_max; lia).
  pose proof (@base_check_selects_radix integers_only long_hex_input)
    as (_ & H3 & _ & H16 & _).
  split; [split; [exact He|split; [exact Hp|exact Hg]]|].
  split; [exact (proj1 (Hout (or_intror Hr2)))|].
  split; [exact (proj1 (H3 eq_refl))|].
  apply (H16 S16 (QStringLiteral " -0x1f") 120 (QStringLiteral "1f") eq_refl).
  left. reflexivity.
Defined.

(** ** Floating-point input: the bytes of the bit pattern *)

Lemma format_0X_bytes (width : nat) (bits v : Z) :
  (1 <= width <= 8)%nat -> 16 ^ Z.of_nat (2 * width) = 2 ^ bits ->
  exists b,
    bytes_of_preview (Fmt.format_0X (2 * width) (Int.wrap bits v)) = b
    /\ Fmt.format_0X (2 * width) (Int.wrap bits v) <> []
    /\ List.length b = width
    /\ Forall is_byte b
    /\ bytes_to_Z b = Int.wrap bits v.
Proof.
  intros Hw He. unfold Int.wrap.
  destruct (padded_digits (2 * width) (v mod 2 ^ bits) Qt.hex_upper eq_refl)
    as (ds & E & L & F & V).
  { lia. }
  { rewrite He. apply Z.mod_pos_bound. rewrite <- He. apply Z.pow_pos_nonneg; lia. }
  unfold Fmt.format_0X. rewrite E.
  destruct (even_digits_bytes width ds L F) as (b & Eb & Fb & Lb).
  exists b. split; [|split; [|split; [|split]]]; try assumption.
  - rewrite (bytes_of_preview_hex _ ds (hex_text_upper ds F))
      by (rewrite length_map; lia).
    rewrite Eb. apply pair_up_byte_digits.
  - destruct ds; [cbn in L; lia|discriminate].
  - rewrite bytes_to_Z_digits, <- Eb. exact V.
Qed.

Section FloatBytes.

Context {FP : FloatingPoint}.

(** X7: when the text of a FLOAT or DOUBLE input converts, [GetInputData]
    returns the four or eight bytes of its bit pattern, most significant
    first; the sixteen digits of a double are exactly at the limit of the
    preview and are not truncated.  When the conversion fails there are no
    bytes. *)
Theorem floating_point_bytes (w : MemoryWidget) :
  m_data_edit w <> [] ->
  (m_input_combo w = FLOAT ->
   (snd (toFloat (stripped_input w)) = true ->
    List.length (GetInputData (ValidateAndPreviewInputValue w)) = 4%nat
    /\ Forall is_byte (GetInputData (ValidateAndPreviewInputValue w))
    /\ bytes_to_Z (GetInputData (ValidateAndPreviewInputValue w))
       = Int.to_u32 (BitCast_u32 (fst (toFloat (stripped_input w)))))
   /\ (snd (toFloat (stripped_input w)) = false ->
       GetInputData (ValidateAndPreviewInputValue w) = []))
  /\ (m_input_combo w = DOUBLE ->
      (snd (toDouble (stripped_input w)) = true ->
       List.length (GetInputData (ValidateAndPreviewInputValue w)) = 8%nat
       /\ Forall is_byte (GetInputData (ValidateAndPreviewInputValue w))
       /\ bytes_to_Z (GetInputData (ValidateAndPreviewInputValue w))
          = Int.to_u64 (BitCast_u64 (fst (toDouble (stripped_input w)))))
      /\ (snd (toDouble (stripped_input w)) = false ->
          GetInputData (ValidateAndPreviewInputValue w) = [])).
Proof.
  intros Hne. split; intros Hc.
  - assert (Hv : validation w
                 = let '(value_float, good) := toFloat (stripped_input w) in
                   if good
                   then (good, Fmt.format_0X 8 (Int.to_u32 (BitCast_u32 value_float)))
                   else (good, [])).
    { unfold validation. rewrite Hc. reflexivity. }
    destruct (toFloat (stripped_input w)) as [f good]. cbn [fst snd]. split.
    + intros ->.
      destruct (format_0X_bytes 4 32 (BitCast_u32 f)) as (b & Eb & Hn & L & F & V);
        [lia|reflexivity|].
      assert (Ha : m_input_combo w <> ASCII) by (rewrite Hc; discriminate).
      assert (Hh : m_input_combo w <> HEXSTR) by (rewrite Hc; discriminate).
      rewrite (GetInputData_from_preview w
                 (Fmt.format_0X (2 * 4) (Int.wrap 32 (BitCast_u32 f))) Ha Hh Hne Hn Hv).
      rewrite Eb. repeat split; assumption.
    + intros ->. apply failed_validation_reads_empty. rewrite Hv. reflexivity.
  - assert (Hv : validation w
                 = let '(value_double, good) := toDouble (stripped_input w) in
                   if good
                   then (good, Fmt.format_0X 16 (Int.to_u64 (BitCast_u64 value_double)))
                   else (good, [])).
    { unfold validation. rewrite Hc. reflexivity. }
    destruct (toDouble (stripped_input w)) as [f good]. cbn [fst snd]. split.
    + intros ->.
      destruct (format_0X_bytes 8 64 (BitCast_u64 f)) as (b & Eb & Hn & L & F & V);
        [lia|reflexivity|].
      assert (Ha : m_input_combo w <> ASCII) by (rewrite Hc; discriminate).
      assert (Hh : m_input_combo w <> HEXSTR) by (rewrite Hc; discriminate).
      rewrite (GetInputData_from_preview w
                 (Fmt.format_0X (2 * 8) (Int.wrap 64 (BitCast_u64 f))) Ha Hh Hne Hn Hv).
      rewrite Eb. repeat split; assumption.
    + intros ->. apply failed_validation_reads_empty. rewrite Hv. reflexivity.
Qed.

End FloatBytes.

Lemma floating_point_bytes_witness :
  GetInputData (@ValidateAndPreviewInputValue two_literals (widget_with "" "" "1.5" false FLOAT))
  = [63; 192; 0; 0]
  /\ List.length
       (GetInputData
          (@ValidateAndPreviewInputValue two_literals (widget_with "" "" "- 2" false DOUBLE)))
     = 8%nat.
Proof.
  assert (H2 : m_data_edit (widget_with "" "" "- 2" false DOUBLE) <> []) by discriminate.
  pose proof (@floating_point_bytes two_literals _ H2) as [_ Hd].
  destruct (Hd eq_refl) as [Hg _]. destruct (Hg eq_refl) as [Hl _].
  split; [reflexivity|exact Hl].
Defined.

(** ** Byte strings *)

Lemma is_hex_match_parity (n : nat) :
  forall cs ds,
    (List.length cs <= n)%nat -> hex_text cs ds ->
    is_hex_match cs = Nat.even (List.length cs).
Proof.
  induction n as [|n IH]; intros cs ds L H.
  - destruct cs; [reflexivity|cbn in L; lia].
  - destruct H as [|a d cs ds Ha H]; [reflexivity|].
    apply spells_hex_char in Ha.
    destruct H as [|b e cs ds Hb H].
    + cbn [is_hex_match List.length Nat.even].
      pose proof (hc_space a d Ha) as Hs.
      destruct (Z.eqb_spec a 10) as [->|_]; [discriminate Hs|reflexivity].
    + apply spells_hex_char in Hb.
      cbn [is_hex_match List.length Nat.even].
      rewrite (hc_hex a d Ha), (hc_hex b e Hb). cbn [andb].
      apply (IH cs ds); [cbn [List.length] in L; lia|exact H].
Qed.

Section ByteStrings.

Context {FP : FloatingPoint}.

Lemma validation_hexstr_eq (w : MemoryWidget) :
  m_input_combo w = HEXSTR ->
  validation w
  = if is_hex_match (Qt.remove 32 (m_data_edit w))
    then (true, Qt.toHex (Qt.fromHex (Qt.toUtf8 (Qt.remove 32 (m_data_edit w)))))
    else (false, []).
Proof.
  intros Hc. unfold validation, stripped_input. rewrite Hc.
  cbn [InputID_eqb negb switch_combo_id].
  destruct (is_hex_match _); reflexivity.
Qed.

(** X8: a byte string round-trips: for every non-empty sequence of bytes,
    typing its hexadecimal digits, in either case and with spaces
    anywhere, validates as HEXSTR and [GetInputData] returns exactly those
    bytes. *)
Theorem byte_string_round_trip (w : MemoryWidget) (b : QByteArray) :
  m_input_combo w = HEXSTR ->
  b <> [] -> Forall is_byte b ->
  hex_text (Qt.remove 32 (m_data_edit w)) (byte_digits b) ->
  fst (validation w) = true
  /\ GetInputData (ValidateAndPreviewInputValue w) = b.
Proof.
  intros Hc Hb Fb Ht.
  assert (Hlen : List.length (Qt.remove 32 (m_data_edit w)) = (2 * List.length b)%nat).
  { rewrite (Forall2_length Ht). unfold byte_digits.
    clear. induction b as [|x b IH]; [reflexivity|]. cbn [flat_map app List.length].
    rewrite IH. lia. }
  assert (Hm : is_hex_match (Qt.remove 32 (m_data_edit w)) = true).
  { rewrite (is_hex_match_parity _ _ _ (Nat.le_refl _) Ht), Hlen.
    clear. induction (List.length b) as [|n IH]; [reflexivity|].
    replace (2 * S n)%nat with (S (S (2 * n))) by lia. exact IH. }
  assert (Hne : m_data_edit w <> []).
  { intros E. rewrite E in Hlen. cbn in Hlen. destruct b; [contradiction|cbn in Hlen; lia]. }
  pose proof (is_hex_match_ascii _ _ (Nat.le_refl _) Hm) as A.
  assert (Hbytes : Qt.fromHex (Qt.toUtf8 (m_data_edit w)) = b).
  { rewrite (toUtf8_ascii _ (is_ascii_remove_blank _ A)).
    unfold Qt.fromHex. rewrite <- nibbles_remove_blank.
    rewrite (nibbles_hex_text _ _ Ht). apply pair_up_byte_digits. }
  pose proof (validation_hexstr_eq w Hc) as Hv. rewrite Hm in Hv.
  split; [rewrite Hv; reflexivity|].
  rewrite (GetInputData_hexstr w _ Hc Hne) with (2 := Hv); [exact Hbytes|].
  rewrite (toUtf8_ascii _ A). unfold Qt.fromHex.
  rewrite (nibbles_hex_text _ _ Ht), pair_up_byte_digits.
  destruct b; [contradiction|discriminate].
Qed.

(** X9: an odd number of hexadecimal digits is no byte string: the input
    is rejected and there are no bytes. *)
Theorem byte_string_odd_digits_rejected (w : MemoryWidget) (ds : list Z) :
  m_input_combo w = HEXSTR ->
  hex_text (Qt.remove 32 (m_data_edit w)) ds ->
  Nat.odd (List.length ds) = true ->
  fst (validation w) = false
  /\ GetInputData (ValidateAndPreviewInputValue w) = [].
Proof.
  intros Hc Ht Ho.
  assert (Hm : is_hex_match (Qt.remove 32 (m_data_edit w)) = false).
  { rewrite (is_hex_match_parity _ _ _ (Nat.le_refl _) Ht), (Forall2_length Ht).
    unfold Nat.odd in Ho. destruct (Nat.even (List.length ds)); [discriminate Ho|reflexivity]. }
  pose proof (validation_hexstr_eq w Hc) as Hv. rewrite Hm in Hv.
  assert (Hbad : fst (validation w) = false) by (rewrite Hv; reflexivity).
  split; [exact Hbad|apply failed_validation_reads_empty, Hbad].
Qed.

Lemma remove_blank_twice (s : QString) : Qt.remove 32 (Qt.remove 32 s) = Qt.remove 32 s.
Proof.
  unfold Qt.remove. induction s as [|c s IH]; [reflexivity|].
  cbn [filter]. destruct (negb (c =? 32)) eqn:E; [|exact IH].
  cbn [filter]. rewrite E, IH. reflexivity.
Qed.

(** X10: spaces in the value text do not count, except under ASCII: for
    every other input type, removing the spaces from the text (when that
    leaves something) changes neither the preview nor the bytes. *)
Theorem spaces_in_value_ignored (w : MemoryWidget) :
  m_input_combo w <> ASCII ->
  Qt.remove 32 (m_data_edit w) <> [] ->
  m_data_preview
    (ValidateAndPreviewInputValue (set_data_edit (Qt.remove 32 (m_data_edit w)) w))
  = m_data_preview (ValidateAndPreviewInputValue w)
  /\ GetInputData
       (ValidateAndPreviewInputValue (set_data_edit (Qt.remove 32 (m_data_edit w)) w))
     = GetInputData (ValidateAndPreviewInputValue w).
Proof.
  intros Ha Hs.
  set (w' := set_data_edit (Qt.remove 32 (m_data_edit w)) w).
  assert (Hne : m_data_edit w <> []) by (intros E; rewrite E in Hs; contradiction).
  assert (Hna : InputID_eqb (m_input_combo w) ASCII = false)
    by (destruct (m_input_combo w); try reflexivity; contradiction).
  assert (Hv : validation w' = validation w).
  { unfold validation, stripped_input, radix_for, w'.
    cbn [m_input_combo m_data_edit m_base_check_isChecked set_data_edit].
    rewrite Hna. cbn [negb]. rewrite remove_blank_twice. reflexivity. }
  assert (Hp : m_data_preview (ValidateAndPreviewInputValue w')
               = m_data_preview (ValidateAndPreviewInputValue w)).
  { rewrite !ValidateAndPreviewInputValue_eq, Hv.
    change (m_data_edit w') with (Qt.remove 32 (m_data_edit w)).
    destruct (Qt.remove 32 (m_data_edit w)); [contradiction|].
    destruct (m_data_edit w); [contradiction|]. cbn [Qt.isEmpty].
    destruct (fst (validation w)); reflexivity. }
  split; [exact Hp|].
  destruct (ValidateAndPreviewInputValue_shape w) as [p E].
  destruct (ValidateAndPreviewInputValue_shape w') as [p' E'].
  rewrite E in Hp. rewrite E' in Hp. cbn [m_data_preview set_data_preview] in Hp.
  rewrite E, E'. unfold GetInputData.
  cbn [m_data_preview m_input_combo m_data_edit set_data_preview cleared
       set_base_check_enabled]. subst p'.
  change (m_input_combo w') with (m_input_combo w).
  change (m_data_edit w') with (Qt.remove 32 (m_data_edit w)).
  destruct p as [|c p]; [reflexivity|]. cbn [Qt.isEmpty].
  destruct (m_input_combo w) eqn:Hc; try reflexivity; try contradiction.
  (* HEXSTR: the preview is not empty, so the text matched *)
  assert (Hm : is_hex_match (Qt.remove 32 (m_data_edit w)) = true).
  { pose proof (ValidateAndPreviewInputValue_eq w) as Q. rewrite E in Q.
    pose proof (validation_hexstr_eq w Hc) as Hx.
    destruct (is_hex_match (Qt.remove 32 (m_data_edit w))); [reflexivity|].
    rewrite Hx in Q. cbn [fst] in Q.
    destruct (Qt.isEmpty (m_data_edit w)); discriminate Q. }
  pose proof (is_hex_match_ascii _ _ (Nat.le_refl _) Hm) as A.
  rewrite (toUtf8_ascii _ A), (toUtf8_ascii _ (is_ascii_remove_blank _ A)).
  unfold Qt.fromHex. rewrite nibbles_remove_blank. reflexivity.
Qed.

End ByteStrings.

Lemma byte_string_round_trip_witness :
  fst (@validation integers_only (widget_with "" "" "DE ad Be EF" false HEXSTR)) = true
  /\ GetInputData
       (@ValidateAndPreviewInputValue integers_only
          (widget_with "" "" "DE ad Be EF" false HEXSTR))
     = [222; 173; 190; 239].
Proof.
  apply (@byte_string_round_trip integers_only
           (widget_with "" "" "DE ad Be EF" false HEXSTR) [222; 173; 190; 239]).
  - reflexivity.
  - discriminate.
  - repeat constructor; unfold is_byte; lia.
  - change (hex_text (QStringLiteral "DEadBeEF") [13; 14; 10; 13; 11; 14; 14; 15]).
    repeat (apply Forall2_cons;
            [split; [unfold digit16; lia|first [left; reflexivity|right; reflexivity]]|]).
    apply Forall2_nil.
Defined.

Lemma byte_string_odd_digits_rejected_witness :
  fst (@validation integers_only (widget_with "" "" "ABC" false HEXSTR)) = false
  /\ GetInputData
       (@ValidateAndPreviewInputValue integers_only (widget_with "" "" "ABC" false HEXSTR))
     = [].
Proof.
  apply (@byte_string_odd_digits_rejected integers_only
           (widget_with "" "" "ABC" false HEXSTR) [10; 11; 12]).
  - reflexivity.
  - change (hex_text (QStringLiteral "ABC") [10; 11; 12]).
    repeat (apply Forall2_cons;
            [split; [unfold digit16; lia|first [left; reflexivity|right; reflexivity]]|]).
    apply Forall2_nil.
  - reflexivity.
Defined.

Lemma spaces_in_value_ignored_witness :
  m_data_preview
    (@ValidateAndPreviewInputValue integers_only (widget_with "" "" "12 34" true U16))
  = m_data_preview
      (@ValidateAndPreviewInputValue integers_only (widget_with "" "" "1 2 3 4" true U16))
  /\ GetInputData
       (@ValidateAndPreviewInputValue integers_only (widget_with "" "" "1 2 3 4" true U16))
     = [18; 52].
Proof.
  assert (Ha : m_input_combo (widget_with "" "" "1 2 3 4" true U16) <> ASCII)
    by discriminate.
  assert (Hs : Qt.remove 32 (m_data_edit (widget_with "" "" "1 2 3 4" true U16)) <> [])
    by discriminate.
  pose proof (@spaces_in_value_ignored integers_only
                (widget_with "" "" "1 2 3 4" true U16) Ha Hs) as [Hp _].
  split; [|reflexivity]. rewrite <- Hp. reflexivity.
Defined.

(** ** [FindValue]: what it touches, and finding again *)

Section FindAgain.

Context {accessors : Accessors}.

Lemma FindValue_cases (next : bool) (w : MemoryWidget) :
  FindValue next w = set_result_label (Qt.tr "Bad address provided.") w
  \/ FindValue next w = set_result_label (Qt.tr "Bad offset provided.") w
  \/ FindValue next w = set_result_label (Qt.tr "Bad Value Given") w
  \/ FindValue next w
     = set_result_label (Qt.tr "No Match") (record_search (search_call next w) w)
  \/ exists r,
      Search (search_start next w) (GetInputData w)
        (Int.to_u32 (Qt.length (GetInputData w))) next = Some r
      /\ FindValue next w
         = memory_view_SetAddress (Int.to_u32 r)
             (set_search_offset []
                (set_search_address (Qt.arg_hex (Int.to_u32 r) 8 48)
                   (set_result_label (Qt.tr "Match Found")
                      (record_search (search_call next w) w)))).
Proof.
  unfold FindValue, search_call, search_start.
  destruct (is_good_address (GetTargetAddress w)); cbn [negb]; [|tauto].
  destruct (is_good_offset (GetTargetAddress w)); cbn [negb]; [|tauto].
  destruct (Qt.isEmpty (GetInputData w)); [tauto|].
  destruct (Search _ _ _ _) as [r|] eqn:E; [|tauto].
  right. right. right. right. exists r. split; reflexivity.
Qed.

(** X11: a find never touches the value side of the panel (edit box,
    preview, input type, Hex box), so the bytes searched for stay the
    same; and unless it reports a match it leaves the two search boxes and
    the view where they were. *)
Theorem FindValue_frame (next : bool) (w : MemoryWidget) :
  m_data_edit (FindValue next w) = m_data_edit w
  /\ m_data_preview (FindValue next w) = m_data_preview w
  /\ m_input_combo (FindValue next w) = m_input_combo w
  /\ m_base_check_isChecked (FindValue next w) = m_base_check_isChecked w
  /\ m_base_check_isEnabled (FindValue next w) = m_base_check_isEnabled w
  /\ GetInputData (FindValue next w) = GetInputData w
  /\ (m_result_label (FindValue next w) <> Qt.tr "Match Found" ->
      m_search_address (FindValue next w) = m_search_address w
      /\ m_search_offset (FindValue next w) = m_search_offset w
      /\ m_memory_view_address (FindValue next w) = m_memory_view_address w).
Proof.
  destruct (FindValue_cases next w) as [E|[E|[E|[E|(r & _ & E)]]]]; rewrite E;
    repeat split; try reflexivity;
    exfalso; match goal with Hl : _ <> _ |- _ => apply Hl; reflexivity end.
Qed.

(** The panel right after a match: the target is the found address, the
    address box is not empty and the value is untouched. *)
Lemma after_match (next : bool) (w : MemoryWidget) :
  m_result_label (FindValue next w) = Qt.tr "Match Found" ->
  exists r,
    Search (search_start next w) (GetInputData w)
      (Int.to_u32 (Qt.length (GetInputData w))) next = Some r
    /\ m_memory_view_address (FindValue next w) = Int.to_u32 r
    /\ GetTargetAddress (FindValue next w)
       = {| address := Int.to_u32 r; is_good_address := true; is_good_offset := true |}
    /\ Qt.isEmpty (m_search_address (FindValue next w)) = false
    /\ GetInputData (FindValue next w) = GetInputData w.
Proof.
  intros Hm. destruct (FindValue_match_found next w Hm) as (r & Hs & E).
  exists r. split; [exact Hs|].
  destruct (arg_hex_reads_back (Int.to_u32 r) (to_u32_range r))
    as (ds & Ed & L & F & V & P).
  rewrite E. split; [reflexivity|]. split; [|split; [|reflexivity]].
  - apply GetTargetAddress_of_texts; [apply to_u32_range|exact P|reflexivity].
  - cbn [m_search_address memory_view_SetAddress set_search_offset set_search_address].
    rewrite Ed. destruct ds; [discriminate L|reflexivity].
Qed.

(** X12: finding again continues from the match: after a match the next
    find starts one past the found address going forwards and one before it
    going backwards, in 32-bit arithmetic, and searches for the same
    bytes. *)
Theorem FindValue_again_starts_beside_match (next again : bool) (w : MemoryWidget) :
  m_result_label (FindValue next w) = Qt.tr "Match Found" ->
  exists r,
    Search (search_start next w) (GetInputData w)
      (Int.to_u32 (Qt.length (GetInputData w))) next = Some r
    /\ search_call again (FindValue next w)
       = (Int.to_u32 (Int.to_u32 r + (if again then 1 else -1)),
          GetInputData w, Int.to_u32 (Qt.length (GetInputData w)), again).
Proof.
  intros Hm. destruct (after_match next w Hm) as (r & Hs & _ & Ht & Hne & Hd).
  exists r. split; [exact Hs|].
  unfold search_call, search_start. rewrite Hne, Ht, Hd. reflexivity.
Qed.

(** X13: with an accessor that searches in the direction asked and returns
    32-bit addresses, two finds in a row in the same direction that both
    report a match never land on the same address unless the first match
    was at the end of the address range in that direction: forwards the
    second address is larger, backwards it is smaller. *)
Theorem FindValue_twice_moves_on (next : bool) (w : MemoryWidget) :
  directional -> returns_u32 ->
  m_result_label (FindValue next w) = Qt.tr "Match Found" ->
  m_result_label (FindValue next (FindValue next w)) = Qt.tr "Match Found" ->
  (if next
   then m_memory_view_address (FindValue next w) < Int.u32_max
   else 0 < m_memory_view_address (FindValue next w)) ->
  if next
  then m_memory_view_address (FindValue next w)
       < m_memory_view_address (FindValue next (FindValue next w))
  else m_memory_view_address (FindValue next (FindValue next w))
       < m_memory_view_address (FindValue next w).
Proof.
  intros Hdir Hu H1 H2 Hedge.
  destruct (after_match next w H1) as (r1 & S1 & V1 & Ht & Hne & Hd).
  destruct (after_match next (FindValue next w) H2) as (r2 & S2 & V2 & _).
  rewrite V1 in *. rewrite V2.
  unfold search_start in S2. rewrite Hne, Ht in S2. cbn [negb address] in S2.
  pose proof (Hu _ _ _ _ _ S2) as R2. pose proof (Hu _ _ _ _ _ S1) as R1.
  apply Hdir in S2.
  unfold Int.to_u32, Int.wrap, Int.u32_max in *.
  rewrite (Z.mod_small r1) in * by lia. rewrite (Z.mod_small r2) by lia.
  destruct next.
  - rewrite Z.mod_small in S2 by lia. lia.
  - rewrite Z.mod_small in S2 by lia. lia.
Qed.

End FindAgain.

(** The region search stays inside the region. *)
Lemma scan_forward_below (r : MemoryRegion) (pattern : QByteArray) (count : nat) :
  forall off found,
    scan_forward r pattern off count = Some found ->
    found < region_begin r + Z.of_nat off + Z.of_nat count.
Proof.
  induction count as [|count IH]; intros off found H; [discriminate H|].
  cbn [scan_forward] in H. destruct (matches_at r pattern off).
  - injection H as <-. lia.
  - apply IH in H. lia.
Qed.

Lemma scan_backward_above (r : MemoryRegion) (pattern : QByteArray) (off : nat) :
  forall found,
    scan_backward r pattern off = Some found -> region_begin r <= found.
Proof.
  induction off as [|off IH]; intros found H; cbn [scan_backward] in H.
  - destruct (matches_at r pattern 0); [injection H as <-; lia|discriminate H].
  - destruct (matches_at r pattern (S off)); [injection H as <-; lia|].
    apply IH, H.
Qed.

Lemma region_Search_inside (r : MemoryRegion) (start : Z) (pattern : QByteArray)
  (size : Z) (forward : bool) (found : Z) :
  region_Search r start pattern size forward = Some found ->
  region_begin r <= found <= region_begin r + Z.of_nat (List.length (region_bytes r)).
Proof.
  unfold region_Search.
  destruct (Nat.ltb_spec (List.length (region_bytes r)) (List.length pattern)) as [Hlt|Hge];
    [intros H; discriminate H|].
  destruct forward.
  - intros H. pose proof (scan_forward_from _ _ _ _ _ H).
    pose proof (scan_forward_below _ _ _ _ _ H). lia.
  - destruct (Z.ltb_spec (start - region_begin r) 0) as [Hneg|Hpos];
      [intros H; discriminate H|].
    intros H. pose proof (scan_backward_from _ _ _ _ H).
    pose proof (scan_backward_above _ _ _ _ H). lia.
Qed.

Lemma region_returns_u32 (r : MemoryRegion) :
  0 <= region_begin r ->
  region_begin r + Z.of_nat (List.length (region_bytes r)) <= Int.u32_max ->
  @returns_u32 (region_accessors r).
Proof.
  intros H0 H1. unfold returns_u32. cbn [Search region_accessors].
  intros start pattern size forward found H.
  pose proof (region_Search_inside r start pattern size forward found H). lia.
Qed.

Lemma FindValue_again_starts_beside_match_witness :
  let acc := region_accessors region_two_matches in
  let w := @ValidateAndPreviewInputValue integers_only
             (widget_with "" "" "AA" false HEXSTR) in
  exists r,
    @Search acc (search_start true w) (GetInputData w)
      (Int.to_u32 (Qt.length (GetInputData w))) true = Some r
    /\ search_call true (@FindValue acc true w)
       = (Int.to_u32 (Int.to_u32 r + 1),
          GetInputData w, Int.to_u32 (Qt.length (GetInputData w)), true).
Proof.
  exact (@FindValue_again_starts_beside_match (region_accessors region_two_matches)
           true true
           (@ValidateAndPreviewInputValue integers_only
              (widget_with "" "" "AA" false HEXSTR))
           eq_refl).
Defined.

Lemma FindValue_twice_moves_on_witness :
  let acc := region_accessors region_two_matches in
  let w := @ValidateAndPreviewInputValue integers_only
             (widget_with "" "" "AA" false HEXSTR) in
  m_memory_view_address (@FindValue acc true w)
  < m_memory_view_address (@FindValue acc true (@FindValue acc true w)).
Proof.
  assert (Hu : @returns_u32 (region_accessors region_two_matches)).
  { apply region_returns_u32; [reflexivity|]. unfold Int.u32_max. cbn. lia. }
  assert (He : 0 < Int.u32_max) by reflexivity.
  exact (@FindValue_twice_moves_on (region_accessors region_two_matches) true
           (@ValidateAndPreviewInputValue integers_only
              (widget_with "" "" "AA" false HEXSTR))
           (region_Search_directional region_two_matches) Hu eq_refl eq_refl He).
Defined.

(** ** [FindValue]: the start handed to the accessor *)

Section FindStartAdjusted.

Context {accessors : Accessors}.

Lemma FindValue_records_call (next : bool) (w : MemoryWidget) :
  is_good_address (GetTargetAddress w) = true ->
  is_good_offset (GetTargetAddress w) = true ->
  GetInputData w <> [] ->
  search_calls (FindValue next w) = search_call next w :: search_calls w.
Proof.
  intros Hga Hgo Hne. unfold FindValue, search_call, search_start.
  rewrite Hga, Hgo. cbn [negb].
  destruct (GetInputData w) as [|b bs] eqn:Eb; [contradiction|].
  cbn [Qt.isEmpty].
  destruct (Search _ _ _ _); reflexivity.
Qed.

(** C6, as the code has it: with an address in the address box the search
    starts at the resolved address plus one going forwards and minus one
    going backwards, in 32-bit arithmetic; with an empty box it starts at the
    resolved address itself.  Away from the end of the address range in the
    direction of the search the adjustment is exact, and an accessor that
    searches in the direction asked and returns 32-bit addresses then never
    reports the address in the box again. *)
Theorem FindValue_start_adjusted (next : bool) (w : MemoryWidget) :
  is_good_address (GetTargetAddress w) = true ->
  is_good_offset (GetTargetAddress w) = true ->
  GetInputData w <> [] ->
  search_calls (FindValue next w)
  = ((if Qt.isEmpty (m_search_address w)
      then address (GetTargetAddress w)
      else Int.to_u32 (address (GetTargetAddress w) + (if next then 1 else -1))),
     GetInputData w, Int.to_u32 (Qt.length (GetInputData w)), next)
    :: search_calls w
  /\ (Qt.isEmpty (m_search_address w) = false ->
      (if next then address (GetTargetAddress w) < Int.u32_max
       else 0 < address (GetTargetAddress w)) ->
      Int.to_u32 (address (GetTargetAddress w) + (if next then 1 else -1))
      = address (GetTargetAddress w) + (if next then 1 else -1)
      /\ (directional -> returns_u32 ->
          m_result_label (FindValue next w) = Qt.tr "Match Found" ->
          m_memory_view_address (FindValue next w) <> address (GetTargetAddress w))).
Proof.
  intros Hga Hgo Hne. split.
  - rewrite (FindValue_records_call next w Hga Hgo Hne).
    unfold search_call, search_start.
    destruct (Qt.isEmpty (m_search_address w)); reflexivity.
  - intros He Hedge.
    pose proof (GetTargetAddress_address_range w) as Hr.
    split.
    + unfold Int.to_u32, Int.wrap, Int.u32_max in *.
      destruct next; apply Z.mod_small; lia.
    + intros Hdir Hu Hm.
      destruct (after_match next w Hm) as (r & Hs & Hv & _).
      pose proof (Hu _ _ _ _ _ Hs) as Rr.
      pose proof (search_skips_quoted_address next w r Hdir He Hedge Hs) as Hd.
      rewrite Hv. unfold Int.to_u32, Int.wrap, Int.u32_max in *.
      rewrite Z.mod_small by lia. exact Hd.
Qed.

End FindStartAdjusted.

Lemma FindValue_start_adjusted_witness :
  search_calls
    (@FindValue (region_accessors region_two_matches) true
       (@ValidateAndPreviewInputValue integers_only
          (widget_with "00000000" "" "AA" false HEXSTR)))
  = [(1, [170], 1, true)]
  /\ m_memory_view_address
       (@FindValue (region_accessors region_two_matches) true
          (@ValidateAndPreviewInputValue integers_only
             (widget_with "00000000" "" "AA" false HEXSTR)))
     <> 0.
Proof.
  assert (Hne : GetInputData
                  (@ValidateAndPreviewInputValue integers_only
                     (widget_with "00000000" "" "AA" false HEXSTR)) <> [])
    by discriminate.
  pose proof (@FindValue_start_adjusted (region_accessors region_two_matches) true
                (@ValidateAndPreviewInputValue integers_only
                   (widget_with "00000000" "" "AA" false HEXSTR))
                eq_refl eq_refl Hne) as [Hc Hx].
  split; [exact Hc|].
  assert (Hedge : 0 < Int.u32_max) by reflexivity.
  assert (Hu : @returns_u32 (region_accessors region_two_matches)).
  { apply region_returns_u32; [reflexivity|]. unfold Int.u32_max. cbn. lia. }
  destruct (Hx eq_refl Hedge) as [_ Hd].
  exact (Hd (region_Search_directional region_two_matches) Hu eq_refl).
Defined.

(** C6 as stated fails at the ends of the address range, whatever the
    accessor finds: the start is not always the resolved address plus or
    minus one.  Searching backwards with [00000000] in the address box the
    accessor is asked to start at 0xFFFFFFFF, not before address 0, and
    searching forwards with [FFFFFFFF] it is asked to start at 0. *)
Lemma find_start_wraps_at_the_ends :
  ~ (forall (accessors : Accessors) (next : bool) (w : MemoryWidget),
       is_good_address (GetTargetAddress w) = true ->
       is_good_offset (GetTargetAddress w) = true ->
       GetInputData w <> [] ->
       Qt.isEmpty (m_search_address w) = false ->
       exists pattern size,
         search_calls (FindValue next w)
         = (address (GetTargetAddress w) + (if next then 1 else -1), pattern, size, next)
           :: search_calls w)
  /\ (forall accessors : Accessors,
        search_calls
          (FindValue false
             (@ValidateAndPreviewInputValue integers_only
                (widget_with "00000000" "" "AA" false HEXSTR)))
        = [(4294967295, [170], 1, false)])
  /\ (forall accessors : Accessors,
        search_calls
          (FindValue true
             (@ValidateAndPreviewInputValue integers_only
                (widget_with "FFFFFFFF" "" "AA" false HEXSTR)))
        = [(0, [170], 1, true)]).
Proof.
  assert (Hne : forall a,
             GetInputData
               (@ValidateAndPreviewInputValue integers_only
                  (widget_with a "" "AA" false HEXSTR)) <> [])
    by (intros a; discriminate).
  assert (H0 : forall accessors : Accessors,
             search_calls
               (FindValue false
                  (@ValidateAndPreviewInputValue integers_only
                     (widget_with "00000000" "" "AA" false HEXSTR)))
             = [(4294967295, [170], 1, false)]).
  { intros accessors.
    exact (FindValue_records_call false
             (@ValidateAndPreviewInputValue integers_only
                (widget_with "00000000" "" "AA" false HEXSTR))
             eq_refl eq_refl (Hne "00000000"%string)). }
  split; [|split; [exact H0|]].
  - intros H.
    destruct (H (region_accessors region_two_matches) false
                (@ValidateAndPreviewInputValue integers_only
                   (widget_with "00000000" "" "AA" false HEXSTR))
                eq_refl eq_refl (Hne "00000000"%string) eq_refl)
      as (pattern & size & E).
    rewrite H0 in E. discriminate E.
  - intros accessors.
    exact (FindValue_records_call true
             (@ValidateAndPreviewInputValue integers_only
                (widget_with "FFFFFFFF" "" "AA" false HEXSTR))
             eq_refl eq_refl (Hne "FFFFFFFF"%string)).
Qed.

(** ** [OnSearchAddress] *)

(** X14: typing into the search boxes, with texts that convert to [a] and
    [o]: when the sum is a 32-bit address the view moves to it and neither
    box is marked; when it is not, the view stays where it was, the
    address box is left plain and the offset box is made bold and red.  In
    both cases nothing else changes. *)
Theorem OnSearchAddress_moves_view (d : Debugger) (a o : Z) :
  Qt.toUInt (m_search_address (widget d)) 16 = (a, true) ->
  Qt.toInt (m_search_offset (widget d)) 16 = (o, true) ->
  (0 <= a + o <= Int.u32_max ->
   OnSearchAddress d
   = with_styles {| font_bold := false; text_red := false |}
       {| font_bold := false; text_red := false |}
       (with_widget (memory_view_SetAddress (a + o) (widget d)) d))
  /\ (~ 0 <= a + o <= Int.u32_max ->
      OnSearchAddress d
      = with_styles {| font_bold := false; text_red := false |}
          {| font_bold := true; text_red := true |} d).
Proof.
  intros Ha Ho.
  destruct (GetTargetAddress_flags _ a o true true Ha Ho) as [Fa Fo].
  rewrite orb_true_l in Fa. rewrite orb_true_l, andb_true_l in Fo.
  unfold OnSearchAddress. rewrite Fa. cbn [andb negb]. split; intros Hs.
  - assert (Go : is_good_offset (GetTargetAddress (widget d)) = true).
    { rewrite Fo. apply andb_true_iff. split; apply Z.leb_le; lia. }
    rewrite (GetTargetAddress_address _ a o true true Ha Ho Fa Go), Go.
    reflexivity.
  - assert (Go : is_good_offset (GetTargetAddress (widget d)) = false).
    { rewrite Fo. apply andb_false_iff.
      destruct (Z_le_gt_dec 0 (a + o)); [right|left]; apply Z.leb_gt; lia. }
    rewrite Go. reflexivity.
Qed.

Lemma OnSearchAddress_moves_view_witness :
  m_memory_view_address
    (widget (OnSearchAddress (running (widget_with "80000010" "-20" "" false U8))))
  = 2147483664 + -32
  /\ search_offset_style (OnSearchAddress (running (widget_with "10" "-20" "" false U8)))
     = {| font_bold := true; text_red := true |}.
Proof.
  pose proof (OnSearchAddress_moves_view
                (running (widget_with "80000010" "-20" "" false U8))
                2147483664 (-32) eq_refl eq_refl) as [H1 _].
  pose proof (OnSearchAddress_moves_view
                (running (widget_with "10" "-20" "" false U8))
                16 (-32) eq_refl eq_refl) as [_ H2].
  split.
  - rewrite H1; [reflexivity|unfold Int.u32_max; lia].
  - rewrite H2; [reflexivity|unfold Int.u32_max; lia].
Defined.

(** X15: the handler is idempotent: moving the view does not change the
    texts it was computed from. *)
Theorem OnSearchAddress_idempotent (d : Debugger) :
  OnSearchAddress (OnSearchAddress d) = OnSearchAddress d.
Proof.
  assert (T : forall x e, GetTargetAddress (memory_view_SetAddress x (widget e))
                          = GetTargetAddress (widget e)) by reflexivity.
  unfold OnSearchAddress at 2.
  destruct (is_good_address (GetTargetAddress (widget d))) eqn:Ga;
    destruct (is_good_offset (GetTargetAddress (widget d))) eqn:Go;
    cbn [andb negb]; unfold OnSearchAddress;
    cbn [widget with_styles with_widget];
    rewrite ?T, Ga, Go; reflexivity.
Qed.

(** ** [OnSetValue] and [OnSetValueFromFile] *)

Lemma consecutive_step (address : Z) (n : nat) :
  consecutive address (S n)
  = Int.to_u32 address :: consecutive (Int.to_u32 (address + 1)) n.
Proof.
  unfold consecutive. cbn [seq map]. rewrite Z.add_0_r. f_equal.
  rewrite <- seq_shift, map_map. apply map_ext. intros i.
  unfold Int.to_u32, Int.wrap. rewrite Zplus_mod_idemp_l. f_equal. lia.
Qed.

(** The loop writes byte [i] at the address plus [i], wrapped. *)
Lemma layout_consecutive (bytes : QByteArray) :
  forall address,
    0 <= address <= Int.u32_max ->
    layout address bytes
    = combine (consecutive address (List.length bytes)) (map Int.to_u8 bytes).
Proof.
  induction bytes as [|c rest IH]; intros address Ha; [reflexivity|].
  cbn [layout List.length map]. rewrite consecutive_step. cbn [combine].
  rewrite IH by apply to_u32_range.
  f_equal. f_equal. unfold Int.to_u32, Int.wrap, Int.u32_max in *.
  symmetry. apply Z.mod_small. lia.
Qed.

Lemma write_bytes_eq (bytes : QByteArray) :
  forall address d,
    write_bytes address bytes d
    = {| widget := widget d; core_IsRunning := core_IsRunning d;
         search_address_style := search_address_style d;
         search_offset_style := search_offset_style d;
         written := rev (layout address bytes) ++ written d;
         message_boxes := message_boxes d;
         update_calls := update_calls d |}.
Proof.
  induction bytes as [|c rest IH]; intros address d.
  - destruct d; reflexivity.
  - cbn [write_bytes layout rev]. rewrite IH. cbn [widget core_IsRunning
      search_address_style search_offset_style written message_boxes update_calls WriteU8].
    rewrite <- app_assoc. reflexivity.
Qed.

(** X16: with the core running, a good target and a value, [OnSetValue]
    writes byte [i] of the value at the target address plus [i], in order
    and wrapping at 32 bits, one write per byte; it shows no message, asks
    for one refresh and leaves the panel as it was. *)
Theorem OnSetValue_writes_value (d : Debugger) :
  core_IsRunning d = true ->
  is_good_address (GetTargetAddress (widget d)) = true ->
  is_good_offset (GetTargetAddress (widget d)) = true ->
  GetInputData (widget d) <> [] ->
  written (OnSetValue d)
  = rev (combine
           (consecutive (address (GetTargetAddress (widget d)))
              (List.length (GetInputData (widget d))))
           (map Int.to_u8 (GetInputData (widget d))))
    ++ written d
  /\ message_boxes (OnSetValue d) = message_boxes d
  /\ update_calls (OnSetValue d) = S (update_calls d)
  /\ widget (OnSetValue d) = widget d.
Proof.
  intros Hr Ga Go Hv. unfold OnSetValue. rewrite Hr, Ga, Go. cbn [negb].
  destruct (GetInputData (widget d)) as [|c rest] eqn:E; [contradiction|].
  cbn [Qt.isEmpty]. rewrite write_bytes_eq.
  cbn [written message_boxes update_calls widget Update].
  rewrite layout_consecutive by apply GetTargetAddress_address_range.
  repeat split.
Qed.

(** X17: [OnSetValue] writes nothing unless everything is in order: with
    the core stopped it does nothing at all; with a bad address, a bad
    offset or no value it shows exactly one message box (three different
    texts, checked in that order), writes nothing and asks for no
    refresh. *)
Theorem OnSetValue_refusals (d : Debugger) :
  (core_IsRunning d = false -> OnSetValue d = d)
  /\ (core_IsRunning d = true ->
      is_good_address (GetTargetAddress (widget d)) = false ->
      OnSetValue d = critical (Qt.tr "Error") (Qt.tr "Bad address provided.") d)
  /\ (core_IsRunning d = true ->
      is_good_address (GetTargetAddress (widget d)) = true ->
      is_good_offset (GetTargetAddress (widget d)) = false ->
      OnSetValue d = critical (Qt.tr "Error") (Qt.tr "Bad offset provided.") d)
  /\ (core_IsRunning d = true ->
      is_good_address (GetTargetAddress (widget d)) = true ->
      is_good_offset (GetTargetAddress (widget d)) = true ->
      GetInputData (widget d) = [] ->
      OnSetValue d = critical (Qt.tr "Error") (Qt.tr "Bad value provided.") d)
  /\ (written (OnSetValue d) <> written d ->
      core_IsRunning d = true
      /\ is_good_address (GetTargetAddress (widget d)) = true
      /\ is_good_offset (GetTargetAddress (widget d)) = true
      /\ GetInputData (widget d) <> []
      /\ message_boxes (OnSetValue d) = message_boxes d)
  /\ Qt.tr "Bad address provided." <> Qt.tr "Bad offset provided."
  /\ Qt.tr "Bad address provided." <> Qt.tr "Bad value provided."
  /\ Qt.tr "Bad offset provided." <> Qt.tr "Bad value provided.".
Proof.
  unfold OnSetValue.
  destruct (core_IsRunning d); cbn [negb];
    [|repeat split; try discriminate; exfalso; auto].
  destruct (is_good_address (GetTargetAddress (widget d))); cbn [negb];
    [|repeat split; try discriminate; exfalso; auto].
  destruct (is_good_offset (GetTargetAddress (widget d))); cbn [negb];
    [|repeat split; try discriminate; exfalso; auto].
  destruct (GetInputData (widget d)) as [|c rest] eqn:E; cbn [Qt.isEmpty];
    [repeat split; try discriminate; exfalso; auto|].
  rewrite write_bytes_eq. repeat split; discriminate.
Qed.

Lemma OnSetValue_writes_value_witness :
  written
    (OnSetValue
       (running (@ValidateAndPreviewInputValue integers_only
                   (widget_with "FFFFFFFE" "" "11 22 33" false HEXSTR))))
  = [(0, 51); (4294967295, 34); (4294967294, 17)].
Proof.
  pose proof (OnSetValue_writes_value
                (running (@ValidateAndPreviewInputValue integers_only
                            (widget_with "FFFFFFFE" "" "11 22 33" false HEXSTR)))
                eq_refl eq_refl eq_refl) as H.
  assert (Hv : GetInputData
                 (widget
                    (running (@ValidateAndPreviewInputValue integers_only
                                (widget_with "FFFFFFFE" "" "11 22 33" false HEXSTR))))
               <> []) by discriminate.
  destruct (H Hv) as [Hw _]. rewrite Hw. reflexivity.
Defined.

Lemma OnSetValue_refusals_witness :
  OnSetValue (running (widget_with "xyz" "" "" false U8))
  = critical (Qt.tr "Error") (Qt.tr "Bad address provided.")
      (running (widget_with "xyz" "" "" false U8))
  /\ OnSetValue (running (widget_with "10" "" "" false U8))
     = critical (Qt.tr "Error") (Qt.tr "Bad value provided.")
         (running (widget_with "10" "" "" false U8)).
Proof.
  pose proof (OnSetValue_refusals (running (widget_with "xyz" "" "" false U8)))
    as (_ & H1 & _).
  pose proof (OnSetValue_refusals (running (widget_with "10" "" "" false U8)))
    as (_ & _ & _ & H2 & _).
  split; [exact (H1 eq_refl eq_refl)|exact (H2 eq_refl eq_refl eq_refl eq_refl)].
Defined.

Section FromFileProperties.

Context {files : Files}.

(** X18: [OnSetValueFromFile] needs a running core and a good target but
    no value: it writes the bytes of the chosen file at the target address
    and the addresses after it, wrapping at 32 bits (an empty file writes
    nothing and still asks for a refresh).  A cancelled dialog changes
    nothing; a file that cannot be opened or read gives one message box and
    no write. *)
Theorem OnSetValueFromFile_outcomes (d : Debugger) :
  core_IsRunning d = true ->
  is_good_address (GetTargetAddress (widget d)) = true ->
  is_good_offset (GetTargetAddress (widget d)) = true ->
  match getOpenFileName with
  | None => OnSetValueFromFile d = d
  | Some path =>
      match IOFile_open path with
      | NotOpen =>
          OnSetValueFromFile d
          = critical (Qt.tr "Error") (Qt.tr "Unable to open file.") d
      | Unreadable =>
          OnSetValueFromFile d
          = critical (Qt.tr "Error") (Qt.tr "Unable to read file.") d
      | Readable file_contents =>
          written (OnSetValueFromFile d)
          = rev (combine
                   (consecutive (address (GetTargetAddress (widget d)))
                      (List.length file_contents))
                   (map Int.to_u8 file_contents))
            ++ written d
          /\ message_boxes (OnSetValueFromFile d) = message_boxes d
          /\ update_calls (OnSetValueFromFile d) = S (update_calls d)
          /\ widget (OnSetValueFromFile d) = widget d
      end
  end.
Proof.
  intros Hr Ga Go. unfold OnSetValueFromFile. rewrite Hr, Ga, Go. cbn [negb].
  destruct getOpenFileName as [path|]; [|reflexivity].
  destruct (IOFile_open path) as [| |file_contents]; try reflexivity.
  rewrite write_bytes_eq.
  cbn [written message_boxes update_calls widget Update].
  rewrite layout_consecutive by apply GetTargetAddress_address_range.
  repeat split.
Qed.

(** X19: a bad target is reported before the file dialog is opened, with
    the messages of [OnSetValue]; and with the core stopped nothing
    happens. *)
Theorem OnSetValueFromFile_refusals (d : Debugger) :
  (core_IsRunning d = false -> OnSetValueFromFile d = d)
  /\ (core_IsRunning d = true ->
      is_good_address (GetTargetAddress (widget d)) = false ->
      OnSetValueFromFile d
      = critical (Qt.tr "Error") (Qt.tr "Bad address provided.") d)
  /\ (core_IsRunning d = true ->
      is_good_address (GetTargetAddress (widget d)) = true ->
      is_good_offset (GetTargetAddress (widget d)) = false ->
      OnSetValueFromFile d
      = critical (Qt.tr "Error") (Qt.tr "Bad offset provided.") d)
  /\ (is_good_address (GetTargetAddress (widget d))
      && is_good_offset (GetTargetAddress (widget d)) = false ->
      OnSetValueFromFile d = OnSetValue d).
Proof.
  unfold OnSetValueFromFile, OnSetValue.
  destruct (core_IsRunning d); cbn [negb];
    [|repeat split; try discriminate; reflexivity].
  destruct (is_good_address (GetTargetAddress (widget d))); cbn [negb andb];
    [|repeat split; try discriminate; reflexivity].
  destruct (is_good_offset (GetTargetAddress (widget d))); cbn [negb];
    repeat split; try discriminate; reflexivity.
Qed.

End FromFileProperties.

Lemma OnSetValueFromFile_outcomes_witness :
  written
    (@OnSetValueFromFile (one_file (QStringLiteral "dump.bin") (Readable [1; 2; 3]))
       (running (widget_with "FFFFFFFE" "" "" false U8)))
  = [(0, 3); (4294967295, 2); (4294967294, 1)].
Proof.
  pose proof (@OnSetValueFromFile_outcomes
                (one_file (QStringLiteral "dump.bin") (Readable [1; 2; 3]))
                (running (widget_with "FFFFFFFE" "" "" false U8))
                eq_refl eq_refl eq_refl) as [Hw _].
  rewrite Hw. reflexivity.
Defined.

Lemma OnSetValueFromFile_refusals_witness :
  @OnSetValueFromFile no_file (running (widget_with "10" "-20" "" false U8))
  = critical (Qt.tr "Error") (Qt.tr "Bad offset provided.")
      (running (widget_with "10" "-20" "" false U8)).
Proof.
  pose proof (@OnSetValueFromFile_refusals no_file
                (running (widget_with "10" "-20" "" false U8))) as (_ & _ & H & _).
  exact (H eq_refl eq_refl eq_refl).
Defined.

(** ** From a match to a write *)

Section FindThenSet.

Context {accessors : Accessors}.

(** X20: Find and then Set Value overwrites the match in place: after a
    find that reports a match, [OnSetValue] (core running) writes the bytes
    that were searched for at the found address and the addresses after
    it. *)
Theorem set_value_after_find_overwrites_match (next : bool) (d : Debugger) :
  core_IsRunning d = true ->
  m_result_label (FindValue next (widget d)) = Qt.tr "Match Found" ->
  written (OnSetValue (with_widget (FindValue next (widget d)) d))
  = rev (combine
           (consecutive (m_memory_view_address (FindValue next (widget d)))
              (List.length (GetInputData (widget d))))
           (map Int.to_u8 (GetInputData (widget d))))
    ++ written d
  /\ GetInputData (widget d) <> [].
Proof.
  intros Hr Hm.
  destruct (after_match next (widget d) Hm) as (r & Hs & Hv & Ht & _ & Hd).
  assert (Hne : GetInputData (widget d) <> []).
  { intros En. unfold FindValue in Hm.
    destruct (is_good_address (GetTargetAddress (widget d))); cbn [negb] in Hm;
      [|discriminate Hm].
    destruct (is_good_offset (GetTargetAddress (widget d))); cbn [negb] in Hm;
      [|discriminate Hm].
    rewrite En in Hm. discriminate Hm. }
  split; [|exact Hne].
  unfold OnSetValue. cbn [core_IsRunning widget with_widget].
  rewrite Hr, Ht, Hd, Hv. cbn [negb is_good_address is_good_offset address].
  destruct (GetInputData (widget d)) as [|c rest] eqn:Eg; [contradiction|].
  cbn [Qt.isEmpty]. rewrite write_bytes_eq.
  cbn [written Update with_widget].
  rewrite layout_consecutive by apply to_u32_range. reflexivity.
Qed.

End FindThenSet.

Lemma set_value_after_find_overwrites_match_witness :
  written
    (OnSetValue
       (with_widget
          (@FindValue (region_accessors region_two_matches) true
             (@FindValue (region_accessors region_two_matches) true
                (@ValidateAndPreviewInputValue integers_only
                   (widget_with "" "" "AA" false HEXSTR))))
          (running
             (@FindValue (region_accessors region_two_matches) true
                (@ValidateAndPreviewInputValue integers_only
                   (widget_with "" "" "AA" false HEXSTR))))))
  = [(2, 170)].
Proof.
  pose proof (@set_value_after_find_overwrites_match
                (region_accessors region_two_matches) true
                (running
                   (@FindValue (region_accessors region_two_matches) true
                      (@ValidateAndPreviewInputValue integers_only
                         (widget_with "" "" "AA" false HEXSTR))))
                eq_refl eq_refl) as [Hw _].
  etransitivity; [exact Hw|reflexivity].
Defined.
